(** * Zero-of-Functions solver: the six root-finding loops of [ZOF_CLI.py]

    The method functions of [src/ZOF_CLI.py] ([bisection], [regula_falsi],
    [secant], [newton_raphson], [fixed_point_iteration], [modified_secant])
    are embedded as Rocq functions.  The arithmetic is a parameter of the
    embedding: the loops are written once over a carrier [num] with its
    operations, and are then run on IEEE binary64 numbers (what the Python
    program computes with) and, for the bisection bounds, on exact rationals.

    Python exceptions are values of [exn]; a call either returns ([Ok]) or
    raises ([Raise]).  A [for] loop over [range(1, max_iter+1)] is the
    combinator [for_range], whose body either falls through to the next pass
    ([Continue]) or leaves the function with a value ([Return]).

    The front ends follow the methods: [get_float], [print_iteration_table]
    and [main] of [src/ZOF_CLI.py], and [run_method] of [src/app.py].  The
    expression compiler [parse_function] and Python's [float] and [int] on
    text are parameters of the front ends. *)

From Stdlib Require Import ZArith QArith Qabs Qpower Qfield Lqa.
From Stdlib Require Import List String Ascii Floats Bool Lia.
Import ListNotations.

Set Warnings "-inexact-float".

Set Implicit Arguments.

(** ** Exceptions and results *)

Inductive exn : Type :=
| ValueError (msg : string)
| ZeroDivisionError (msg : string)
| UnboundLocalError (var : string)
| TypeError (msg : string)
| OverflowError (msg : string)
| EOFError
| RaisedByFunction (what : string).

Inductive result (A : Type) : Type :=
| Ok (a : A)
| Raise (e : exn).

Arguments Ok {A} a.
Arguments Raise {A} e.

Definition bind {A B : Type} (m : result A) (k : A -> result B) : result B :=
  match m with
  | Ok a => k a
  | Raise e => Raise e
  end.

Notation "x <- m ;; k" := (bind m (fun x => k))
  (at level 61, m at next level, right associativity).

(** Reading a local variable that no statement has assigned yet. *)
Definition local {A : Type} (var : string) (v : option A) : result A :=
  match v with
  | Some a => Ok a
  | None => Raise (UnboundLocalError var)
  end.

(** The invalid-bracket error of [bisection] and [regula_falsi]. *)
Definition invalid_bracket : exn :=
  ValueError "The function must have opposite signs at a and b.".

(** ** The [for i in range(start, ...)] loop with early [return] *)

Inductive outcome (S R : Type) : Type :=
| Continue (s : S)
| Return (r : R).

Arguments Continue {S R} s.
Arguments Return {S R} r.

Section ForRange.
Variables S R : Type.
Variable body : Z -> S -> result (outcome S R).

(** [for_range n i s] runs the body for the [n] indices [i, i+1, ...]
    starting from the locals [s]. *)
Fixpoint for_range (n : nat) (i : Z) (s : S) : result (outcome S R) :=
  match n with
  | O => Ok (Continue s)
  | Datatypes.S n' =>
      match body i s with
      | Raise e => Raise e
      | Ok (Return r) => Ok (Return r)
      | Ok (Continue s') => for_range n' (i + 1) s'
      end
  end.
End ForRange.

(** What follows a loop: the value an early [return] gave, or else the
    statements after the loop, run on the locals the loop left. *)
Definition after_loop {S R : Type} (rest : S -> result R)
  (o : outcome S R) : result R :=
  match o with
  | Return r => Ok r
  | Continue s => rest s
  end.

(** ** The method functions *)

(** The arithmetic the loops use: [+], [-], [*], the quotient of [/] for a
    nonzero divisor, [abs], the comparisons [<] and [==], and the literals
    [0] and [2]. *)
Class Arith (num : Type) : Type := {
  add : num -> num -> num;
  sub : num -> num -> num;
  mul : num -> num -> num;
  div : num -> num -> num;
  abs : num -> num;
  ltb : num -> num -> bool;
  eqb : num -> num -> bool;
  zero : num;
  two : num }.

(** The function the caller supplies, where it returns numbers of the
    carrier: at an argument it returns such a number or raises.  The
    expression compiler can also build functions that return a value of
    another type (a Python [int], for one); on such a value the arithmetic
    of the loops can raise errors of its own, as [OverflowError] on a large
    [int], and those functions are outside this model. *)
Definition func (num : Type) : Type := num -> string + num.

Definition call {num : Type} (f : func num) (x : num) : result num :=
  match f x with
  | inr y => Ok y
  | inl what => Raise (RaisedByFunction what)
  end.

Section RootFinder.
Context {num : Type} {A : Arith num}.

(** A row of the iteration table: [(i, x, f(x), err)]; the third slot is
    [None] for fixed-point iteration. *)
Definition row : Type := (Z * num * option num * num)%type.

(** What a method returns: [(root, err, iterations, rows)]. *)
Definition solve_result : Type := (num * num * Z * list row)%type.

Definition row_index (r : row) : Z := let '(i, _, _, _) := r in i.
Definition row_x (r : row) : num := let '(_, x, _, _) := r in x.
Definition row_fx (r : row) : option num := let '(_, _, fx, _) := r in fx.
Definition row_err (r : row) : num := let '(_, _, _, e) := r in e.

(** Python's [/] on floats raises when the divisor compares equal to zero. *)
Definition truediv (x y : num) : result num :=
  if eqb y zero then Raise (ZeroDivisionError "float division by zero")
  else Ok (div x y).

(** [numerical_derivative(f,x,h)]: [(f(x+h)-f(x-h))/(2*h)]. *)
Definition numerical_derivative (f : func num) (x h : num)
  : result num :=
  y1 <- call f (add x h) ;;
  y2 <- call f (sub x h) ;;
  truediv (sub y1 y2) (mul two h).

(** *** bisection *)

Record bisection_locals : Type := BisectionLocals {
  bis_a : num; bis_b : num; bis_fa : num; bis_fb : num;
  bis_c : option num; bis_err : option num; bis_rows : list row }.

(** One pass of the loop of [bisection].  The divisor [2] is a nonzero
    literal, so these two divisions cannot raise. *)
Definition bisection_body (f : func num) (tol : num)
  (i : Z) (s : bisection_locals)
  : result (outcome bisection_locals solve_result) :=
  let c := div (add (bis_a s) (bis_b s)) two in
  fc <- call f c ;;
  let err := div (abs (sub (bis_b s) (bis_a s))) two in
  let rows := bis_rows s ++ [(i, c, Some fc, err)] in
  if ltb (abs fc) tol || ltb err tol then Ok (Return (c, err, i, rows))
  else if ltb (mul (bis_fa s) fc) zero
  then Ok (Continue (BisectionLocals (bis_a s) c (bis_fa s) fc
                       (Some c) (Some err) rows))
  else Ok (Continue (BisectionLocals c (bis_b s) fc (bis_fb s)
                       (Some c) (Some err) rows)).

Definition bisection_init (a b fa fb : num) : bisection_locals :=
  BisectionLocals a b fa fb None None [].

Definition bisection_loop (f : func num) (a b fa fb tol : num)
  (max_iter : Z) : result (outcome bisection_locals solve_result) :=
  for_range (bisection_body f tol) (Z.to_nat max_iter) 1
    (bisection_init a b fa fb).

(** The last statement, [return c,err,max_iter,rows]. *)
Definition bisection_return (max_iter : Z) (s : bisection_locals)
  : result solve_result :=
  c <- local "c" (bis_c s) ;;
  err <- local "err" (bis_err s) ;;
  Ok (c, err, max_iter, bis_rows s).

Definition bisection (f : func num) (a b tol : num) (max_iter : Z)
  : result solve_result :=
  fa <- call f a ;;
  fb <- call f b ;;
  if ltb zero (mul fa fb)
  then Raise (ValueError "The function must have opposite signs at a and b.")
  else
    o <- bisection_loop f a b fa fb tol max_iter ;;
    after_loop (bisection_return max_iter) o.

(** *** regula falsi *)

Record regula_locals : Type := RegulaLocals {
  reg_a : num; reg_b : num; reg_fa : num; reg_fb : num;
  reg_c : num; reg_err : option num; reg_rows : list row }.

Definition regula_falsi_body (inf : num) (f : func num) (tol : num)
  (i : Z) (s : regula_locals)
  : result (outcome regula_locals solve_result) :=
  let c_prev := reg_c s in
  c <- truediv (sub (mul (reg_a s) (reg_fb s)) (mul (reg_b s) (reg_fa s)))
               (sub (reg_fb s) (reg_fa s)) ;;
  fc <- call f c ;;
  let err := if (1 <? i)%Z then abs (sub c c_prev) else inf in
  let rows := reg_rows s ++ [(i, c, Some fc, err)] in
  if ltb (abs fc) tol || ltb err tol then Ok (Return (c, err, i, rows))
  else if ltb (mul (reg_fa s) fc) zero
  then Ok (Continue (RegulaLocals (reg_a s) c (reg_fa s) fc
                       c (Some err) rows))
  else Ok (Continue (RegulaLocals c (reg_b s) fc (reg_fb s)
                       c (Some err) rows)).

Definition regula_falsi_init (a b fa fb : num) : regula_locals :=
  RegulaLocals a b fa fb a None [].

Definition regula_falsi_loop (inf : num) (f : func num) (a b fa fb tol : num)
  (max_iter : Z) : result (outcome regula_locals solve_result) :=
  for_range (regula_falsi_body inf f tol) (Z.to_nat max_iter) 1
    (regula_falsi_init a b fa fb).

(** The last statement, [return c,err,max_iter,rows]. *)
Definition regula_falsi_return (max_iter : Z) (s : regula_locals)
  : result solve_result :=
  err <- local "err" (reg_err s) ;;
  Ok (reg_c s, err, max_iter, reg_rows s).

Definition regula_falsi (inf : num) (f : func num) (a b tol : num)
  (max_iter : Z) : result solve_result :=
  fa <- call f a ;;
  fb <- call f b ;;
  if ltb zero (mul fa fb)
  then Raise (ValueError "The function must have opposite signs at a and b.")
  else
    o <- regula_falsi_loop inf f a b fa fb tol max_iter ;;
    after_loop (regula_falsi_return max_iter) o.

(** *** secant *)

Record secant_locals : Type := SecantLocals {
  sec_x0 : num; sec_x1 : num;
  sec_x2 : option num; sec_err : option num; sec_rows : list row }.

Definition secant_body (f : func num) (tol : num)
  (i : Z) (s : secant_locals)
  : result (outcome secant_locals solve_result) :=
  f0 <- call f (sec_x0 s) ;;
  f1 <- call f (sec_x1 s) ;;
  if eqb (sub f1 f0) zero
  then Raise (ZeroDivisionError "Zero denominator in Secant iteration.")
  else
    q <- truediv (mul f1 (sub (sec_x1 s) (sec_x0 s))) (sub f1 f0) ;;
    let x2 := sub (sec_x1 s) q in
    let err := abs (sub x2 (sec_x1 s)) in
    fx2 <- call f x2 ;;
    let rows := sec_rows s ++ [(i, x2, Some fx2, err)] in
    fx2' <- call f x2 ;;
    if ltb (abs fx2') tol || ltb err tol then Ok (Return (x2, err, i, rows))
    else Ok (Continue (SecantLocals (sec_x1 s) x2 (Some x2) (Some err) rows)).

Definition secant_init (x0 x1 : num) : secant_locals :=
  SecantLocals x0 x1 None None [].

Definition secant_loop (f : func num) (x0 x1 tol : num)
  (max_iter : Z) : result (outcome secant_locals solve_result) :=
  for_range (secant_body f tol) (Z.to_nat max_iter) 1 (secant_init x0 x1).

(** The last statement, [return x2,err,max_iter,rows]. *)
Definition secant_return (max_iter : Z) (s : secant_locals)
  : result solve_result :=
  x2 <- local "x2" (sec_x2 s) ;;
  err <- local "err" (sec_err s) ;;
  Ok (x2, err, max_iter, sec_rows s).

Definition secant (f : func num) (x0 x1 tol : num) (max_iter : Z)
  : result solve_result :=
  o <- secant_loop f x0 x1 tol max_iter ;;
  after_loop (secant_return max_iter) o.

(** *** Newton-Raphson, fixed point, modified secant

    These three keep the same locals: the current iterate [x], the last
    error [err] (unassigned before the first pass) and the rows. *)

Record iterate_locals : Type := IterateLocals {
  it_x : num; it_err : option num; it_rows : list row }.

Definition iterate_init (x0 : num) : iterate_locals :=
  IterateLocals x0 None [].

(** The last statement, [return x,err,max_iter,rows]. *)
Definition iterate_return (max_iter : Z) (s : iterate_locals)
  : result solve_result :=
  err <- local "err" (it_err s) ;;
  Ok (it_x s, err, max_iter, it_rows s).

Definition newton_raphson_body (h : num) (f : func num) (tol : num)
  (i : Z) (s : iterate_locals)
  : result (outcome iterate_locals solve_result) :=
  let x := it_x s in
  fx <- call f x ;;
  dfx <- numerical_derivative f x h ;;
  if eqb dfx zero
  then Raise (ZeroDivisionError "Zero derivative encountered.")
  else
    q <- truediv fx dfx ;;
    let x_new := sub x q in
    let err := abs (sub x_new x) in
    fx_new <- call f x_new ;;
    let rows := it_rows s ++ [(i, x_new, Some fx_new, err)] in
    fx_new' <- call f x_new ;;
    if ltb (abs fx_new') tol || ltb err tol
    then Ok (Return (x_new, err, i, rows))
    else Ok (Continue (IterateLocals x_new (Some err) rows)).

Definition newton_raphson_loop (h : num) (f : func num) (x0 tol : num)
  (max_iter : Z) : result (outcome iterate_locals solve_result) :=
  for_range (newton_raphson_body h f tol) (Z.to_nat max_iter) 1
    (iterate_init x0).

(** [h] is the default step of [numerical_derivative], [1e-6]. *)
Definition newton_raphson (h : num) (f : func num) (x0 tol : num)
  (max_iter : Z) : result solve_result :=
  o <- newton_raphson_loop h f x0 tol max_iter ;;
  after_loop (iterate_return max_iter) o.

Definition fixed_point_iteration_body (g : func num) (tol : num)
  (i : Z) (s : iterate_locals)
  : result (outcome iterate_locals solve_result) :=
  let x := it_x s in
  x_new <- call g x ;;
  let err := abs (sub x_new x) in
  let rows := it_rows s ++ [(i, x_new, None, err)] in
  if ltb err tol then Ok (Return (x_new, err, i, rows))
  else Ok (Continue (IterateLocals x_new (Some err) rows)).

Definition fixed_point_iteration_loop (g : func num)
  (x0 tol : num) (max_iter : Z)
  : result (outcome iterate_locals solve_result) :=
  for_range (fixed_point_iteration_body g tol) (Z.to_nat max_iter) 1
    (iterate_init x0).

Definition fixed_point_iteration (g : func num) (x0 tol : num)
  (max_iter : Z) : result solve_result :=
  o <- fixed_point_iteration_loop g x0 tol max_iter ;;
  after_loop (iterate_return max_iter) o.

Definition modified_secant_body (h : num) (f : func num) (delta tol : num)
  (i : Z) (s : iterate_locals)
  : result (outcome iterate_locals solve_result) :=
  let x := it_x s in
  fx <- call f x ;;
  dfx_approx <-
    (if negb (eqb x zero)
     then (y <- call f (add x (mul delta x)) ;;
           truediv (sub y fx) (mul delta x))
     else numerical_derivative f x h) ;;
  if eqb dfx_approx zero
  then Raise (ZeroDivisionError "Zero derivative approximation.")
  else
    q <- truediv fx dfx_approx ;;
    let x_new := sub x q in
    let err := abs (sub x_new x) in
    fx_new <- call f x_new ;;
    let rows := it_rows s ++ [(i, x_new, Some fx_new, err)] in
    fx_new' <- call f x_new ;;
    if ltb (abs fx_new') tol || ltb err tol
    then Ok (Return (x_new, err, i, rows))
    else Ok (Continue (IterateLocals x_new (Some err) rows)).

Definition modified_secant_loop (h : num) (f : func num)
  (x0 delta tol : num) (max_iter : Z)
  : result (outcome iterate_locals solve_result) :=
  for_range (modified_secant_body h f delta tol) (Z.to_nat max_iter) 1
    (iterate_init x0).

Definition modified_secant (h : num) (f : func num) (x0 delta tol : num)
  (max_iter : Z) : result solve_result :=
  o <- modified_secant_loop h f x0 delta tol max_iter ;;
  after_loop (iterate_return max_iter) o.

(** *** The convergence tests and the shape of a returned trace *)

(** [abs(f(x))<tol or err<tol], read off a recorded row. *)
Definition residual_or_error (tol : num) (r : row) : bool :=
  match row_fx r with
  | Some fx => ltb (abs fx) tol
  | None => false
  end || ltb (row_err r) tol.

(** [err<tol], read off a recorded row. *)
Definition error_only (tol : num) (r : row) : bool :=
  ltb (row_err r) tol.

(** The row holds the value of [f] at its iterate. *)
Definition records_value (f : func num) (r : row) : Prop :=
  exists y, row_fx r = Some y /\ f (row_x r) = inr y.

(** The row holds no function value. *)
Definition records_no_value (r : row) : Prop := row_fx r = None.

(** Rows numbered [i], [i+1], ... in order. *)
Fixpoint numbered (i : Z) (rows : list row) : Prop :=
  match rows with
  | [] => True
  | r :: rest => row_index r = i /\ numbered (i + 1) rest
  end.

(** A result [(x, err, n, rows)] that stopped at the first row meeting the
    test [crit], or at the cap: the last row is row [n] and carries [x]
    and [err], no earlier row meets the test, and row [n] meets it unless
    [n] is the cap. *)
Definition first_stop (crit : row -> bool) (max_iter : Z)
  (res : solve_result) : Prop :=
  let '(x, err, n, rows) := res in
  (1 <= n <= max_iter)%Z /\
  exists earlier fx,
    rows = earlier ++ [(n, x, fx, err)] /\
    Z.of_nat (List.length earlier) = (n - 1)%Z /\
    Forall (fun r => crit r = false) earlier /\
    (crit (n, x, fx, err) = true \/ n = max_iter).

(** A result [(x, err, max_iter, rows)] of a run that used up the cap:
    [max_iter] rows, none meeting the test, the last one carrying [x] and
    [err]. *)
Definition cap_exhausted (crit : row -> bool) (max_iter : Z)
  (res : solve_result) : Prop :=
  let '(x, err, n, rows) := res in
  n = max_iter /\
  Z.of_nat (List.length rows) = max_iter /\
  Forall (fun r => crit r = false) rows /\
  exists earlier fx, rows = earlier ++ [(max_iter, x, fx, err)].

(** The row discipline of a loop body: a pass that falls through has
    appended one row, numbered by the pass, that fails the test [crit], and
    leaves locals from which the statements after the loop, [rest], return
    that row's iterate and error; a pass that returns has appended one row,
    numbered by the pass, that meets the test, and returns its iterate, its
    error and its number.  [Inv i s] is what the locals [s] satisfy at the
    start of pass [i], and [P] what every recorded row satisfies. *)
(** A result that stopped at the first row meeting the test or at the cap,
    whose rows are numbered from 1 and all satisfy [P]. *)
Definition well_traced (crit : row -> bool) (P : row -> Prop)
  (max_iter : Z) (res : solve_result) : Prop :=
  first_stop crit max_iter res /\
  numbered 1 (snd res) /\ Forall P (snd res).

(** The locals need satisfy nothing. *)
Definition no_invariant (S : Type) (i : Z) (s : S) : Prop := True.

Definition row_discipline (S : Type) (rows_of : S -> list row)
  (rest : Z -> S -> result solve_result)
  (body : Z -> S -> result (outcome S solve_result))
  (crit : row -> bool) (P : row -> Prop) (Inv : Z -> S -> Prop) : Prop :=
  (forall i s s',
      Inv i s -> body i s = Ok (Continue s') ->
      Inv (i + 1)%Z s' /\
      exists x fx e,
        rows_of s' = rows_of s ++ [(i, x, fx, e)] /\
        crit (i, x, fx, e) = false /\ P (i, x, fx, e) /\
        forall m, rest m s' = Ok (x, e, m, rows_of s')) /\
  (forall i s x e n rows,
      Inv i s -> body i s = Ok (Return (x, e, n, rows)) ->
      n = i /\
      exists fx,
        rows = rows_of s ++ [(i, x, fx, e)] /\
        crit (i, x, fx, e) = true /\ P (i, x, fx, e)).


(** A method at its cap, given by its loop body [body], its locals [s0]
    before the loop and the outcome [run] of the call: when all [max_iter]
    passes fall through, the call returns a result that used up the cap; a
    returned result none of whose rows meets the test used up the cap; and
    a pass that raises, reached after passes that fell through, ends the
    call with its exception. *)
Definition returns_at_cap (S : Type)
  (body : Z -> S -> result (outcome S solve_result))
  (crit : row -> bool) (s0 : S) (max_iter : Z)
  (run : result solve_result) : Prop :=
  (forall s,
      for_range body (Z.to_nat max_iter) 1 s0 = Ok (Continue s) ->
      exists res, run = Ok res /\ cap_exhausted crit max_iter res) /\
  (forall res,
      run = Ok res -> Forall (fun r => crit r = false) (snd res) ->
      cap_exhausted crit max_iter res) /\
  (forall k s e,
      (Z.of_nat k < max_iter)%Z ->
      for_range body k 1 s0 = Ok (Continue s) ->
      body (1 + Z.of_nat k)%Z s = Raise e ->
      run = Raise e).

End RootFinder.

Arguments row num : clear implicits.
Arguments solve_result num : clear implicits.

(** ** The two carriers *)

(** Python's [float]: IEEE binary64, with the comparisons of IEEE ([<] and
    [==] are false on a NaN, and [0.0 == -0.0]). *)
#[export] Instance float_arith : Arith float := {|
  add := PrimFloat.add;
  sub := PrimFloat.sub;
  mul := PrimFloat.mul;
  div := PrimFloat.div;
  abs := PrimFloat.abs;
  ltb := PrimFloat.ltb;
  eqb := PrimFloat.eqb;
  zero := 0%float;
  two := 2%float |}.

(** Exact rational arithmetic, the arithmetic of the textbook method. *)
#[export] Instance exact_arith : Arith Q := {|
  add := Qplus;
  sub := Qminus;
  mul := Qmult;
  div := Qdiv;
  abs := Qabs;
  ltb := fun x y => negb (Qle_bool y x);
  eqb := Qeq_bool;
  zero := 0%Q;
  two := 2%Q |}.

(** The literals of the program, as binary64 numbers: [1e-6], [1e-3] and
    [float("inf")]. *)
Definition lit_1e_6 : float := 0x1.0c6f7a0b5ed8dp-20%float.
Definition lit_1e_3 : float := 0x1.0624dd2f1a9fcp-10%float.
Definition float_inf : float := PrimFloat.infinity.

(** The exact value of a finite binary64 number. *)
Definition Q_of_float (x : float) : option Q :=
  match Prim2SF x with
  | S754_zero _ => Some 0%Q
  | S754_finite s m e =>
      Some (Qmult (inject_Z (if s then Z.neg m else Z.pos m)) (Qpower 2 e))
  | _ => None
  end.

Definition is_finite (x : float) : bool :=
  match Prim2SF x with
  | S754_zero _ | S754_finite _ _ _ => true
  | _ => false
  end.

(** ** Calling the method functions with arguments left out

    The signatures are [bisection(f,a,b,tol,max_iter=100)] and the like:
    only [max_iter] has a default.  An argument the caller leaves out is
    [None]. *)









(** ** The parameter intake of the command-line front end *)

(** A line of text is held as the UTF-8 encoding of the Python [str].
    [utf8_decode] gives its characters as code points, and [None] for bytes
    that encode no [str]. *)
Definition continuation (b : N) : bool := ((128 <=? b) && (b <=? 191))%N.

Fixpoint utf8_decode (bytes : list N) : option (list N) :=
  match bytes with
  | [] => Some []
  | b0 :: rest =>
      if (b0 <? 128)%N then option_map (cons b0) (utf8_decode rest)
      else if ((194 <=? b0) && (b0 <=? 223))%N then
        match rest with
        | b1 :: rest1 =>
            if continuation b1
            then option_map (cons ((b0 - 192) * 64 + (b1 - 128))%N)
                   (utf8_decode rest1)
            else None
        | _ => None
        end
      else if ((224 <=? b0) && (b0 <=? 239))%N then
        match rest with
        | b1 :: b2 :: rest2 =>
            if continuation b1 && continuation b2
               && (negb (b0 =? 224) || (160 <=? b1))%N
               && (negb (b0 =? 237) || (b1 <=? 159))%N
            then option_map
                   (cons ((b0 - 224) * 4096 + (b1 - 128) * 64
                          + (b2 - 128))%N)
                   (utf8_decode rest2)
            else None
        | _ => None
        end
      else if ((240 <=? b0) && (b0 <=? 244))%N then
        match rest with
        | b1 :: b2 :: b3 :: rest3 =>
            if continuation b1 && continuation b2 && continuation b3
               && (negb (b0 =? 240) || (144 <=? b1))%N
               && (negb (b0 =? 244) || (b1 <=? 143))%N
            then option_map
                   (cons ((b0 - 240) * 262144 + (b1 - 128) * 4096
                          + (b2 - 128) * 64 + (b3 - 128))%N)
                   (utf8_decode rest3)
            else None
        | _ => None
        end
      else None
  end.

Definition code_points (s : string) : option (list N) :=
  utf8_decode (map N_of_ascii (list_ascii_of_string s)).

(** [str.isspace()] on one character, the white space that [str.strip()]
    removes: U+0009..U+000D, U+001C..U+0020, U+0085, U+00A0, U+1680,
    U+2000..U+200A, U+2028, U+2029, U+202F, U+205F and U+3000. *)
Definition is_space (c : N) : bool :=
  ((9 <=? c) && (c <=? 13) || (28 <=? c) && (c <=? 32)
   || (c =? 133) || (c =? 160) || (c =? 5760)
   || (8192 <=? c) && (c <=? 8202)
   || (c =? 8232) || (c =? 8233) || (c =? 8239) || (c =? 8287)
   || (c =? 12288))%N.

(** [s.strip()==""]: every character of [s] is white space. *)
Definition is_blank (s : string) : bool :=
  match code_points s with
  | Some cs => forallb is_space cs
  | None => false
  end.

(** [int(x)] for a float [x]: truncation toward zero. *)
Definition py_int (x : float) : result Z :=
  match Prim2SF x with
  | S754_zero _ => Ok 0%Z
  | S754_finite s m e =>
      let v := if (0 <=? e)%Z then (Z.pos m * 2 ^ e)%Z
               else (Z.pos m / 2 ^ (- e))%Z in
      Ok (if s then (- v)%Z else v)
  | S754_infinity _ =>
      Raise (OverflowError "cannot convert float infinity to integer")
  | S754_nan => Raise (ValueError "cannot convert float NaN to integer")
  end.

(** [print_iteration_table(rows)].  The lines it prints are not modelled.
    Each row is formatted with [{fx:<20.12g}], which raises on the [None]
    that stands for [f(x)] in the rows of fixed-point iteration. *)
Definition print_iteration_table (rows : list (row float)) : result unit :=
  if forallb (fun r => match row_fx r with Some _ => true | None => false end)
       rows
  then Ok tt
  else Raise (TypeError
                "unsupported format string passed to NoneType.__format__").

(** The statements of [main] after the method has been called: the result
    is unpacked, the table is printed, then the line with the root. *)
Definition report (run : result (solve_result float))
  : result (solve_result float) :=
  res <- run ;;
  bind (print_iteration_table (snd res)) (fun _ => Ok res).

Section CommandLine.
(** The expression compiler and Python's [float(s)] on a string are taken
    as given; [py_float s = None] when [float(s)] raises. *)
Variable parse_function : string -> func float.
Variable py_float : string -> option float.

(** [get_float(prompt, default)] reading the lines [stdin]: the value and
    the lines left.  A line that is no number is answered with
    "Invalid number." and the prompt repeats; [None] when the lines run out
    before a number is read. *)
Fixpoint get_float (default : option float) (stdin : list string)
  : option (float * list string) :=
  match stdin with
  | [] => None
  | s :: rest =>
      match (if is_blank s then default else None) with
      | Some d => Some (d, rest)
      | None =>
          match py_float s with
          | Some v => Some (v, rest)
          | None => get_float default rest
          end
      end
  end.

(** The body of [main] from the prompt for the method number on: the
    result that is printed, table and root, or the exception that ends the
    run. *)
Definition main_solve (f : func float) (stdin : list string)
  : option (result (solve_result float)) :=
  match get_float (Some 1%float) stdin with
  | None => None
  | Some (choice, stdin) =>
  match py_int choice with
  | Raise e => Some (Raise e)
  | Ok choice =>
  match get_float (Some lit_1e_6) stdin with
  | None => None
  | Some (tol, stdin) =>
  match get_float (Some 100%float) stdin with
  | None => None
  | Some (max_iter, stdin) =>
  match py_int max_iter with
  | Raise e => Some (Raise e)
  | Ok max_iter =>
      if (choice =? 1)%Z then
        match get_float None stdin with
        | None => None
        | Some (a, stdin) =>
        match get_float None stdin with
        | None => None
        | Some (b, _) => Some (report (bisection f a b tol max_iter))
        end end
      else if (choice =? 2)%Z then
        match get_float None stdin with
        | None => None
        | Some (a, stdin) =>
        match get_float None stdin with
        | None => None
        | Some (b, _) =>
            Some (report (regula_falsi float_inf f a b tol max_iter))
        end end
      else if (choice =? 3)%Z then
        match get_float None stdin with
        | None => None
        | Some (x0, stdin) =>
        match get_float None stdin with
        | None => None
        | Some (x1, _) => Some (report (secant f x0 x1 tol max_iter))
        end end
      else if (choice =? 4)%Z then
        match get_float None stdin with
        | None => None
        | Some (x0, _) =>
            Some (report (newton_raphson lit_1e_6 f x0 tol max_iter))
        end
      else if (choice =? 5)%Z then
        match stdin with
        | [] => Some (Raise EOFError)
        | gexpr :: stdin =>
            match get_float None stdin with
            | None => None
            | Some (x0, _) =>
                Some (report (fixed_point_iteration (parse_function gexpr)
                                x0 tol max_iter))
            end
        end
      else if (choice =? 6)%Z then
        match get_float None stdin with
        | None => None
        | Some (x0, stdin) =>
        match get_float (Some lit_1e_3) stdin with
        | None => None
        | Some (delta, _) =>
            Some (report
                    (modified_secant lit_1e_6 f x0 delta tol max_iter))
        end end
      else Some (Raise (UnboundLocalError "rows"))
  end end end end end.

Definition main (stdin : list string) : option (result (solve_result float)) :=
  match stdin with
  | [] => Some (Raise EOFError)
  | expr :: stdin => main_solve (parse_function expr) stdin
  end.
End CommandLine.

(** ** The iteration bound of the specification *)

(** [bound] is [max(1, ceil(log2(width/tol)))]; the logarithm of a ratio
    that is not positive counts as below every integer. *)
Definition claimed_bisection_bound (width tol : Q) (bound : Z) : Prop :=
  (exists k : Z,
      Qpower 2 (k - 1) < width / tol /\ width / tol <= Qpower 2 k /\
      bound = Z.max 1 k)
  \/ (width / tol <= 0 /\ bound = 1%Z).


(** ** Sample functions, as the expression compiler would produce them *)

(** [10*x-3] *)
Definition f_linear : func float := fun x => inr (10 * x - 3)%float.

(** [x*x-2] *)
Definition f_square : func float := fun x => inr (x * x - 2)%float.

(** [2*x] *)
Definition g_double : func float := fun x => inr (2 * x)%float.

(** [x-1] *)
Definition f_minus_one : func float := fun x => inr (x - 1)%float.

(** A fragment of [float(s)] and of the expression compiler, enough to run
    the front end on a few lines. *)
Definition sample_float (s : string) : option float :=
  if String.eqb s "0" then Some 0%float
  else if String.eqb s "1" then Some 1%float
  else if String.eqb s "2" then Some 2%float
  else if String.eqb s "5" then Some 5%float
  else if String.eqb s "6" then Some 6%float
  else None.

Definition sample_parse (expr : string) : func float :=
  if String.eqb expr "x*x-2" then f_square
  else if String.eqb expr "x-1" then f_minus_one
  else fun _ => inl "NameError"%string.

(** A line that holds one no-break space, U+00A0. *)
Definition nbsp_line : string :=
  String (ascii_of_nat 194) (String (ascii_of_nat 160) EmptyString).

(** The literal [1e200], as a binary64 number. *)
Definition lit_1e200 : float := 0x1.4e718d7d7625ap+664%float.

(** The zero-denominator error of [secant]. *)
Definition zero_denominator : exn :=
  ZeroDivisionError "Zero denominator in Secant iteration.".

(** [(x-1) - 2**-53] *)
Definition f_tiny : func float := fun x => inr ((x - 1) - 0x1p-53)%float.

(** [10*x-3] on exact rationals *)
Definition q_linear : func Q := fun x => inr (10 * x - 3)%Q.

(** The exact value of a finite binary64 number, and 0 for the others. *)
Definition exact (x : float) : Q :=
  match Q_of_float x with
  | Some q => q
  | None => 0%Q
  end.

(** ** Bisection in exact arithmetic *)

(** The row's error is the width [W] divided by 2 to the row's number. *)
Definition halved (W : Q) (r : row Q) : Prop :=
  (row_err r == W / 2 ^ row_index r)%Q.

(** At the start of pass [i] the bracket is [W / 2^(i-1)] wide. *)
Definition bracket_width (W : Q) (i : Z) (s : @bisection_locals Q) : Prop :=
  (1 <= i)%Z /\ (Qabs (bis_b s - bis_a s) == W / 2 ^ (i - 1))%Q.

(** ** Further names used by the properties beyond the claims *)

(** Python's own error for a float division by zero. *)
Definition native_zero_division : exn :=
  ZeroDivisionError "float division by zero".

(** The errors of [newton_raphson] and [modified_secant]. *)
Definition zero_derivative : exn :=
  ZeroDivisionError "Zero derivative encountered.".

Definition zero_derivative_approximation : exn :=
  ZeroDivisionError "Zero derivative approximation.".

(** A supplied function that returns a number of the carrier at every
    argument: it never raises, and never returns a value of another type. *)
Definition total {num : Type} (f : func num) : Prop :=
  forall x, exists y, f x = inr y.

(** [x*x-1] *)
Definition f_square_minus_one : func float :=
  fun x => inr (x * x - 1)%float.

(** [5], a constant *)
Definition f_constant : func float := fun _ => inr 5%float.

(** ** Iterates of the fixed-point map *)

Section IterateDefinitions.
Context {num : Type} {A : Arith num}.

(** [g] applied [k] times to [x], failing as soon as [g] fails. *)
Fixpoint iterate (g : func num) (k : nat) (x : num) : result num :=
  match k with
  | O => Ok x
  | Datatypes.S k' => y <- iterate g k' x ;; call g y
  end.

(** The row holds the iterate of its number and the distance to the one
    before. *)
Definition is_iterate (g : func num) (x0 : num) (r : row num) : Prop :=
  exists prev,
    iterate g (Z.to_nat (row_index r - 1)) x0 = Ok prev /\
    g prev = inr (row_x r) /\
    row_err r = abs (sub (row_x r) prev).

(** At the start of pass [i] the current iterate is [g] applied [i-1]
    times. *)
Definition at_iterate (g : func num) (x0 : num) (i : Z)
  (s : iterate_locals) : Prop :=
  (1 <= i)%Z /\ iterate g (Z.to_nat (i - 1)) x0 = Ok (it_x s).
End IterateDefinitions.

(** ** Sign changes in exact arithmetic *)

Section SignChangeDefinitions.
Open Scope Q_scope.

(** [p] lies between [a] and [b], whichever is the greater. *)
Definition between (a b p : Q) : Prop :=
  (a <= p /\ p <= b) \/ (b <= p /\ p <= a).

(** [f] is defined at [p] and [q] and its values there do not have the
    same strict sign. *)
Definition sign_change (f : func Q) (p q : Q) : Prop :=
  exists fp fq, f p = inr fp /\ f q = inr fq /\ fp * fq <= 0.

(** The row's iterate is the midpoint of two points of the bracket [a, b]
    with a sign change, and its error is half their distance. *)
Definition straddles (f : func Q) (a b : Q) (r : row Q) : Prop :=
  exists p q,
    sign_change f p q /\ between a b p /\ between a b q /\
    row_x r = (p + q) / 2 /\ row_err r = Qabs (q - p) / 2.

(** What the locals of [bisection] satisfy at the start of a pass when
    [f(a)] is not zero and the tolerance is above zero. *)
Definition keeps_sign_change (f : func Q) (a b : Q) (i : Z)
  (s : @bisection_locals Q) : Prop :=
  f (bis_a s) = inr (bis_fa s) /\ f (bis_b s) = inr (bis_fb s) /\
  bis_fa s * bis_fb s <= 0 /\ ~ bis_fa s == 0 /\
  between a b (bis_a s) /\ between a b (bis_b s).
End SignChangeDefinitions.

(** ** Lines of input *)

(** The number one line gives to [get_float], if any: the default on a
    blank line when there is one, else what [float(s)] gives. *)
Definition line_value (py_float : string -> option float)
  (default : option float) (s : string) : option float :=
  match (if is_blank s then default else None) with
  | Some d => Some d
  | None => py_float s
  end.

(** ** Errors as distances between successive iterates *)

Section SuccessiveDefinitions.
Context {num : Type} {A : Arith num}.

(** The iterate of the last row, and [seed] when there is no row. *)
Definition last_x (seed : num) (rows : list (row num)) : num :=
  fold_left (fun _ r => row_x r) rows seed.

(** Each row's error is the distance from its iterate to the iterate of the
    row before, [prev] standing before the first row. *)
Fixpoint successive (prev : num) (rows : list (row num)) : Prop :=
  match rows with
  | [] => True
  | r :: rest =>
      row_err r = abs (sub (row_x r) prev) /\ successive (row_x r) rest
  end.

(** The same from the second row on, the first row's error being [inf]. *)
Definition successive_after_first (inf : num) (rows : list (row num))
  : Prop :=
  match rows with
  | [] => True
  | r :: rest => row_err r = inf /\ successive (row_x r) rest
  end.

(** The locals of the one-point loops and of [secant] at the start of a
    pass: the rows so far are successive and the point the next error is
    measured from, [cur s], is the last iterate. *)
Definition measures_from (S : Type) (rows_of : S -> list (row num))
  (cur : S -> num) (seed : num) (i : Z) (s : S) : Prop :=
  successive seed (rows_of s) /\ cur s = last_x seed (rows_of s).

(** The locals of [regula_falsi] at the start of pass [i]. *)
Definition regula_measures (inf a : num) (i : Z) (s : regula_locals) : Prop :=
  Z.of_nat (List.length (reg_rows s)) = (i - 1)%Z /\
  successive_after_first inf (reg_rows s) /\
  reg_c s = last_x a (reg_rows s).
End SuccessiveDefinitions.

(** ** The web front end: [run_method] of [app.py]

    [run_method] repeats the six loops inline.  A loop that converges
    assigns [root] and leaves the loop with [break]; the function then
    returns the dictionary [{"rows": rows, "root": root}], where [root] is
    still [None] when no pass converged.  Exceptions raised inside the [try]
    block are caught and returned as [{"error": ...}]. *)

(** What the [except] clause can catch. *)
Inductive web_failure : Type :=
| MethodError (e : exn)
| KeyError (key : string)
| NotANumber (text : string).

Section WebLoops.
Context {num : Type} {A : Arith num}.

(** The dictionary [run_method] returns. *)
Inductive web_response : Type :=
| Rows (rows : list (row num)) (root : option num)
| Error (why : web_failure).

(** What a pass hands over at [break]: the rows and the root. *)
Definition web_break : Type := (list (row num) * num)%type.

(** The statement after the [try] block,
    [return {"rows":rows,"root":root}]. *)
Definition web_return (S : Type) (rows_of : S -> list (row num))
  (r : result (outcome S web_break)) : web_response :=
  match r with
  | Raise e => Error (MethodError e)
  | Ok (Return (rows, root)) => Rows rows (Some root)
  | Ok (Continue s) => Rows (rows_of s) None
  end.

Definition web_bisection_body (f : func num) (tol : num)
  (i : Z) (s : bisection_locals)
  : result (outcome bisection_locals web_break) :=
  let c := div (add (bis_a s) (bis_b s)) two in
  fc <- call f c ;;
  let err := div (abs (sub (bis_b s) (bis_a s))) two in
  let rows := bis_rows s ++ [(i, c, Some fc, err)] in
  if ltb (abs fc) tol || ltb err tol then Ok (Return (rows, c))
  else if ltb (mul (bis_fa s) fc) zero
  then Ok (Continue (BisectionLocals (bis_a s) c (bis_fa s) fc
                       (Some c) (Some err) rows))
  else Ok (Continue (BisectionLocals c (bis_b s) fc (bis_fb s)
                       (Some c) (Some err) rows)).

Definition web_bisection (f : func num) (a b tol : num) (max_iter : Z)
  : web_response :=
  web_return bis_rows
    (fa <- call f a ;;
     fb <- call f b ;;
     if ltb zero (mul fa fb)
     then Raise (ValueError "Opposite signs needed.")
     else for_range (web_bisection_body f tol) (Z.to_nat max_iter) 1
            (bisection_init a b fa fb)).

Definition web_regula_body (inf : num) (f : func num) (tol : num)
  (i : Z) (s : regula_locals)
  : result (outcome regula_locals web_break) :=
  let c_prev := reg_c s in
  c <- truediv (sub (mul (reg_a s) (reg_fb s)) (mul (reg_b s) (reg_fa s)))
               (sub (reg_fb s) (reg_fa s)) ;;
  fc <- call f c ;;
  let err := if (1 <? i)%Z then abs (sub c c_prev) else inf in
  let rows := reg_rows s ++ [(i, c, Some fc, err)] in
  if ltb (abs fc) tol || ltb err tol then Ok (Return (rows, c))
  else if ltb (mul (reg_fa s) fc) zero
  then Ok (Continue (RegulaLocals (reg_a s) c (reg_fa s) fc
                       c (Some err) rows))
  else Ok (Continue (RegulaLocals c (reg_b s) fc (reg_fb s)
                       c (Some err) rows)).

Definition web_regula (inf : num) (f : func num) (a b tol : num)
  (max_iter : Z) : web_response :=
  web_return reg_rows
    (fa <- call f a ;;
     fb <- call f b ;;
     if ltb zero (mul fa fb)
     then Raise (ValueError "Opposite signs needed.")
     else for_range (web_regula_body inf f tol) (Z.to_nat max_iter) 1
            (regula_falsi_init a b fa fb)).

Definition web_secant_body (f : func num) (tol : num)
  (i : Z) (s : secant_locals)
  : result (outcome secant_locals web_break) :=
  f0 <- call f (sec_x0 s) ;;
  f1 <- call f (sec_x1 s) ;;
  if eqb (sub f1 f0) zero
  then Raise (ZeroDivisionError "Zero denom")
  else
    q <- truediv (mul f1 (sub (sec_x1 s) (sec_x0 s))) (sub f1 f0) ;;
    let x2 := sub (sec_x1 s) q in
    let err := abs (sub x2 (sec_x1 s)) in
    fx2 <- call f x2 ;;
    let rows := sec_rows s ++ [(i, x2, Some fx2, err)] in
    fx2' <- call f x2 ;;
    if ltb (abs fx2') tol || ltb err tol then Ok (Return (rows, x2))
    else Ok (Continue (SecantLocals (sec_x1 s) x2 (Some x2) (Some err) rows)).

Definition web_secant (f : func num) (x0 x1 tol : num) (max_iter : Z)
  : web_response :=
  web_return sec_rows
    (for_range (web_secant_body f tol) (Z.to_nat max_iter) 1
       (secant_init x0 x1)).

Definition web_newton_body (h : num) (f : func num) (tol : num)
  (i : Z) (s : iterate_locals)
  : result (outcome iterate_locals web_break) :=
  let x := it_x s in
  fx <- call f x ;;
  dfx <- numerical_derivative f x h ;;
  if eqb dfx zero
  then Raise (ZeroDivisionError "Zero derivative")
  else
    q <- truediv fx dfx ;;
    let x_new := sub x q in
    let err := abs (sub x_new x) in
    fx_new <- call f x_new ;;
    let rows := it_rows s ++ [(i, x_new, Some fx_new, err)] in
    fx_new' <- call f x_new ;;
    if ltb (abs fx_new') tol || ltb err tol then Ok (Return (rows, x_new))
    else Ok (Continue (IterateLocals x_new (Some err) rows)).

Definition web_newton (h : num) (f : func num) (x0 tol : num)
  (max_iter : Z) : web_response :=
  web_return it_rows
    (for_range (web_newton_body h f tol) (Z.to_nat max_iter) 1
       (iterate_init x0)).

Definition web_fixed_body (g : func num) (tol : num)
  (i : Z) (s : iterate_locals)
  : result (outcome iterate_locals web_break) :=
  let x := it_x s in
  x_new <- call g x ;;
  let err := abs (sub x_new x) in
  let rows := it_rows s ++ [(i, x_new, None, err)] in
  if ltb err tol then Ok (Return (rows, x_new))
  else Ok (Continue (IterateLocals x_new (Some err) rows)).

Definition web_fixed (g : func num) (x0 tol : num) (max_iter : Z)
  : web_response :=
  web_return it_rows
    (for_range (web_fixed_body g tol) (Z.to_nat max_iter) 1
       (iterate_init x0)).

Definition web_modified_body (h : num) (f : func num) (delta tol : num)
  (i : Z) (s : iterate_locals)
  : result (outcome iterate_locals web_break) :=
  let x := it_x s in
  fx <- call f x ;;
  dfx_approx <-
    (if negb (eqb x zero)
     then (y <- call f (add x (mul delta x)) ;;
           truediv (sub y fx) (mul delta x))
     else numerical_derivative f x h) ;;
  if eqb dfx_approx zero
  then Raise (ZeroDivisionError "Zero derivative approx")
  else
    q <- truediv fx dfx_approx ;;
    let x_new := sub x q in
    let err := abs (sub x_new x) in
    fx_new <- call f x_new ;;
    let rows := it_rows s ++ [(i, x_new, Some fx_new, err)] in
    fx_new' <- call f x_new ;;
    if ltb (abs fx_new') tol || ltb err tol then Ok (Return (rows, x_new))
    else Ok (Continue (IterateLocals x_new (Some err) rows)).

Definition web_modified (h : num) (f : func num) (x0 delta tol : num)
  (max_iter : Z) : web_response :=
  web_return it_rows
    (for_range (web_modified_body h f delta tol) (Z.to_nat max_iter) 1
       (iterate_init x0)).

(** *** The two front ends side by side *)

(** The message the web loops give to an error of the command-line
    functions. *)
Definition web_exn (e : exn) : exn :=
  match e with
  | ValueError msg =>
      if (msg =? "The function must have opposite signs at a and b.")%string
      then ValueError "Opposite signs needed." else e
  | ZeroDivisionError msg =>
      if (msg =? "Zero denominator in Secant iteration.")%string
      then ZeroDivisionError "Zero denom"
      else if (msg =? "Zero derivative encountered.")%string
      then ZeroDivisionError "Zero derivative"
      else if (msg =? "Zero derivative approximation.")%string
      then ZeroDivisionError "Zero derivative approx"
      else e
  | _ => e
  end.

(** The root the web loop reports for a result of a command-line function:
    the estimate when the last row meets the test, and none otherwise. *)
Definition web_root (crit : row num -> bool) (res : solve_result num)
  : option num :=
  let '(x, _, _, rows) := res in
  match rev rows with
  | r :: _ => if crit r then Some x else None
  | [] => None
  end.

(** What [run_method] answers where the command-line function gives
    [r]. *)
Definition web_view (crit : row num -> bool)
  (r : result (solve_result num)) : web_response :=
  match r with
  | Ok res => Rows (snd res) (web_root crit res)
  | Raise e => Error (MethodError (web_exn e))
  end.

(** One pass of a web loop against the same pass of the command-line
    loop. *)
Definition web_pass (S : Type)
  (r : result (outcome S (solve_result num)))
  : result (outcome S web_break) :=
  match r with
  | Ok (Continue s) => Ok (Continue s)
  | Ok (Return (x, _, _, rows)) => Ok (Return (rows, x))
  | Raise e => Raise (web_exn e)
  end.
End WebLoops.

Arguments web_response num : clear implicits.
Arguments web_break num : clear implicits.

(** *** The form and [run_method] *)

(** [request.form.to_dict()]: the first value of each field. *)
Definition form : Type := list (string * string).

Fixpoint lookup (params : form) (key : string) : option string :=
  match params with
  | [] => None
  | (k, v) :: rest => if (k =? key)%string then Some v else lookup rest key
  end.

Section RunMethod.
Variable parse_function : string -> func float.
Variable py_float : string -> option float.
(** [int(s)] on a string; [None] when it raises. *)
Variable py_int_of_string : string -> option Z.

(** [float(params[key])] *)
Definition float_param (params : form) (key : string)
  : web_failure + float :=
  match lookup params key with
  | None => inl (KeyError key)
  | Some text =>
      match py_float text with
      | Some v => inr v
      | None => inl (NotANumber text)
      end
  end.

(** [float(params.get(key, default))] *)
Definition float_param_or (params : form) (key : string) (default : float)
  : web_failure + float :=
  match lookup params key with
  | None => inr default
  | Some text =>
      match py_float text with
      | Some v => inr v
      | None => inl (NotANumber text)
      end
  end.

(** [int(params.get(key, default))] *)
Definition int_param_or (params : form) (key : string) (default : Z)
  : web_failure + Z :=
  match lookup params key with
  | None => inr default
  | Some text =>
      match py_int_of_string text with
      | Some v => inr v
      | None => inl (NotANumber text)
      end
  end.

(** A failure inside the [try] block becomes the error dictionary. *)
Definition caught (A : Type) (v : web_failure + A)
  (k : A -> web_response float) : web_response float :=
  match v with
  | inl why => Error why
  | inr a => k a
  end.

(** [run_method(method, fexpr, params)]: [inl] is an exception that leaves
    the function, raised before the [try] block is entered. *)
Definition run_method (method fexpr : string) (params : form)
  : web_failure + web_response float :=
  let f := parse_function fexpr in
  match int_param_or params "max_iter" 100 with
  | inl why => inl why
  | inr max_iter =>
  match float_param_or params "tol" lit_1e_6 with
  | inl why => inl why
  | inr tol =>
      inr
        (if (method =? "bisection")%string then
           caught (float_param params "a") (fun a =>
           caught (float_param params "b") (fun b =>
           web_bisection f a b tol max_iter))
         else if (method =? "regula")%string then
           caught (float_param params "a") (fun a =>
           caught (float_param params "b") (fun b =>
           web_regula float_inf f a b tol max_iter))
         else if (method =? "secant")%string then
           caught (float_param params "x0") (fun x0 =>
           caught (float_param params "x1") (fun x1 =>
           web_secant f x0 x1 tol max_iter))
         else if (method =? "newton")%string then
           caught (float_param params "x0") (fun x0 =>
           web_newton lit_1e_6 f x0 tol max_iter)
         else if (method =? "fixed")%string then
           match lookup params "g" with
           | None => Error (KeyError "g")
           | Some gexpr =>
               caught (float_param params "x0") (fun x0 =>
               web_fixed (parse_function gexpr) x0 tol max_iter)
           end
         else if (method =? "modified")%string then
           caught (float_param params "x0") (fun x0 =>
           caught (float_param_or params "delta" lit_1e_3) (fun delta =>
           web_modified lit_1e_6 f x0 delta tol max_iter))
         else Rows [] None)
  end end.
End RunMethod.

(** The test [run_method] applies to the rows of a method. *)
Definition web_test (method : string) (tol : float) : row float -> bool :=
  if (method =? "fixed")%string then error_only tol
  else residual_or_error tol.

(** What a returned dictionary [{"rows": rows, "root": root}] shows: the rows
    are numbered from 1; a root is the iterate of the last row, which is the
    only row that meets the test [crit]; without a root no row meets it. *)
Definition web_shape (num : Type) (crit : row num -> bool)
  (rows : list (row num)) (root : option num) : Prop :=
  numbered 1 rows /\
  match root with
  | Some x =>
      exists earlier fx e,
        rows = earlier ++ [(1 + Z.of_nat (List.length earlier), x, fx, e)]%Z /\
        Forall (fun r => crit r = false) earlier /\
        crit (1 + Z.of_nat (List.length earlier), x, fx, e)%Z = true
  | None => Forall (fun r => crit r = false) rows
  end.

(** A fragment of [int(s)]. *)
Definition sample_int (s : string) : option Z :=
  if String.eqb s "0" then Some 0%Z
  else if String.eqb s "5" then Some 5%Z
  else if String.eqb s "100" then Some 100%Z
  else None.

(** A submitted form. *)
Definition sample_form : form :=
  [("method", "bisection"); ("fexpr", "x*x-2"); ("a", "0"); ("b", "2");
   ("x0", "1"); ("x1", "2"); ("g", "x-1"); ("max_iter", "5")]%string.

(** ** Regula falsi in exact arithmetic *)

Section InsideDefinitions.
Open Scope Q_scope.

(** The row's iterate lies in the bracket [a, b]. *)
Definition inside (a b : Q) (r : row Q) : Prop := between a b (row_x r).

(** What the locals of [regula_falsi] satisfy at the start of a pass when
    [f(a)] is not zero and the tolerance is above zero. *)
Definition regula_keeps_sign_change (f : func Q) (a b : Q) (i : Z)
  (s : @regula_locals Q) : Prop :=
  f (reg_a s) = inr (reg_fa s) /\ f (reg_b s) = inr (reg_fb s) /\
  reg_fa s * reg_fb s <= 0 /\ ~ reg_fa s == 0 /\
  between a b (reg_a s) /\ between a b (reg_b s).
End InsideDefinitions.

(** * Facts *)

(** ** Results and calls *)

Lemma bind_Ok_inv (A B : Type) (m : result A) (k : A -> result B) (b : B) :
  bind m k = Ok b -> exists a, m = Ok a /\ k a = Ok b.
Proof.
  destruct m as [a|e]; simpl; intros H; [eauto | discriminate].
Qed.

Lemma call_Ok (num : Type) (f : func num) (x y : num) :
  call f x = Ok y <-> f x = inr y.
Proof.
  unfold call. destruct (f x); split; intros H; inversion H; reflexivity.
Qed.

Lemma call_ext (num : Type) (f g : func num) :
  (forall x, f x = g x) -> forall x, call f x = call g x.
Proof.
  intros H x. unfold call. rewrite H. reflexivity.
Qed.

(** ** The loop combinator *)

Section ForRangeFacts.
Variables S R : Type.

Lemma for_range_ext (body1 body2 : Z -> S -> result (outcome S R)) :
  (forall i s, body1 i s = body2 i s) ->
  forall n i s, for_range body1 n i s = for_range body2 n i s.
Proof.
  intros H n. induction n as [|n IH]; intros i s; simpl.
  - reflexivity.
  - rewrite H. destruct (body2 i s) as [[s'|r]|e]; auto.
Qed.

(** Running [n + m] passes is running [n] passes and, when none of them
    left the loop, [m] more. *)
Lemma for_range_add (body : Z -> S -> result (outcome S R)) :
  forall n m i s,
    for_range body (n + m) i s =
    match for_range body n i s with
    | Ok (Continue s') => for_range body m (i + Z.of_nat n) s'
    | other => other
    end.
Proof.
  induction n as [|n IH]; intros m i s.
  - simpl. rewrite Z.add_0_r. reflexivity.
  - change (Datatypes.S n + m)%nat with (Datatypes.S (n + m)).
    cbn [for_range]. destruct (body i s) as [[s'|r]|e]; try reflexivity.
    rewrite IH.
    replace (i + 1 + Z.of_nat n)%Z
      with (i + Z.of_nat (Datatypes.S n))%Z by lia.
    reflexivity.
Qed.

(** An empty range runs no pass. *)
Lemma for_range_nonpositive (body : Z -> S -> result (outcome S R))
  (max_iter : Z) (s : S) :
  (max_iter <= 0)%Z ->
  for_range body (Z.to_nat max_iter) 1 s = Ok (Continue s).
Proof.
  intros H. replace (Z.to_nat max_iter) with O by lia. reflexivity.
Qed.

(** A pass that does not fall through, reached after [k] passes that did,
    decides the outcome of the loop. *)
Lemma for_range_stops (body : Z -> S -> result (outcome S R))
  (max_iter : Z) (k : nat) (s0 s : S) (o : result (outcome S R)) :
  (Z.of_nat k < max_iter)%Z ->
  for_range body k 1 s0 = Ok (Continue s) ->
  body (1 + Z.of_nat k)%Z s = o ->
  (forall s', o <> Ok (Continue s')) ->
  for_range body (Z.to_nat max_iter) 1 s0 = o.
Proof.
  intros Hk Hloop Hbody Hstop.
  replace (Z.to_nat max_iter)
    with (k + Datatypes.S (Z.to_nat max_iter - k - 1))%nat by lia.
  rewrite for_range_add, Hloop. cbn [for_range]. rewrite Hbody.
  destruct o as [[s'|r]|e]; try reflexivity.
  exfalso. exact (Hstop s' eq_refl).
Qed.
End ForRangeFacts.

(** ** Rows *)

Section RowFacts.
Context {num : Type} {A : Arith num}.

Lemma numbered_app (rows1 rows2 : list (row num)) : forall i,
  numbered i (rows1 ++ rows2) <->
  numbered i rows1 /\ numbered (i + Z.of_nat (List.length rows1)) rows2.
Proof.
  induction rows1 as [|r rows1 IH]; intros i; simpl.
  - rewrite Z.add_0_r. tauto.
  - rewrite IH.
    replace (i + 1 + Z.of_nat (List.length rows1))%Z
      with (i + Z.pos (Pos.of_succ_nat (List.length rows1)))%Z by lia.
    tauto.
Qed.

Lemma numbered_nth (rows : list (row num)) : forall i k r,
  numbered i rows -> nth_error rows k = Some r ->
  row_index r = (i + Z.of_nat k)%Z.
Proof.
  induction rows as [|r0 rows IH]; intros i k r Hn Hk.
  - destruct k; discriminate.
  - destruct Hn as [H0 Hn]. destruct k as [|k]; simpl in Hk.
    + inversion Hk; subst. lia.
    + rewrite (IH _ _ _ Hn Hk). lia.
Qed.

End RowFacts.

(** ** Loops that record one row per pass *)

Section Trace.
Context {num : Type} {A : Arith num}.
Variable S : Type.
Variable rows_of : S -> list (row num).
Variable rest : Z -> S -> result (solve_result num).
Variable body : Z -> S -> result (outcome S (solve_result num)).
Variable crit : row num -> bool.
Variable P : row num -> Prop.
Variable Inv : Z -> S -> Prop.

Hypothesis discipline : row_discipline rows_of rest body crit P Inv.


Lemma loop_continue : forall n i s s',
  Inv i s -> for_range body n i s = Ok (Continue s') ->
  Inv (i + Z.of_nat n) s' /\
  exists new,
    rows_of s' = rows_of s ++ new /\ List.length new = n /\
    numbered i new /\ Forall (fun r => crit r = false) new /\ Forall P new /\
    (n <> O ->
     exists earlier x fx e,
       new = earlier ++ [(i + Z.of_nat n - 1, x, fx, e)]%Z /\
       forall m, rest m s' = Ok (x, e, m, rows_of s')).
Proof.
  destruct discipline as [body_continue _].
  induction n as [|n IH]; intros i s s' HI H.
  - simpl in H. inversion H; subst s'. rewrite Z.add_0_r. split; [exact HI|].
    exists []. rewrite app_nil_r. repeat split; auto. congruence.
  - cbn [for_range] in H.
    destruct (body i s) as [[s1|r]|e] eqn:Hb; try discriminate.
    destruct (body_continue _ _ _ HI Hb)
      as (HI1 & x & fx & e & Hrows & Hc & HP & Hrest).
    destruct (IH _ _ _ HI1 H)
      as (HI' & new & Hnew & Hlen & Hnum & Hcr & HPs & Hlast).
    split.
    { replace (i + Z.of_nat (Datatypes.S n))%Z
        with (i + 1 + Z.of_nat n)%Z by lia.
      exact HI'. }
    exists ((i, x, fx, e) :: new).
    split; [rewrite Hnew, Hrows, <- app_assoc; reflexivity|].
    split; [simpl; congruence|].
    split; [simpl; auto|].
    split; [constructor; auto|].
    split; [constructor; auto|].
    intros _. destruct n as [|n].
    + simpl in H. inversion H; subst s'.
      destruct new; [|discriminate].
      exists [], x, fx, e. split; [|exact Hrest].
      replace (i + Z.of_nat 1 - 1)%Z with i by lia. reflexivity.
    + destruct Hlast as (earlier & x' & fx' & e' & Hn' & Hrest'); [congruence|].
      exists ((i, x, fx, e) :: earlier), x', fx', e'. split; [|exact Hrest'].
      rewrite Hn'.
      replace (i + Z.of_nat (Datatypes.S (Datatypes.S n)) - 1)%Z
        with (i + 1 + Z.of_nat (Datatypes.S n) - 1)%Z by lia.
      reflexivity.
Qed.

Lemma loop_return : forall n i s x e k rows,
  Inv i s -> for_range body n i s = Ok (Return (x, e, k, rows)) ->
  exists earlier fx,
    rows = rows_of s ++ earlier ++ [(k, x, fx, e)] /\
    (List.length earlier < n)%nat /\
    k = (i + Z.of_nat (List.length earlier))%Z /\
    numbered i earlier /\
    Forall (fun r => crit r = false) earlier /\
    crit (k, x, fx, e) = true /\
    Forall P (earlier ++ [(k, x, fx, e)]).
Proof.
  destruct discipline as [body_continue body_return].
  induction n as [|n IH]; intros i s x e k rows HI H.
  - discriminate.
  - cbn [for_range] in H.
    destruct (body i s) as [[s1|r]|e0] eqn:Hb; try discriminate.
    + destruct (body_continue _ _ _ HI Hb)
        as (HI1 & x1 & fx1 & e1 & Hrows & Hc & HP & _).
      destruct (IH _ _ _ _ _ _ HI1 H)
        as (earlier & fx & Hr & Hlen & Hk & Hnum & Hcr & Hlast & HPs).
      exists ((i, x1, fx1, e1) :: earlier), fx.
      split; [rewrite Hr, Hrows, <- app_assoc; reflexivity|].
      split; [simpl; lia|].
      split; [simpl List.length; lia|].
      split; [simpl; auto|].
      split; [constructor; auto|].
      split; [exact Hlast|].
      simpl. constructor; auto.
    + inversion H; subst r.
      destruct (body_return _ _ _ _ _ _ HI Hb) as (Hk & fx & Hrows & Hc & HP).
      subst k. exists [], fx. simpl.
      repeat split; auto; lia.
Qed.

(** The loop over [range(1, max_iter+1)] followed by the statements after
    it, when it returns a result. *)
Lemma run_first_stop (max_iter : Z) (s0 : S) (res : solve_result num) :
  Inv 1 s0 -> rows_of s0 = [] -> (1 <= max_iter)%Z ->
  (o <- for_range body (Z.to_nat max_iter) 1 s0 ;;
   after_loop (rest max_iter) o) = Ok res ->
  first_stop crit max_iter res /\
  numbered 1 (snd res) /\ Forall P (snd res).
Proof.
  intros HI H0 Hm H.
  apply bind_Ok_inv in H. destruct H as (o & Hloop & Hafter).
  destruct o as [s|r]; simpl in Hafter.
  - destruct (loop_continue _ HI Hloop)
      as (_ & new & Hnew & Hlen & Hnum & Hcr & HPs & Hlast).
    destruct Hlast as (earlier & x & fx & e & Hn & Hrest); [lia|].
    rewrite Hrest in Hafter. inversion Hafter; subst res. clear Hafter.
    rewrite H0 in Hnew. simpl in Hnew. rewrite Hnew. simpl.
    replace (1 + Z.of_nat (Z.to_nat max_iter) - 1)%Z with max_iter in Hn by lia.
    split; [|split; assumption].
    split; [lia|].
    exists earlier, fx. split; [exact Hn|].
    assert (Hl : List.length new = Datatypes.S (List.length earlier)).
    { rewrite Hn, length_app. simpl. lia. }
    split; [lia|].
    split; [|right; reflexivity].
    rewrite Hn in Hcr. apply Forall_app in Hcr. tauto.
  - inversion Hafter; subst r. clear Hafter.
    destruct res as [[[x e] k] rows].
    destruct (loop_return _ HI Hloop)
      as (earlier & fx & Hr & Hlen & Hk & Hnum & Hcr & Hlast & HPs).
    rewrite H0 in Hr. simpl in Hr. simpl.
    split; [|split].
    + split; [lia|].
      exists earlier, fx. repeat split; auto; lia.
    + rewrite Hr. apply numbered_app. split; [exact Hnum|].
      split; [exact Hk|exact I].
    + rewrite Hr. exact HPs.
Qed.

(** The same, when the loop runs through its whole range. *)
Lemma run_cap_exhausted (max_iter : Z) (s0 s : S) :
  Inv 1 s0 -> rows_of s0 = [] -> (1 <= max_iter)%Z ->
  for_range body (Z.to_nat max_iter) 1 s0 = Ok (Continue s) ->
  exists res,
    (o <- for_range body (Z.to_nat max_iter) 1 s0 ;;
     after_loop (rest max_iter) o) = Ok res /\
    cap_exhausted crit max_iter res.
Proof.
  intros HI H0 Hm Hloop.
  destruct (loop_continue _ HI Hloop)
    as (_ & new & Hnew & Hlen & Hnum & Hcr & HPs & Hlast).
  destruct Hlast as (earlier & x & fx & e & Hn & Hrest); [lia|].
  rewrite Hloop. simpl. rewrite Hrest. eexists. split; [reflexivity|].
  rewrite H0 in Hnew. simpl in Hnew. rewrite Hnew. simpl.
  replace (1 + Z.of_nat (Z.to_nat max_iter) - 1)%Z with max_iter in Hn by lia.
  repeat split; auto; [lia|]. exists earlier, fx. exact Hn.
Qed.
End Trace.

(** ** One pass of each loop *)

Ltac step_body H :=
  repeat match type of H with
  | bind ?m _ = _ =>
      let E := fresh "E" in destruct m eqn:E; simpl in H; [|discriminate]
  | (if ?b then _ else _) = _ =>
      let E := fresh "E" in destruct b eqn:E; try discriminate
  end.

(** Among the calls of [f] that returned, the one that gave the row. *)
Ltac pick_row f :=
  match goal with
  | E : call f ?c = Ok ?y |- _ =>
      exists c, y; eexists; repeat split; eauto; apply call_Ok; exact E
  end.

Section Passes.
Context {num : Type} {A : Arith num}.

(** A pass of [bisection] that falls through: what it recorded, that the
    test failed, and which half of the bracket it kept. *)
Lemma bisection_body_continue (f : func num) (tol : num) (i : Z)
  (s s' : bisection_locals) :
  bisection_body f tol i s = Ok (Continue s') ->
  let c := div (add (bis_a s) (bis_b s)) two in
  let err := div (abs (sub (bis_b s) (bis_a s))) two in
  exists fc,
    f c = inr fc /\
    ltb (abs fc) tol || ltb err tol = false /\
    bis_rows s' = bis_rows s ++ [(i, c, Some fc, err)] /\
    bis_c s' = Some c /\ bis_err s' = Some err /\
    ((bis_a s' = bis_a s /\ bis_b s' = c /\
      bis_fa s' = bis_fa s /\ bis_fb s' = fc) \/
     (bis_a s' = c /\ bis_b s' = bis_b s /\
      bis_fa s' = fc /\ bis_fb s' = bis_fb s)).
Proof.
  intros H c err. unfold bisection_body in H. fold c err in H.
  step_body H; inversion H; subst s'; simpl;
    exists a; apply call_Ok in E; repeat split; auto.
Qed.

Lemma bisection_body_return (f : func num) (tol : num) (i : Z)
  (s : bisection_locals) (res : solve_result num) :
  bisection_body f tol i s = Ok (Return res) ->
  let c := div (add (bis_a s) (bis_b s)) two in
  let err := div (abs (sub (bis_b s) (bis_a s))) two in
  exists fc,
    f c = inr fc /\
    ltb (abs fc) tol || ltb err tol = true /\
    res = (c, err, i, bis_rows s ++ [(i, c, Some fc, err)]).
Proof.
  intros H c err. unfold bisection_body in H. fold c err in H.
  step_body H; inversion H; subst res.
  exists a; apply call_Ok in E; repeat split; auto.
Qed.

Lemma regula_falsi_body_continue (inf : num) (f : func num) (tol : num)
  (i : Z) (s s' : regula_locals) :
  regula_falsi_body inf f tol i s = Ok (Continue s') ->
  exists c fc err,
    f c = inr fc /\
    ltb (abs fc) tol || ltb err tol = false /\
    reg_rows s' = reg_rows s ++ [(i, c, Some fc, err)] /\
    reg_c s' = c /\ reg_err s' = Some err.
Proof.
  intros H. unfold regula_falsi_body in H.
  step_body H; inversion H; subst s'; simpl;
    pick_row f.
Qed.

Lemma regula_falsi_body_return (inf : num) (f : func num) (tol : num)
  (i : Z) (s : regula_locals) (res : solve_result num) :
  regula_falsi_body inf f tol i s = Ok (Return res) ->
  exists c fc err,
    f c = inr fc /\
    ltb (abs fc) tol || ltb err tol = true /\
    res = (c, err, i, reg_rows s ++ [(i, c, Some fc, err)]).
Proof.
  intros H. unfold regula_falsi_body in H.
  step_body H; inversion H; subst res;
    pick_row f.
Qed.
Lemma secant_body_continue (f : func num) (tol : num) (i : Z)
  (s s' : secant_locals) :
  secant_body f tol i s = Ok (Continue s') ->
  exists x2 fx2 err,
    f x2 = inr fx2 /\
    ltb (abs fx2) tol || ltb err tol = false /\
    sec_rows s' = sec_rows s ++ [(i, x2, Some fx2, err)] /\
    sec_x2 s' = Some x2 /\ sec_err s' = Some err.
Proof.
  intros H. unfold secant_body in H.
  step_body H; inversion H; subst s'; simpl;
    pick_row f.
Qed.

Lemma secant_body_return (f : func num) (tol : num) (i : Z)
  (s : secant_locals) (res : solve_result num) :
  secant_body f tol i s = Ok (Return res) ->
  exists x2 fx2 err,
    f x2 = inr fx2 /\
    ltb (abs fx2) tol || ltb err tol = true /\
    res = (x2, err, i, sec_rows s ++ [(i, x2, Some fx2, err)]).
Proof.
  intros H. unfold secant_body in H.
  step_body H; inversion H; subst res;
    pick_row f.
Qed.

Lemma newton_raphson_body_continue (h : num) (f : func num) (tol : num)
  (i : Z) (s s' : iterate_locals) :
  newton_raphson_body h f tol i s = Ok (Continue s') ->
  exists x_new fx_new err,
    f x_new = inr fx_new /\
    ltb (abs fx_new) tol || ltb err tol = false /\
    it_rows s' = it_rows s ++ [(i, x_new, Some fx_new, err)] /\
    it_x s' = x_new /\ it_err s' = Some err.
Proof.
  intros H. unfold newton_raphson_body in H.
  step_body H; inversion H; subst s'; simpl;
    pick_row f.
Qed.

Lemma newton_raphson_body_return (h : num) (f : func num) (tol : num)
  (i : Z) (s : iterate_locals) (res : solve_result num) :
  newton_raphson_body h f tol i s = Ok (Return res) ->
  exists x_new fx_new err,
    f x_new = inr fx_new /\
    ltb (abs fx_new) tol || ltb err tol = true /\
    res = (x_new, err, i, it_rows s ++ [(i, x_new, Some fx_new, err)]).
Proof.
  intros H. unfold newton_raphson_body in H.
  step_body H; inversion H; subst res;
    pick_row f.
Qed.

Lemma fixed_point_iteration_body_continue (g : func num) (tol : num)
  (i : Z) (s s' : iterate_locals) :
  fixed_point_iteration_body g tol i s = Ok (Continue s') ->
  exists x_new,
    g (it_x s) = inr x_new /\
    ltb (abs (sub x_new (it_x s))) tol = false /\
    it_rows s' =
      it_rows s ++ [(i, x_new, None, abs (sub x_new (it_x s)))] /\
    it_x s' = x_new /\ it_err s' = Some (abs (sub x_new (it_x s))).
Proof.
  intros H. unfold fixed_point_iteration_body in H.
  step_body H; inversion H; subst s'; simpl.
  apply call_Ok in E. exists a. repeat split; auto.
Qed.

Lemma fixed_point_iteration_body_return (g : func num) (tol : num)
  (i : Z) (s : iterate_locals) (res : solve_result num) :
  fixed_point_iteration_body g tol i s = Ok (Return res) ->
  exists x_new,
    g (it_x s) = inr x_new /\
    ltb (abs (sub x_new (it_x s))) tol = true /\
    res = (x_new, abs (sub x_new (it_x s)), i,
           it_rows s ++ [(i, x_new, None, abs (sub x_new (it_x s)))]).
Proof.
  intros H. unfold fixed_point_iteration_body in H.
  step_body H; inversion H; subst res.
  apply call_Ok in E. exists a. repeat split; auto.
Qed.

Lemma modified_secant_body_continue (h : num) (f : func num)
  (delta tol : num) (i : Z) (s s' : iterate_locals) :
  modified_secant_body h f delta tol i s = Ok (Continue s') ->
  exists x_new fx_new err,
    f x_new = inr fx_new /\
    ltb (abs fx_new) tol || ltb err tol = false /\
    it_rows s' = it_rows s ++ [(i, x_new, Some fx_new, err)] /\
    it_x s' = x_new /\ it_err s' = Some err.
Proof.
  intros H. unfold modified_secant_body in H.
  step_body H; inversion H; subst s'; simpl;
    pick_row f.
Qed.

Lemma modified_secant_body_return (h : num) (f : func num)
  (delta tol : num) (i : Z) (s : iterate_locals) (res : solve_result num) :
  modified_secant_body h f delta tol i s = Ok (Return res) ->
  exists x_new fx_new err,
    f x_new = inr fx_new /\
    ltb (abs fx_new) tol || ltb err tol = true /\
    res = (x_new, err, i, it_rows s ++ [(i, x_new, Some fx_new, err)]).
Proof.
  intros H. unfold modified_secant_body in H.
  step_body H; inversion H; subst res;
    pick_row f.
Qed.
End Passes.

(** ** The six loops keep the row discipline *)

Section Disciplines.
Context {num : Type} {A : Arith num}.

Lemma bisection_discipline (f : func num) (tol : num) :
  row_discipline bis_rows bisection_return (bisection_body f tol)
    (residual_or_error tol) (records_value f) (@no_invariant _).
Proof.
  split.
  - intros i s s' _ H. split; [exact I|].
    destruct (bisection_body_continue _ _ _ _ H)
      as (fc & Hf & Hc & Hrows & Hc' & He & _).
    do 3 eexists. split; [exact Hrows|].
    split; [exact Hc|]. split; [exists fc; auto|].
    intros m. unfold bisection_return. rewrite Hc', He. reflexivity.
  - intros i s x e n rows _ H.
    destruct (bisection_body_return _ _ _ _ H) as (fc & Hf & Hc & Hres).
    inversion Hres; subst. split; [reflexivity|].
    eexists. split; [reflexivity|]. split; [exact Hc|]. exists fc; auto.
Qed.

Lemma regula_falsi_discipline (inf : num) (f : func num) (tol : num) :
  row_discipline reg_rows regula_falsi_return (regula_falsi_body inf f tol)
    (residual_or_error tol) (records_value f) (@no_invariant _).
Proof.
  split.
  - intros i s s' _ H. split; [exact I|].
    destruct (regula_falsi_body_continue _ _ _ _ _ H)
      as (c & fc & err & Hf & Hc & Hrows & Hc' & He).
    exists c, (Some fc), err. split; [exact Hrows|].
    split; [exact Hc|]. split; [exists fc; auto|].
    intros m. unfold regula_falsi_return. rewrite Hc', He. reflexivity.
  - intros i s x e n rows _ H.
    destruct (regula_falsi_body_return _ _ _ _ _ H)
      as (c & fc & err & Hf & Hc & Hres).
    inversion Hres; subst. split; [reflexivity|].
    eexists. split; [reflexivity|]. split; [exact Hc|]. exists fc; auto.
Qed.

Lemma secant_discipline (f : func num) (tol : num) :
  row_discipline sec_rows secant_return (secant_body f tol)
    (residual_or_error tol) (records_value f) (@no_invariant _).
Proof.
  split.
  - intros i s s' _ H. split; [exact I|].
    destruct (secant_body_continue _ _ _ _ H)
      as (c & fc & err & Hf & Hc & Hrows & Hc' & He).
    exists c, (Some fc), err. split; [exact Hrows|].
    split; [exact Hc|]. split; [exists fc; auto|].
    intros m. unfold secant_return. rewrite Hc', He. reflexivity.
  - intros i s x e n rows _ H.
    destruct (secant_body_return _ _ _ _ H)
      as (c & fc & err & Hf & Hc & Hres).
    inversion Hres; subst. split; [reflexivity|].
    eexists. split; [reflexivity|]. split; [exact Hc|]. exists fc; auto.
Qed.

Lemma newton_raphson_discipline (h : num) (f : func num) (tol : num) :
  row_discipline it_rows iterate_return (newton_raphson_body h f tol)
    (residual_or_error tol) (records_value f) (@no_invariant _).
Proof.
  split.
  - intros i s s' _ H. split; [exact I|].
    destruct (newton_raphson_body_continue _ _ _ _ _ H)
      as (c & fc & err & Hf & Hc & Hrows & Hc' & He).
    exists c, (Some fc), err. split; [exact Hrows|].
    split; [exact Hc|]. split; [exists fc; auto|].
    intros m. unfold iterate_return. rewrite Hc', He. reflexivity.
  - intros i s x e n rows _ H.
    destruct (newton_raphson_body_return _ _ _ _ _ H)
      as (c & fc & err & Hf & Hc & Hres).
    inversion Hres; subst. split; [reflexivity|].
    eexists. split; [reflexivity|]. split; [exact Hc|]. exists fc; auto.
Qed.

Lemma fixed_point_iteration_discipline (g : func num) (tol : num) :
  row_discipline it_rows iterate_return (fixed_point_iteration_body g tol)
    (error_only tol) records_no_value (@no_invariant _).
Proof.
  split.
  - intros i s s' _ H. split; [exact I|].
    destruct (fixed_point_iteration_body_continue _ _ _ _ H)
      as (c & Hf & Hc & Hrows & Hc' & He).
    do 3 eexists. split; [exact Hrows|].
    split; [exact Hc|]. split; [reflexivity|].
    intros m. unfold iterate_return. rewrite Hc', He. reflexivity.
  - intros i s x e n rows _ H.
    destruct (fixed_point_iteration_body_return _ _ _ _ H)
      as (c & Hf & Hc & Hres).
    inversion Hres; subst. split; [reflexivity|].
    eexists. split; [reflexivity|]. split; [exact Hc|]. reflexivity.
Qed.

Lemma modified_secant_discipline (h : num) (f : func num)
  (delta tol : num) :
  row_discipline it_rows iterate_return (modified_secant_body h f delta tol)
    (residual_or_error tol) (records_value f) (@no_invariant _).
Proof.
  split.
  - intros i s s' _ H. split; [exact I|].
    destruct (modified_secant_body_continue _ _ _ _ _ _ H)
      as (c & fc & err & Hf & Hc & Hrows & Hc' & He).
    exists c, (Some fc), err. split; [exact Hrows|].
    split; [exact Hc|]. split; [exists fc; auto|].
    intros m. unfold iterate_return. rewrite Hc', He. reflexivity.
  - intros i s x e n rows _ H.
    destruct (modified_secant_body_return _ _ _ _ _ _ H)
      as (c & fc & err & Hf & Hc & Hres).
    inversion Hres; subst. split; [reflexivity|].
    eexists. split; [reflexivity|]. split; [exact Hc|]. exists fc; auto.
Qed.
End Disciplines.

(** ** The method functions as wholes *)

Section Methods.
Context {num : Type} {A : Arith num}.

(** [bisection] once both endpoint values are known. *)
Lemma bisection_unfold (f : func num) (a b tol : num) (max_iter : Z)
  (fa fb : num) :
  f a = inr fa -> f b = inr fb ->
  bisection f a b tol max_iter =
  if ltb zero (mul fa fb) then Raise invalid_bracket
  else (o <- bisection_loop f a b fa fb tol max_iter ;;
        after_loop (bisection_return max_iter) o).
Proof.
  intros Ha Hb. unfold bisection, call. rewrite Ha, Hb. reflexivity.
Qed.

Lemma regula_falsi_unfold (inf : num) (f : func num) (a b tol : num)
  (max_iter : Z) (fa fb : num) :
  f a = inr fa -> f b = inr fb ->
  regula_falsi inf f a b tol max_iter =
  if ltb zero (mul fa fb) then Raise invalid_bracket
  else (o <- regula_falsi_loop inf f a b fa fb tol max_iter ;;
        after_loop (regula_falsi_return max_iter) o).
Proof.
  intros Ha Hb. unfold regula_falsi, call. rewrite Ha, Hb. reflexivity.
Qed.

(** A call of [bisection] that returns has evaluated both endpoints and
    passed the sign test. *)
Lemma bisection_Ok_inv (f : func num) (a b tol : num) (max_iter : Z)
  (res : solve_result num) :
  bisection f a b tol max_iter = Ok res ->
  exists fa fb,
    f a = inr fa /\ f b = inr fb /\ ltb zero (mul fa fb) = false /\
    (o <- bisection_loop f a b fa fb tol max_iter ;;
     after_loop (bisection_return max_iter) o) = Ok res.
Proof.
  intros H. unfold bisection in H.
  apply bind_Ok_inv in H. destruct H as (fa & Ha & H).
  apply bind_Ok_inv in H. destruct H as (fb & Hb & H).
  apply call_Ok in Ha. apply call_Ok in Hb.
  destruct (ltb zero (mul fa fb)) eqn:E; [discriminate|].
  exists fa, fb. auto.
Qed.

Lemma regula_falsi_Ok_inv (inf : num) (f : func num) (a b tol : num)
  (max_iter : Z) (res : solve_result num) :
  regula_falsi inf f a b tol max_iter = Ok res ->
  exists fa fb,
    f a = inr fa /\ f b = inr fb /\ ltb zero (mul fa fb) = false /\
    (o <- regula_falsi_loop inf f a b fa fb tol max_iter ;;
     after_loop (regula_falsi_return max_iter) o) = Ok res.
Proof.
  intros H. unfold regula_falsi in H.
  apply bind_Ok_inv in H. destruct H as (fa & Ha & H).
  apply bind_Ok_inv in H. destruct H as (fb & Hb & H).
  apply call_Ok in Ha. apply call_Ok in Hb.
  destruct (ltb zero (mul fa fb)) eqn:E; [discriminate|].
  exists fa, fb. auto.
Qed.





Lemma fixed_point_iteration_trace (g : func num) (x0 tol : num)
  (max_iter : Z) (res : solve_result num) :
  (1 <= max_iter)%Z -> fixed_point_iteration g x0 tol max_iter = Ok res ->
  well_traced (error_only tol) records_no_value max_iter res.
Proof.
  intros Hm H.
  eapply run_first_stop;
    [apply fixed_point_iteration_discipline | | | exact Hm | exact H];
    [exact I | reflexivity].
Qed.







End Methods.

(** ** An empty range: the statements after the loop read unassigned locals *)

Section EmptyRange.
Context {num : Type} {A : Arith num}.
Variable max_iter : Z.
Hypothesis nonpositive : (max_iter <= 0)%Z.

Lemma bisection_empty_range (f : func num) (a b tol fa fb : num) :
  f a = inr fa -> f b = inr fb -> ltb zero (mul fa fb) = false ->
  bisection f a b tol max_iter = Raise (UnboundLocalError "c").
Proof.
  intros Ha Hb Hs.
  rewrite (@bisection_unfold _ _ f a b tol max_iter fa fb Ha Hb), Hs.
  unfold bisection_loop. rewrite for_range_nonpositive by exact nonpositive.
  reflexivity.
Qed.

Lemma regula_falsi_empty_range (inf : num) (f : func num)
  (a b tol fa fb : num) :
  f a = inr fa -> f b = inr fb -> ltb zero (mul fa fb) = false ->
  regula_falsi inf f a b tol max_iter = Raise (UnboundLocalError "err").
Proof.
  intros Ha Hb Hs.
  rewrite (@regula_falsi_unfold _ _ inf f a b tol max_iter fa fb Ha Hb), Hs.
  unfold regula_falsi_loop. rewrite for_range_nonpositive by exact nonpositive.
  reflexivity.
Qed.

Lemma secant_empty_range (f : func num) (x0 x1 tol : num) :
  secant f x0 x1 tol max_iter = Raise (UnboundLocalError "x2").
Proof.
  unfold secant, secant_loop.
  rewrite for_range_nonpositive by exact nonpositive. reflexivity.
Qed.

Lemma newton_raphson_empty_range (h : num) (f : func num) (x0 tol : num) :
  newton_raphson h f x0 tol max_iter = Raise (UnboundLocalError "err").
Proof.
  unfold newton_raphson, newton_raphson_loop.
  rewrite for_range_nonpositive by exact nonpositive. reflexivity.
Qed.

Lemma fixed_point_iteration_empty_range (g : func num) (x0 tol : num) :
  fixed_point_iteration g x0 tol max_iter = Raise (UnboundLocalError "err").
Proof.
  unfold fixed_point_iteration, fixed_point_iteration_loop.
  rewrite for_range_nonpositive by exact nonpositive. reflexivity.
Qed.

Lemma modified_secant_empty_range (h : num) (f : func num)
  (x0 delta tol : num) :
  modified_secant h f x0 delta tol max_iter =
  Raise (UnboundLocalError "err").
Proof.
  unfold modified_secant, modified_secant_loop.
  rewrite for_range_nonpositive by exact nonpositive. reflexivity.
Qed.

Lemma bisection_empty_range_no_result (f : func num) (a b tol : num)
  (res : solve_result num) :
  bisection f a b tol max_iter <> Ok res.
Proof.
  intros H. destruct (@bisection_Ok_inv _ _ f a b tol max_iter res H)
    as (fa & fb & Ha & Hb & Hs & _).
  rewrite (@bisection_empty_range f a b tol fa fb Ha Hb Hs) in H. discriminate.
Qed.

Lemma regula_falsi_empty_range_no_result (inf : num) (f : func num)
  (a b tol : num) (res : solve_result num) :
  regula_falsi inf f a b tol max_iter <> Ok res.
Proof.
  intros H. destruct (@regula_falsi_Ok_inv _ _ inf f a b tol max_iter res H)
    as (fa & fb & Ha & Hb & Hs & _).
  rewrite (@regula_falsi_empty_range inf f a b tol fa fb Ha Hb Hs) in H.
  discriminate.
Qed.
End EmptyRange.

(** ** Rows of a well-traced result *)

Section Counting.
Context {num : Type} {A : Arith num}.

End Counting.

(** ** A loop that runs through its whole range *)

Section CapExhausted.
Context {num : Type} {A : Arith num}.
Variable max_iter : Z.
Hypothesis positive : (1 <= max_iter)%Z.

Lemma bisection_cap (f : func num) (a b tol fa fb : num)
  (s : bisection_locals) :
  f a = inr fa -> f b = inr fb -> ltb zero (mul fa fb) = false ->
  bisection_loop f a b fa fb tol max_iter = Ok (Continue s) ->
  exists res,
    bisection f a b tol max_iter = Ok res /\
    cap_exhausted (residual_or_error tol) max_iter res.
Proof.
  intros Ha Hb Hs H.
  rewrite (@bisection_unfold _ _ f a b tol max_iter fa fb Ha Hb), Hs.
  eapply run_cap_exhausted;
    [apply bisection_discipline | | | exact positive | exact H];
    [exact I | reflexivity].
Qed.

Lemma regula_falsi_cap (inf : num) (f : func num) (a b tol fa fb : num)
  (s : regula_locals) :
  f a = inr fa -> f b = inr fb -> ltb zero (mul fa fb) = false ->
  regula_falsi_loop inf f a b fa fb tol max_iter = Ok (Continue s) ->
  exists res,
    regula_falsi inf f a b tol max_iter = Ok res /\
    cap_exhausted (residual_or_error tol) max_iter res.
Proof.
  intros Ha Hb Hs H.
  rewrite (@regula_falsi_unfold _ _ inf f a b tol max_iter fa fb Ha Hb), Hs.
  eapply run_cap_exhausted;
    [apply regula_falsi_discipline | | | exact positive | exact H];
    [exact I | reflexivity].
Qed.

Lemma secant_cap (f : func num) (x0 x1 tol : num) (s : secant_locals) :
  secant_loop f x0 x1 tol max_iter = Ok (Continue s) ->
  exists res,
    secant f x0 x1 tol max_iter = Ok res /\
    cap_exhausted (residual_or_error tol) max_iter res.
Proof.
  intros H.
  eapply run_cap_exhausted;
    [apply secant_discipline | | | exact positive | exact H];
    [exact I | reflexivity].
Qed.

Lemma newton_raphson_cap (h : num) (f : func num) (x0 tol : num)
  (s : iterate_locals) :
  newton_raphson_loop h f x0 tol max_iter = Ok (Continue s) ->
  exists res,
    newton_raphson h f x0 tol max_iter = Ok res /\
    cap_exhausted (residual_or_error tol) max_iter res.
Proof.
  intros H.
  eapply run_cap_exhausted;
    [apply newton_raphson_discipline | | | exact positive | exact H];
    [exact I | reflexivity].
Qed.

Lemma fixed_point_iteration_cap (g : func num) (x0 tol : num)
  (s : iterate_locals) :
  fixed_point_iteration_loop g x0 tol max_iter = Ok (Continue s) ->
  exists res,
    fixed_point_iteration g x0 tol max_iter = Ok res /\
    cap_exhausted (error_only tol) max_iter res.
Proof.
  intros H.
  eapply run_cap_exhausted;
    [apply fixed_point_iteration_discipline | | | exact positive | exact H];
    [exact I | reflexivity].
Qed.

Lemma modified_secant_cap (h : num) (f : func num) (x0 delta tol : num)
  (s : iterate_locals) :
  modified_secant_loop h f x0 delta tol max_iter = Ok (Continue s) ->
  exists res,
    modified_secant h f x0 delta tol max_iter = Ok res /\
    cap_exhausted (residual_or_error tol) max_iter res.
Proof.
  intros H.
  eapply run_cap_exhausted;
    [apply modified_secant_discipline | | | exact positive | exact H];
    [exact I | reflexivity].
Qed.
End CapExhausted.

(** ** What the bracketing loops can raise *)

Section Raises.
Context {num : Type} {A : Arith num}.

Lemma for_range_raise (S R : Type) (body : Z -> S -> result (outcome S R))
  (e : exn) : forall n i s,
  for_range body n i s = Raise e -> exists i' s', body i' s' = Raise e.
Proof.
  induction n as [|n IH]; intros i s H; [discriminate|].
  cbn [for_range] in H. destruct (body i s) as [[s1|r]|e0] eqn:Hb.
  - eauto.
  - discriminate.
  - inversion H; subst. eauto.
Qed.

Lemma call_raise (f : func num) (x : num) (e : exn) :
  call f x = Raise e -> exists what, e = RaisedByFunction what.
Proof.
  unfold call. destruct (f x); intros H; inversion H. eauto.
Qed.

Lemma bisection_body_raise (f : func num) (tol : num) (i : Z)
  (s : bisection_locals) (e : exn) :
  bisection_body f tol i s = Raise e -> exists what, e = RaisedByFunction what.
Proof.
  unfold bisection_body. intros H.
  destruct (call f (div (add (bis_a s) (bis_b s)) two)) eqn:E; simpl in H.
  - repeat match type of H with
           | (if ?b then _ else _) = _ => destruct b
           end; discriminate.
  - inversion H; subst. exact (call_raise _ _ E).
Qed.

Lemma regula_falsi_body_raise (inf : num) (f : func num) (tol : num) (i : Z)
  (s : regula_locals) (e : exn) :
  regula_falsi_body inf f tol i s = Raise e ->
  e = ZeroDivisionError "float division by zero" \/
  exists what, e = RaisedByFunction what.
Proof.
  unfold regula_falsi_body, truediv. intros H.
  destruct (eqb (sub (reg_fb s) (reg_fa s)) zero); simpl in H.
  - inversion H. auto.
  - match type of H with bind ?m _ = _ => destruct m eqn:E end; simpl in H.
    + repeat match type of H with
             | (if ?b then _ else _) = _ => destruct b
             end; discriminate.
    + inversion H; subst. right. exact (call_raise _ _ E).
Qed.

(** Past the sign test, neither bracketing method raises the
    invalid-bracket error. *)
Lemma bisection_loop_not_invalid_bracket (f : func num)
  (a b fa fb tol : num) (max_iter : Z) :
  (o <- bisection_loop f a b fa fb tol max_iter ;;
   after_loop (bisection_return max_iter) o) <> Raise invalid_bracket.
Proof.
  intros H. unfold bisection_loop in H.
  destruct (for_range _ _ _ _) as [[s|r]|e] eqn:E; simpl in H.
  - unfold bisection_return in H.
    destruct (bis_c s); simpl in H; [|discriminate].
    destruct (bis_err s); simpl in H; discriminate.
  - discriminate.
  - inversion H; subst. apply for_range_raise in E.
    destruct E as (i' & s' & E). apply bisection_body_raise in E.
    destruct E as (what & E). discriminate.
Qed.

Lemma regula_falsi_loop_not_invalid_bracket (inf : num) (f : func num)
  (a b fa fb tol : num) (max_iter : Z) :
  (o <- regula_falsi_loop inf f a b fa fb tol max_iter ;;
   after_loop (regula_falsi_return max_iter) o) <> Raise invalid_bracket.
Proof.
  intros H. unfold regula_falsi_loop in H.
  destruct (for_range _ _ _ _) as [[s|r]|e] eqn:E; simpl in H.
  - unfold regula_falsi_return in H.
    destruct (reg_err s); simpl in H; discriminate.
  - discriminate.
  - inversion H; subst. apply for_range_raise in E.
    destruct E as (i' & s' & E). apply regula_falsi_body_raise in E.
    destruct E as [E|(what & E)]; discriminate.
Qed.
End Raises.

(** ** The methods see the supplied function only through its values *)

Ltac ext_body H :=
  repeat first
    [ rewrite (call_ext _ _ H)
    | match goal with
      | |- bind ?m _ = bind ?m _ => destruct m; simpl; [|reflexivity]
      | |- (if ?b then _ else _) = (if ?b then _ else _) => destruct b
      end ];
  try reflexivity.

Section Extensionality.
Context {num : Type} {A : Arith num}.
Variables f f' : func num.
Hypothesis same_values : forall x, f x = f' x.

Lemma numerical_derivative_ext (x h : num) :
  numerical_derivative f x h = numerical_derivative f' x h.
Proof.
  unfold numerical_derivative. ext_body same_values.
Qed.

Lemma bisection_ext (a b tol : num) (max_iter : Z) :
  bisection f a b tol max_iter = bisection f' a b tol max_iter.
Proof.
  unfold bisection, bisection_loop. ext_body same_values.
  rewrite (@for_range_ext _ _ (bisection_body f tol) (bisection_body f' tol));
    [reflexivity|].
  intros i s. unfold bisection_body. ext_body same_values.
Qed.

Lemma regula_falsi_ext (inf a b tol : num) (max_iter : Z) :
  regula_falsi inf f a b tol max_iter = regula_falsi inf f' a b tol max_iter.
Proof.
  unfold regula_falsi, regula_falsi_loop. ext_body same_values.
  rewrite (@for_range_ext _ _ (regula_falsi_body inf f tol)
             (regula_falsi_body inf f' tol)); [reflexivity|].
  intros i s. unfold regula_falsi_body. ext_body same_values.
Qed.

Lemma secant_ext (x0 x1 tol : num) (max_iter : Z) :
  secant f x0 x1 tol max_iter = secant f' x0 x1 tol max_iter.
Proof.
  unfold secant, secant_loop.
  rewrite (@for_range_ext _ _ (secant_body f tol) (secant_body f' tol));
    [reflexivity|].
  intros i s. unfold secant_body. ext_body same_values.
Qed.

Lemma newton_raphson_ext (h x0 tol : num) (max_iter : Z) :
  newton_raphson h f x0 tol max_iter = newton_raphson h f' x0 tol max_iter.
Proof.
  unfold newton_raphson, newton_raphson_loop.
  rewrite (@for_range_ext _ _ (newton_raphson_body h f tol)
             (newton_raphson_body h f' tol)); [reflexivity|].
  intros i s. unfold newton_raphson_body.
  rewrite numerical_derivative_ext. ext_body same_values.
Qed.

Lemma fixed_point_iteration_ext (x0 tol : num) (max_iter : Z) :
  fixed_point_iteration f x0 tol max_iter =
  fixed_point_iteration f' x0 tol max_iter.
Proof.
  unfold fixed_point_iteration, fixed_point_iteration_loop.
  rewrite (@for_range_ext _ _ (fixed_point_iteration_body f tol)
             (fixed_point_iteration_body f' tol)); [reflexivity|].
  intros i s. unfold fixed_point_iteration_body. ext_body same_values.
Qed.

Lemma modified_secant_ext (h x0 delta tol : num) (max_iter : Z) :
  modified_secant h f x0 delta tol max_iter =
  modified_secant h f' x0 delta tol max_iter.
Proof.
  unfold modified_secant, modified_secant_loop.
  rewrite (@for_range_ext _ _ (modified_secant_body h f delta tol)
             (modified_secant_body h f' delta tol)); [reflexivity|].
  intros i s. unfold modified_secant_body.
  rewrite numerical_derivative_ext. ext_body same_values.
Qed.
End Extensionality.

(** ** Binary64 comparisons *)

Lemma Prim2SF_zero : Prim2SF 0 = S754_zero false.
Proof. reflexivity. Qed.

(** A number that compares equal to zero is not above zero. *)
Lemma float_eqb_zero_not_positive (p : float) :
  PrimFloat.eqb p 0 = true -> PrimFloat.ltb 0 p = false.
Proof.
  rewrite FloatAxioms.eqb_spec, FloatAxioms.ltb_spec, Prim2SF_zero.
  destruct (Prim2SF p) as [s|s| |s m e]; simpl; try discriminate; auto.
  - destruct s; discriminate.
  - destruct s; discriminate.
Qed.

(** A finite number minus itself compares equal to zero. *)
Lemma float_sub_diag (y : float) :
  is_finite y = true -> PrimFloat.eqb (y - y) 0 = true.
Proof.
  unfold is_finite. intros H.
  rewrite FloatAxioms.eqb_spec, FloatAxioms.sub_spec, Prim2SF_zero.
  unfold SF64sub.
  destruct (Prim2SF y) as [s|s| |s m e]; try discriminate.
  - destruct s; reflexivity.
  - unfold SFsub. cbv zeta. rewrite Z.sub_diag. reflexivity.
Qed.

(** The difference of two equal infinities, or of two NaNs, is a NaN, and a
    NaN does not compare equal to zero. *)
Lemma float_sub_diag_not_finite (y : float) :
  is_finite y = false -> PrimFloat.eqb (y - y) 0 = false.
Proof.
  unfold is_finite. intros H.
  rewrite FloatAxioms.eqb_spec, FloatAxioms.sub_spec, Prim2SF_zero.
  unfold SF64sub.
  destruct (Prim2SF y) as [s|s| |s m e]; try discriminate.
  - destruct s; reflexivity.
  - reflexivity.
Qed.

(** ** A pass of [secant] *)

Section SecantPass.
Context {num : Type} {A : Arith num}.
Variables (f : func num) (tol : num).

Lemma secant_body_zero_denominator (i : Z) (s : secant_locals)
  (f0 f1 : num) :
  f (sec_x0 s) = inr f0 -> f (sec_x1 s) = inr f1 ->
  eqb (sub f1 f0) zero = true ->
  secant_body f tol i s = Raise zero_denominator.
Proof.
  intros H0 H1 Hz. unfold secant_body, call. rewrite H0, H1. simpl.
  rewrite Hz. reflexivity.
Qed.

Lemma secant_body_step (i : Z) (s : secant_locals) (f0 f1 fx2 : num) :
  f (sec_x0 s) = inr f0 -> f (sec_x1 s) = inr f1 ->
  eqb (sub f1 f0) zero = false ->
  let x2 := sub (sec_x1 s)
              (div (mul f1 (sub (sec_x1 s) (sec_x0 s))) (sub f1 f0)) in
  let err := abs (sub x2 (sec_x1 s)) in
  let rows := sec_rows s ++ [(i, x2, Some fx2, err)] in
  f x2 = inr fx2 ->
  secant_body f tol i s =
  Ok (if ltb (abs fx2) tol || ltb err tol
      then Return (x2, err, i, rows)
      else Continue (SecantLocals (sec_x1 s) x2 (Some x2) (Some err) rows)).
Proof.
  intros H0 H1 Hz x2 err rows H2.
  unfold secant_body, call, truediv. rewrite H0, H1. simpl.
  rewrite Hz. simpl. fold x2. rewrite H2. simpl. fold err. fold rows.
  destruct (ltb (abs fx2) tol || ltb err tol); reflexivity.
Qed.

(** An exception raised by pass [k+1], reached after [k] passes that fell
    through, is raised by the call. *)
Lemma secant_raises_at_pass (x0 x1 : num) (max_iter : Z) (k : nat)
  (s : secant_locals) (e : exn) :
  (Z.of_nat k < max_iter)%Z ->
  for_range (secant_body f tol) k 1 (secant_init x0 x1) = Ok (Continue s) ->
  secant_body f tol (1 + Z.of_nat k) s = Raise e ->
  secant f x0 x1 tol max_iter = Raise e.
Proof.
  intros Hk Hloop Hbody. unfold secant, secant_loop.
  replace (Z.to_nat max_iter)
    with (k + Datatypes.S (Z.to_nat max_iter - k - 1))%nat by lia.
  rewrite for_range_add, Hloop. cbn [for_range]. rewrite Hbody. reflexivity.
Qed.
End SecantPass.

(** ** Bisection on exact rationals: the bracket halves *)

Section ExactBisection.
Open Scope Q_scope.

Lemma half_width_left (a b : Q) : Qabs ((a + b) / 2 - a) == Qabs (b - a) / 2.
Proof.
  setoid_replace ((a + b) / 2 - a) with ((b - a) * (1 # 2)) by field.
  rewrite Qabs_Qmult. change (Qabs (1 # 2)) with (1 # 2). field.
Qed.

Lemma half_width_right (a b : Q) : Qabs (b - (a + b) / 2) == Qabs (b - a) / 2.
Proof.
  setoid_replace (b - (a + b) / 2) with ((b - a) * (1 # 2)) by field.
  rewrite Qabs_Qmult. change (Qabs (1 # 2)) with (1 # 2). field.
Qed.

Lemma two_power_nonzero (i : Z) : ~ 2 ^ i == 0.
Proof. apply Qpower_not_0. discriminate. Qed.

Lemma halve_power (W : Q) (i : Z) :
  W / 2 ^ (i - 1) / 2 == W / 2 ^ i.
Proof.
  replace i with ((i - 1) + 1)%Z at 2 by lia.
  rewrite Qpower_plus by discriminate.
  change (2 ^ 1) with 2. field. apply two_power_nonzero.
Qed.

Lemma bisection_exact_discipline (f : func Q) (tol W : Q) :
  row_discipline bis_rows bisection_return (bisection_body f tol)
    (residual_or_error tol) (halved W) (bracket_width W).
Proof.
  split.
  - intros i s s' (Hi & Hw) H.
    destruct (bisection_body_continue _ _ _ _ H)
      as (fc & Hf & Hc & Hrows & Hc' & He & Hn).
    split.
    { split; [lia|]. replace (i + 1 - 1)%Z with i by lia.
      rewrite <- halve_power, <- Hw.
      destruct Hn as [(Ha' & Hb' & _)|(Ha' & Hb' & _)]; rewrite Ha', Hb'.
      - apply half_width_left.
      - apply half_width_right. }
    do 3 eexists. split; [exact Hrows|].
    split; [exact Hc|]. split.
    { unfold halved. simpl. rewrite <- halve_power, <- Hw. reflexivity. }
    intros m. unfold bisection_return. rewrite Hc', He. reflexivity.
  - intros i s x e n rows (Hi & Hw) H.
    destruct (bisection_body_return _ _ _ _ H) as (fc & Hf & Hc & Hres).
    inversion Hres; subst. split; [reflexivity|].
    eexists. split; [reflexivity|]. split; [exact Hc|].
    unfold halved. simpl. rewrite <- halve_power, <- Hw. reflexivity.
Qed.

Lemma bisection_exact_trace (f : func Q) (a b tol : Q) (max_iter : Z)
  (res : solve_result Q) :
  bisection f a b tol max_iter = Ok res ->
  (1 <= max_iter)%Z /\
  well_traced (residual_or_error tol) (halved (Qabs (b - a))) max_iter res.
Proof.
  intros H.
  assert (Hm : (1 <= max_iter)%Z).
  { destruct (Z_le_gt_dec max_iter 0) as [Hm|Hm]; [|lia].
    exfalso. exact (bisection_empty_range_no_result Hm _ _ _ _ H). }
  split; [exact Hm|].
  apply bisection_Ok_inv in H. destruct H as (fa & fb & _ & _ & _ & H).
  eapply run_first_stop;
    [apply bisection_exact_discipline | | | exact Hm | exact H];
    [|reflexivity].
  split; [lia|]. simpl. change (2 ^ (1 - 1)) with 1. field.
Qed.

Lemma exact_not_ltb (x y : Q) : ltb x y = false -> y <= x.
Proof.
  simpl. intros H. apply Qle_bool_iff.
  destruct (Qle_bool y x); [reflexivity|discriminate].
Qed.
End ExactBisection.

(** ** What a call does at its cap *)

Section AtTheCap.
Context {num : Type} {A : Arith num}.

Lemma first_stop_without_test (crit : row num -> bool) (max_iter : Z)
  (res : solve_result num) :
  first_stop crit max_iter res ->
  Forall (fun r => crit r = false) (snd res) ->
  cap_exhausted crit max_iter res.
Proof.
  destruct res as [[[x e] n] rows].
  intros (Hn & earlier & fx & Hr & Hlen & Hcr & Hlast) Hall.
  cbn [snd] in Hall.
  assert (Hc : crit (n, x, fx, e) = false).
  { rewrite Hr in Hall. apply Forall_app in Hall. destruct Hall as (_ & Hl).
    inversion Hl; assumption. }
  destruct Hlast as [Ht|Hn']; [congruence|]. subst n.
  split; [reflexivity|]. split.
  { rewrite Hr, length_app. simpl List.length. lia. }
  split; [exact Hall|]. exists earlier, fx. exact Hr.
Qed.

Lemma run_returns_at_cap (S : Type) (rows_of : S -> list (row num))
  (rest : Z -> S -> result (solve_result num))
  (body : Z -> S -> result (outcome S (solve_result num)))
  (crit : row num -> bool) (P : row num -> Prop)
  (max_iter : Z) (s0 : S) :
  row_discipline rows_of rest body crit P (@no_invariant S) ->
  rows_of s0 = [] -> (1 <= max_iter)%Z ->
  returns_at_cap body crit s0 max_iter
    (o <- for_range body (Z.to_nat max_iter) 1 s0 ;;
     after_loop (rest max_iter) o).
Proof.
  intros D H0 Hm. split; [|split].
  - intros s H.
    eapply run_cap_exhausted; [exact D | exact I | exact H0 | exact Hm
                              | exact H].
  - intros res H Hall. apply first_stop_without_test; [|exact Hall].
    eapply proj1. eapply run_first_stop;
      [exact D | exact I | exact H0 | exact Hm | exact H].
  - intros k s e Hk Hloop Hbody.
    rewrite (@for_range_stops _ _ body max_iter k s0 s (Raise e)
               Hk Hloop Hbody); [reflexivity|].
    intros s' H; discriminate H.
Qed.

Lemma bisection_at_cap (f : func num) (a b tol fa fb : num)
  (max_iter : Z) :
  (1 <= max_iter)%Z ->
  f a = inr fa -> f b = inr fb -> ltb zero (mul fa fb) = false ->
  returns_at_cap (bisection_body f tol) (residual_or_error tol)
    (bisection_init a b fa fb) max_iter (bisection f a b tol max_iter).
Proof.
  intros Hm Ha Hb Hs.
  rewrite (@bisection_unfold _ _ f a b tol max_iter fa fb Ha Hb), Hs.
  eapply run_returns_at_cap;
    [apply bisection_discipline | reflexivity | exact Hm].
Qed.

Lemma regula_falsi_at_cap (inf : num) (f : func num) (a b tol fa fb : num)
  (max_iter : Z) :
  (1 <= max_iter)%Z ->
  f a = inr fa -> f b = inr fb -> ltb zero (mul fa fb) = false ->
  returns_at_cap (regula_falsi_body inf f tol) (residual_or_error tol)
    (regula_falsi_init a b fa fb) max_iter
    (regula_falsi inf f a b tol max_iter).
Proof.
  intros Hm Ha Hb Hs.
  rewrite (@regula_falsi_unfold _ _ inf f a b tol max_iter fa fb Ha Hb), Hs.
  eapply run_returns_at_cap;
    [apply regula_falsi_discipline | reflexivity | exact Hm].
Qed.
End AtTheCap.

(** ** The prompt on one line *)

Section PromptLine.
Variable py_float : string -> option float.



End PromptLine.

(** * The claims *)

Section Claims.
Context {num : Type} {A : Arith num}.


(** C2, amended: for a call with [max_iter >= 1], when every one of the
    [max_iter] passes completes without meeting the convergence test the
    method returns normally, with [(x, err, max_iter, rows)]: [max_iter]
    rows, none meeting the test, the last of which carries [x] and [err];
    a returned result none of whose rows meets the test is such a result;
    and a pass that raises, reached after passes that fell through, ends
    the call with its exception.  (For the two bracketing methods the loop
    starts once the endpoint values are computed and the sign test is
    passed.) *)
Theorem cap_exhaustion_returns_last_pass
  (f g : func num) (inf h a b x0 x1 delta tol : num) (max_iter : Z) :
  (1 <= max_iter)%Z ->
  (forall fa fb,
     f a = inr fa -> f b = inr fb -> ltb zero (mul fa fb) = false ->
     returns_at_cap (bisection_body f tol) (residual_or_error tol)
       (bisection_init a b fa fb) max_iter
       (bisection f a b tol max_iter) /\
     returns_at_cap (regula_falsi_body inf f tol) (residual_or_error tol)
       (regula_falsi_init a b fa fb) max_iter
       (regula_falsi inf f a b tol max_iter)) /\
  returns_at_cap (secant_body f tol) (residual_or_error tol)
    (secant_init x0 x1) max_iter (secant f x0 x1 tol max_iter) /\
  returns_at_cap (newton_raphson_body h f tol) (residual_or_error tol)
    (iterate_init x0) max_iter (newton_raphson h f x0 tol max_iter) /\
  returns_at_cap (modified_secant_body h f delta tol)
    (residual_or_error tol)
    (iterate_init x0) max_iter (modified_secant h f x0 delta tol max_iter) /\
  returns_at_cap (fixed_point_iteration_body g tol) (error_only tol)
    (iterate_init x0) max_iter (fixed_point_iteration g x0 tol max_iter).
Proof.
  intros Hm. split; [|split; [|split; [|split]]].
  - intros fa fb Ha Hb Hs. split.
    + apply bisection_at_cap; assumption.
    + apply regula_falsi_at_cap; assumption.
  - eapply run_returns_at_cap;
      [apply secant_discipline | reflexivity | exact Hm].
  - eapply run_returns_at_cap;
      [apply newton_raphson_discipline | reflexivity | exact Hm].
  - eapply run_returns_at_cap;
      [apply modified_secant_discipline | reflexivity | exact Hm].
  - eapply run_returns_at_cap;
      [apply fixed_point_iteration_discipline | reflexivity | exact Hm].
Qed.


(** C9: with [max_iter <= 0] no method returns a result.  No pass runs, and
    the [return] after the loop reads a local that was never assigned: [c]
    in bisection and [err] in regula falsi (once the endpoint values are
    computed and the sign test is passed), [x2] in secant, and [err] in
    Newton-Raphson, fixed-point iteration and modified secant. *)
Theorem nonpositive_cap_gives_no_result
  (f g : func num) (inf h a b x0 x1 delta tol : num) (max_iter : Z) :
  (max_iter <= 0)%Z ->
  (forall res, bisection f a b tol max_iter <> Ok res) /\
  (forall res, regula_falsi inf f a b tol max_iter <> Ok res) /\
  (forall fa fb,
     f a = inr fa -> f b = inr fb -> ltb zero (mul fa fb) = false ->
     bisection f a b tol max_iter = Raise (UnboundLocalError "c") /\
     regula_falsi inf f a b tol max_iter = Raise (UnboundLocalError "err")) /\
  secant f x0 x1 tol max_iter = Raise (UnboundLocalError "x2") /\
  newton_raphson h f x0 tol max_iter = Raise (UnboundLocalError "err") /\
  fixed_point_iteration g x0 tol max_iter = Raise (UnboundLocalError "err") /\
  modified_secant h f x0 delta tol max_iter =
    Raise (UnboundLocalError "err").
Proof.
  intros Hm.
  split; [intros res; apply (bisection_empty_range_no_result Hm)|].
  split; [intros res; apply (regula_falsi_empty_range_no_result Hm)|].
  split.
  { intros fa fb Ha Hb Hs. split.
    - exact (@bisection_empty_range _ _ _ Hm f a b tol fa fb Ha Hb Hs).
    - exact (@regula_falsi_empty_range _ _ _ Hm inf f a b tol fa fb Ha Hb Hs). }
  split; [apply (secant_empty_range Hm)|].
  split; [apply (newton_raphson_empty_range Hm)|].
  split; [apply (fixed_point_iteration_empty_range Hm)|].
  apply (modified_secant_empty_range Hm).
Qed.

End Claims.

(** ** Claims about the program on binary64 numbers *)

(** C3: once [f(a)] and [f(b)] are computed, bisection and regula falsi
    raise the invalid-bracket error exactly when [f(a)*f(b) > 0]; when the
    product compares equal to zero the bracket is accepted and the call is
    the loop followed by the final [return]. *)
Theorem invalid_bracket_iff_positive_product
  (f : func float) (a b tol : float) (max_iter : Z) (fa fb : float) :
  f a = inr fa -> f b = inr fb ->
  (bisection f a b tol max_iter = Raise invalid_bracket <->
   PrimFloat.ltb 0 (fa * fb) = true) /\
  (regula_falsi float_inf f a b tol max_iter = Raise invalid_bracket <->
   PrimFloat.ltb 0 (fa * fb) = true) /\
  (PrimFloat.eqb (fa * fb) 0 = true ->
   bisection f a b tol max_iter =
     (o <- bisection_loop f a b fa fb tol max_iter ;;
      after_loop (bisection_return max_iter) o) /\
   regula_falsi float_inf f a b tol max_iter =
     (o <- regula_falsi_loop float_inf f a b fa fb tol max_iter ;;
      after_loop (regula_falsi_return max_iter) o)).
Proof.
  intros Ha Hb.
  rewrite (@bisection_unfold _ _ f a b tol max_iter fa fb Ha Hb).
  rewrite (@regula_falsi_unfold _ _ float_inf f a b tol max_iter fa fb Ha Hb).
  change (@ltb float float_arith zero (mul fa fb))
    with (PrimFloat.ltb 0 (fa * fb)).
  split; [|split].
  - destruct (PrimFloat.ltb 0 (fa * fb)); split; intros H;
      try reflexivity; try discriminate.
    exfalso. exact (bisection_loop_not_invalid_bracket _ _ _ _ _ _ _ H).
  - destruct (PrimFloat.ltb 0 (fa * fb)); split; intros H;
      try reflexivity; try discriminate.
    exfalso. exact (regula_falsi_loop_not_invalid_bracket _ _ _ _ _ _ _ _ H).
  - intros Hz. rewrite (float_eqb_zero_not_positive Hz). split; reflexivity.
Qed.





(** ** The general claims on sample runs *)


(** C2, as stated, fails: secant on [x*x-2] from the seeds -1.5 and 1
    completes its first pass with the iterate -1, which meets neither
    criterion, and raises its zero-denominator error in the second, where
    [f(-1) = f(1)].  No iteration met a convergence criterion, and the call
    did not return. *)
Lemma no_convergence_and_no_return :
  for_range (secant_body f_square lit_1e_6) 1 1
    (secant_init (-1.5)%float 1%float) =
    Ok (Continue (SecantLocals 1 (-1) (Some (-1)) (Some 2)
                    [(1%Z, -1, Some (-1), 2)]))%float /\
  residual_or_error lit_1e_6 (1%Z, -1, Some (-1), 2)%float = false /\
  secant f_square (-1.5)%float 1%float lit_1e_6 100 =
    Raise zero_denominator.
Proof.
  split; [vm_compute; reflexivity|]. split; vm_compute; reflexivity.
Qed.

(** The amended C2 on a run: fixed-point iteration of [2*x] from 1 never
    meets the tolerance and returns after the 5 passes it is allowed. *)
Lemma cap_exhaustion_returns_last_pass_witness :
  (1 <= 5)%Z /\
  exists res,
    fixed_point_iteration g_double 1%float lit_1e_6 5 = Ok res /\
    cap_exhausted (error_only lit_1e_6) 5 res.
Proof.
  assert (Hm : (1 <= 5)%Z) by (intros H; discriminate H).
  split; [exact Hm|].
  eapply (proj1 (proj2 (proj2 (proj2 (proj2
           (@cap_exhaustion_returns_last_pass float float_arith
              f_linear g_double float_inf lit_1e_6
              0%float 1%float 1%float 1%float lit_1e_3 lit_1e_6
              5%Z Hm)))))).
  vm_compute. reflexivity.
Defined.

(** C3 on a run: [x-1] vanishes at the endpoint 1 of [1, 2]; the product of
    the endpoint values is zero and the bracket is accepted. *)
Lemma invalid_bracket_iff_positive_product_witness :
  f_minus_one 1%float = inr 0%float /\ f_minus_one 2%float = inr 1%float /\
  PrimFloat.eqb (0 * 1) 0 = true /\
  bisection f_minus_one 1%float 2%float lit_1e_6 100 =
    (o <- bisection_loop f_minus_one 1%float 2%float 0%float 1%float
            lit_1e_6 100 ;;
     after_loop (bisection_return 100) o).
Proof.
  split; [reflexivity|]. split; [reflexivity|]. split; [reflexivity|].
  apply (proj2 (proj2
    (@invalid_bracket_iff_positive_product f_minus_one 1%float 2%float
       lit_1e_6 100%Z 0%float 1%float eq_refl eq_refl)) eq_refl).
Defined.


(** C9 on a run: with a cap of 0 every method stops on an unassigned
    local. *)
Lemma nonpositive_cap_gives_no_result_witness :
  (0 <= 0)%Z /\
  bisection f_square 0%float 2%float lit_1e_6 0 =
    Raise (UnboundLocalError "c") /\
  secant f_square 0%float 2%float lit_1e_6 0 =
    Raise (UnboundLocalError "x2") /\
  fixed_point_iteration g_double 1%float lit_1e_6 0 =
    Raise (UnboundLocalError "err").
Proof.
  assert (Hm : (0 <= 0)%Z) by (intros H; discriminate H).
  pose proof (@nonpositive_cap_gives_no_result float float_arith
                f_square g_double float_inf lit_1e_6
                0%float 2%float 0%float 2%float lit_1e_3 lit_1e_6 0%Z Hm)
    as (_ & _ & Hb & Hs & _ & Hf & _).
  split; [exact Hm|]. split; [|split; [exact Hs|exact Hf]].
  exact (proj1 (Hb (-2)%float 2%float eq_refl eq_refl eq_refl)).
Defined.


(** C7, as stated, fails: [secant] called with [x0 = x1 = 1e200] on
    [x*x-2] raises nothing.  Both function values are infinite, their
    difference is a NaN, a NaN does not compare equal to zero, and the run
    goes on to the cap with NaN iterates. *)
Lemma secant_equal_seeds_without_error :
  f_square lit_1e200 = inr infinity /\
  secant f_square lit_1e200 lit_1e200 lit_1e_6 2 =
    Ok (nan, nan, 2%Z,
        [(1%Z, nan, Some nan, nan); (2%Z, nan, Some nan, nan)]) /\
  secant f_square lit_1e200 lit_1e200 lit_1e_6 2 <> Raise zero_denominator.
Proof.
  split; [vm_compute; reflexivity|].
  split; [vm_compute; reflexivity|].
  vm_compute. discriminate.
Qed.

(** C7, amended: on any pass of [secant], with [f0 = f(x0)] and
    [f1 = f(x1)] computed, the zero-denominator error is raised when
    [f1 - f0] compares equal to zero (an exact comparison) and is raised by
    the call when that pass is reached; otherwise the pass computes
    [x2 = x1 - f1*(x1-x0)/(f1-f0)] and the error [abs(x2-x1)], records the
    row and tests it.  A call with [x0 = x1], [max_iter >= 1] and a finite
    [f(x0)] raises the zero-denominator error on the first pass. *)
Theorem secant_zero_denominator_is_exact
  (f : func float) (tol : float) (max_iter : Z) :
  (1 <= max_iter)%Z ->
  (forall x0 x1 k s f0 f1,
     (Z.of_nat k < max_iter)%Z ->
     for_range (secant_body f tol) k 1 (secant_init x0 x1)
       = Ok (Continue s) ->
     f (sec_x0 s) = inr f0 -> f (sec_x1 s) = inr f1 ->
     (PrimFloat.eqb (f1 - f0) 0 = true ->
      secant f x0 x1 tol max_iter = Raise zero_denominator) /\
     (PrimFloat.eqb (f1 - f0) 0 = false ->
      forall fx2,
        let x2 :=
          (sec_x1 s - f1 * (sec_x1 s - sec_x0 s) / (f1 - f0))%float in
        let err := PrimFloat.abs (x2 - sec_x1 s) in
        let rows := sec_rows s ++ [(1 + Z.of_nat k, x2, Some fx2, err)%Z] in
        f x2 = inr fx2 ->
        secant_body f tol (1 + Z.of_nat k) s =
        Ok (if PrimFloat.ltb (PrimFloat.abs fx2) tol || PrimFloat.ltb err tol
            then Return (x2, err, (1 + Z.of_nat k)%Z, rows)
            else Continue
                   (SecantLocals (sec_x1 s) x2 (Some x2) (Some err) rows))))
  /\
  (forall x y,
     f x = inr y -> is_finite y = true ->
     secant f x x tol max_iter = Raise zero_denominator).
Proof.
  intros Hm. split.
  - intros x0 x1 k s f0 f1 Hk Hloop H0 H1. split.
    + intros Hz.
      apply (@secant_raises_at_pass _ _ f tol x0 x1 max_iter k s _ Hk Hloop).
      exact (@secant_body_zero_denominator _ _ f tol _ s f0 f1 H0 H1 Hz).
    + intros Hz fx2 x2 err rows H2.
      exact (@secant_body_step _ _ f tol _ s f0 f1 fx2 H0 H1 Hz H2).
  - intros x y Hy Hfin.
    apply (@secant_raises_at_pass _ _ f tol x x max_iter O
             (secant_init x x) _); [lia | reflexivity |].
    exact (@secant_body_zero_denominator _ _ f tol _ (secant_init x x)
             y y Hy Hy (float_sub_diag _ Hfin)).
Qed.

(** The amended C7 on a run: [secant] on [x*x-2] with both seeds equal to 1
    raises the zero-denominator error. *)
Lemma secant_zero_denominator_is_exact_witness :
  (1 <= 100)%Z /\
  f_square 1%float = inr (-1)%float /\ is_finite (-1)%float = true /\
  secant f_square 1%float 1%float lit_1e_6 100 = Raise zero_denominator.
Proof.
  assert (Hm : (1 <= 100)%Z) by (intros H; discriminate H).
  split; [exact Hm|]. split; [reflexivity|]. split; [reflexivity|].
  exact (proj2
    (@secant_zero_denominator_is_exact f_square lit_1e_6 100%Z Hm)
    1%float (-1)%float eq_refl eq_refl).
Defined.

(** C5, as stated, fails: bisection of [10*x-3] over [0, 1] with tolerance
    [0.25] returns after 3 iterations, while
    [max(1, ceil(log2(abs(b-a)/tol)))] is [max(1, ceil(log2(4)))], which is
    2.  The third pass is needed because the test [err < tol] is strict. *)
Lemma bisection_exceeds_claimed_bound :
  f_linear 0%float = inr (-3)%float /\ f_linear 1%float = inr 7%float /\
  PrimFloat.leb (-3 * 7) 0 = true /\ PrimFloat.ltb 0 0.25 = true /\
  bisection f_linear 0%float 1%float 0.25%float 100 =
    Ok (0.375, 0.125, 3%Z,
        [(1%Z, 0.5, Some 2, 0.5); (2%Z, 0.25, Some (-0.5), 0.25);
         (3%Z, 0.375, Some 0.75, 0.125)])%float /\
  (exact 0 == 0 /\ exact 1 == 1 /\ exact 0.25 == 1 # 4)%Q /\
  claimed_bisection_bound (Qabs (exact 1 - exact 0)) (exact 0.25) 2 /\
  ~ (3 <= 2)%Z.
Proof.
  split; [reflexivity|]. split; [reflexivity|].
  split; [reflexivity|]. split; [reflexivity|].
  split; [vm_compute; reflexivity|].
  split; [repeat split; vm_compute; reflexivity|].
  split; [|lia].
  left. exists 2%Z. split; [vm_compute; reflexivity|].
  split; [vm_compute; intros H; discriminate H|reflexivity].
Qed.

(** C6, as stated, fails on binary64 numbers: bisection of [x*x-2] over
    [1, 1.7] records the errors 0.34999999999999998 and
    0.17499999999999993; the second is neither half the first nor a quarter
    of the initial width, because the midpoint and the new width are
    rounded. *)
Lemma bisection_error_not_halved_in_binary64 :
  f_square 1%float = inr (-1)%float /\
  f_square 1.7%float = inr 0.88999999999999968%float /\
  bisection f_square 1%float 1.7%float 0.1%float 100 =
    Ok (1.4375, 0.087499999999999911, 3%Z,
        [(1%Z, 1.3500000000000001, Some (-0.17749999999999977),
          0.34999999999999998);
         (2%Z, 1.5249999999999999, Some 0.32562499999999961,
          0.17499999999999993);
         (3%Z, 1.4375, Some 0.06640625, 0.087499999999999911)])%float /\
  PrimFloat.eqb (0.34999999999999998 / 2) 0.17499999999999993 = false /\
  PrimFloat.eqb (PrimFloat.abs (1.7 - 1) / 4) 0.17499999999999993 = false.
Proof.
  repeat split; vm_compute; reflexivity.
Qed.

(** Rounding can even stall the bracket: on [1, 1 + 2**-52] the midpoint
    rounds to 1, the bracket stays the same, and every pass records the
    same error until the cap.  With tolerance [2**-60] the ratio
    [abs(b-a)/tol] is [2**8], and a run with cap 12 performs all 12
    passes. *)
Lemma bisection_bracket_stalls_in_binary64 :
  f_tiny 1%float = inr (-0x1p-53)%float /\
  f_tiny 0x1.0000000000001p+0%float = inr 0x1p-53%float /\
  (exact 0x1.0000000000001p+0 - exact 1 == exact 0x1p-60 * 2 ^ 8)%Q /\
  exists x rows,
    bisection f_tiny 1%float 0x1.0000000000001p+0%float 0x1p-60%float 12 =
      Ok (x, 0x1p-53%float, 12%Z, rows) /\
    Forall (fun r => row_err r = 0x1p-53%float) rows.
Proof.
  split; [vm_compute; reflexivity|]. split; [vm_compute; reflexivity|].
  split; [vm_compute; reflexivity|].
  do 2 eexists. split; [vm_compute; reflexivity|].
  repeat constructor.
Qed.

Section ExactClaims.
Open Scope Q_scope.

(** C6, amended: on every pass, bisection records as error [abs(b-a)/2] for
    the bracket [a, b] it has at the start of the pass, and then keeps
    [a, c] or [c, b] with [c = (a+b)/2]; in exact arithmetic the error
    recorded at iteration [i] is therefore the initial width divided by
    [2^i], and each recorded error is half the one before. *)
Theorem bisection_error_halves_in_exact_arithmetic
  (f : func Q) (a b tol : Q) (max_iter : Z)
  (x err : Q) (n : Z) (rows : list (row Q)) :
  bisection f a b tol max_iter = Ok (x, err, n, rows) ->
  (forall k r, nth_error rows k = Some r ->
     row_err r == Qabs (b - a) / 2 ^ (Z.of_nat k + 1)) /\
  (forall k r r',
     nth_error rows k = Some r -> nth_error rows (Datatypes.S k) = Some r' ->
     row_err r' == row_err r / 2) /\
  (forall (g : func float) (t : float) (i : Z) (s : bisection_locals) o,
     bisection_body g t i s = Ok o ->
     let c := ((bis_a s + bis_b s) / 2)%float in
     let e := (PrimFloat.abs (bis_b s - bis_a s) / 2)%float in
     exists fc,
       g c = inr fc /\
       (o = Return (c, e, i, bis_rows s ++ [(i, c, Some fc, e)]) \/
        exists s',
          o = Continue s' /\
          bis_rows s' = bis_rows s ++ [(i, c, Some fc, e)] /\
          ((bis_a s' = bis_a s /\ bis_b s' = c) \/
           (bis_a s' = c /\ bis_b s' = bis_b s)))).
Proof.
  intros H.
  destruct (@bisection_exact_trace f a b tol max_iter _ H)
    as (_ & _ & Hnum & HP).
  cbn [snd] in Hnum, HP.
  assert (Hrow : forall k r, nth_error rows k = Some r ->
            row_err r == Qabs (b - a) / 2 ^ (Z.of_nat k + 1)).
  { intros k r Hk.
    assert (Hin : In r rows) by (eapply nth_error_In; exact Hk).
    rewrite Forall_forall in HP. specialize (HP r Hin). unfold halved in HP.
    rewrite (@numbered_nth _ rows 1%Z k r Hnum Hk) in HP.
    replace (Z.of_nat k + 1)%Z with (1 + Z.of_nat k)%Z by lia. exact HP. }
  split; [exact Hrow|]. split.
  2:{ intros g t i s o Ho c e. destruct o as [s'|res].
      - destruct (bisection_body_continue _ _ _ _ Ho)
          as (fc & Hf & _ & Hrows & _ & _ & Hn).
        exists fc. split; [exact Hf|]. right. exists s'.
        split; [reflexivity|]. split; [exact Hrows|].
        destruct Hn as [(Ha' & Hb' & _)|(Ha' & Hb' & _)]; auto.
      - destruct (bisection_body_return _ _ _ _ Ho) as (fc & Hf & _ & Hres).
        exists fc. split; [exact Hf|]. left. rewrite Hres. reflexivity. }
  intros k r r' Hk Hk'.
  rewrite (Hrow _ _ Hk), (Hrow _ _ Hk').
  replace (Z.of_nat (Datatypes.S k) + 1)%Z with (Z.of_nat k + 1 + 1)%Z by lia.
  rewrite <- (halve_power _ (Z.of_nat k + 1 + 1)).
  replace (Z.of_nat k + 1 + 1 - 1)%Z with (Z.of_nat k + 1)%Z by lia.
  reflexivity.
Qed.

(** C5, amended: in exact arithmetic, for a tolerance above zero, a call of
    bisection that returns after [n] iterations has [n <= max_iter] and
    either [n <= 1] or [2^(n-1) <= abs(b-a)/tol], that is,
    [n <= floor(log2(abs(b-a)/tol)) + 1]. *)
Theorem bisection_exact_iteration_bound
  (f : func Q) (a b tol : Q) (max_iter : Z)
  (x err : Q) (n : Z) (rows : list (row Q)) :
  0 < tol ->
  bisection f a b tol max_iter = Ok (x, err, n, rows) ->
  (n <= max_iter)%Z /\
  ((n <= 1)%Z \/ 2 ^ (n - 1) <= Qabs (b - a) / tol).
Proof.
  intros Ht H.
  destruct (@bisection_exact_trace f a b tol max_iter _ H)
    as (_ & Hfs & Hnum & HP).
  destruct Hfs as (Hn & earlier & fx & Hr & Hlen & Hcr & _).
  cbn [snd] in Hnum, HP. split; [lia|].
  destruct (Z_le_gt_dec n 1) as [H1|H1]; [left; exact H1|right].
  destruct (nth_error earlier (Z.to_nat (n - 2))) as [r|] eqn:Hk.
  2:{ apply nth_error_None in Hk. lia. }
  assert (Hk' : nth_error rows (Z.to_nat (n - 2)) = Some r).
  { rewrite Hr, nth_error_app1; [exact Hk|]. apply nth_error_Some. congruence. }
  assert (Hin : In r earlier) by (eapply nth_error_In; exact Hk).
  rewrite Forall_forall in Hcr. specialize (Hcr r Hin).
  unfold residual_or_error in Hcr. apply orb_false_iff in Hcr.
  destruct Hcr as (_ & Hcr). apply exact_not_ltb in Hcr.
  assert (Hin' : In r rows) by (eapply nth_error_In; exact Hk').
  rewrite Forall_forall in HP. specialize (HP r Hin'). unfold halved in HP.
  rewrite (@numbered_nth _ rows 1%Z _ r Hnum Hk') in HP.
  replace (1 + Z.of_nat (Z.to_nat (n - 2)))%Z with (n - 1)%Z in HP by lia.
  rewrite HP in Hcr.
  apply Qle_shift_div_l; [exact Ht|].
  assert (Hp : 0 < 2 ^ (n - 1)) by (apply Qpower_0_lt; reflexivity).
  apply (Qmult_le_compat_r _ _ (2 ^ (n - 1))) in Hcr;
    [|apply Qlt_le_weak; exact Hp].
  rewrite Qmult_comm.
  setoid_replace (Qabs (b - a)) with (Qabs (b - a) / 2 ^ (n - 1) * 2 ^ (n - 1));
    [exact Hcr|].
  field. apply two_power_nonzero.
Qed.

(** The amended C6 on a run: exact bisection of [10*x-3] over [0, 1] with
    tolerance 1/4. *)
Lemma bisection_error_halves_witness :
  exists x err n rows,
    bisection q_linear 0 1 (1 # 4) 100 = Ok (x, err, n, rows) /\
    forall k r, nth_error rows k = Some r ->
      row_err r == Qabs (1 - 0) / 2 ^ (Z.of_nat k + 1).
Proof.
  let r := eval vm_compute in (bisection q_linear 0 1 (1 # 4) 100) in
  match r with
  | Ok (?x, ?e, ?n, ?rows) =>
      exists x, e, n, rows;
      assert (H : bisection q_linear 0 1 (1 # 4) 100 = Ok (x, e, n, rows))
        by (vm_compute; reflexivity)
  end.
  split; [exact H|].
  exact (proj1 (@bisection_error_halves_in_exact_arithmetic
                  q_linear 0 1 (1 # 4) 100%Z _ _ _ _ H)).
Defined.

(** The amended C5 on the same run: 3 iterations, and [2^2 <= 1/(1/4)]. *)
Lemma bisection_exact_iteration_bound_witness :
  0 < 1 # 4 /\
  exists x err n rows,
    bisection q_linear 0 1 (1 # 4) 100 = Ok (x, err, n, rows) /\
    n = 3%Z /\
    (n <= 100)%Z /\
    ((n <= 1)%Z \/ 2 ^ (n - 1) <= Qabs (1 - 0) / (1 # 4)).
Proof.
  assert (Ht : 0 < 1 # 4) by reflexivity.
  split; [exact Ht|].
  let r := eval vm_compute in (bisection q_linear 0 1 (1 # 4) 100) in
  match r with
  | Ok (?x, ?e, ?n, ?rows) =>
      exists x, e, n, rows;
      assert (H : bisection q_linear 0 1 (1 # 4) 100 = Ok (x, e, n, rows))
        by (vm_compute; reflexivity)
  end.
  split; [exact H|]. split; [reflexivity|].
  exact (@bisection_exact_iteration_bound
           q_linear 0 1 (1 # 4) 100%Z _ _ _ _ Ht H).
Defined.
End ExactClaims.

(** * Further properties of the code *)

(** ** What each loop can raise *)

Section MoreRaises.
Context {num : Type} {A : Arith num}.

Lemma truediv_raise (x y : num) (e : exn) :
  truediv x y = Raise e -> eqb y zero = true /\ e = native_zero_division.
Proof.
  unfold truediv. destruct (eqb y zero); intros H; inversion H. auto.
Qed.

Lemma truediv_guarded (x y : num) :
  eqb y zero = false -> truediv x y = Ok (div x y).
Proof.
  unfold truediv. intros H. rewrite H. reflexivity.
Qed.

Lemma numerical_derivative_raise (f : func num) (x h : num) (e : exn) :
  numerical_derivative f x h = Raise e ->
  (exists what, e = RaisedByFunction what) \/
  (eqb (mul two h) zero = true /\ e = native_zero_division).
Proof.
  unfold numerical_derivative. intros H.
  destruct (call f (add x h)) eqn:E1; simpl in H.
  2:{ inversion H; subst. left. eapply call_raise; exact E1. }
  destruct (call f (sub x h)) eqn:E2; simpl in H.
  2:{ inversion H; subst. left. eapply call_raise; exact E2. }
  right. eapply truediv_raise; exact H.
Qed.

Lemma secant_body_raise (f : func num) (tol : num) (i : Z)
  (s : secant_locals) (e : exn) :
  secant_body f tol i s = Raise e ->
  e = zero_denominator \/ exists what, e = RaisedByFunction what.
Proof.
  unfold secant_body. intros H.
  destruct (call f (sec_x0 s)) eqn:E0; simpl in H.
  2:{ inversion H; subst. right. eapply call_raise; exact E0. }
  destruct (call f (sec_x1 s)) eqn:E1; simpl in H.
  2:{ inversion H; subst. right. eapply call_raise; exact E1. }
  destruct (eqb (sub a0 a) zero) eqn:Ez.
  { inversion H. left. reflexivity. }
  rewrite truediv_guarded in H by exact Ez. simpl in H.
  match type of H with bind (call f ?x) _ = _ =>
    destruct (call f x) eqn:E2; simpl in H end.
  2:{ inversion H; subst. right. eapply call_raise; exact E2. }
  destruct (_ || _); discriminate.
Qed.

Lemma newton_raphson_body_raise (h : num) (f : func num) (tol : num) (i : Z)
  (s : iterate_locals) (e : exn) :
  newton_raphson_body h f tol i s = Raise e ->
  e = ZeroDivisionError "Zero derivative encountered." \/
  (exists what, e = RaisedByFunction what) \/
  (eqb (mul two h) zero = true /\ e = native_zero_division).
Proof.
  unfold newton_raphson_body. intros H.
  destruct (call f (it_x s)) eqn:E0; simpl in H.
  2:{ inversion H; subst. right. left. eapply call_raise; exact E0. }
  destruct (numerical_derivative f (it_x s) h) eqn:E1; simpl in H.
  2:{ inversion H; subst. right. eapply numerical_derivative_raise; exact E1. }
  destruct (eqb a0 zero) eqn:Ez.
  { inversion H. left. reflexivity. }
  rewrite truediv_guarded in H by exact Ez. simpl in H.
  match type of H with bind (call f ?x) _ = _ =>
    destruct (call f x) eqn:E2; simpl in H end.
  2:{ inversion H; subst. right. left. eapply call_raise; exact E2. }
  destruct (_ || _); discriminate.
Qed.

Lemma fixed_point_iteration_body_raise (g : func num) (tol : num) (i : Z)
  (s : iterate_locals) (e : exn) :
  fixed_point_iteration_body g tol i s = Raise e ->
  exists what, e = RaisedByFunction what.
Proof.
  unfold fixed_point_iteration_body. intros H.
  destruct (call g (it_x s)) eqn:E0; simpl in H.
  2:{ inversion H; subst. eapply call_raise; exact E0. }
  destruct (ltb _ _); discriminate.
Qed.

Lemma modified_secant_body_raise (h : num) (f : func num) (delta tol : num)
  (i : Z) (s : iterate_locals) (e : exn) :
  modified_secant_body h f delta tol i s = Raise e ->
  e = ZeroDivisionError "Zero derivative approximation." \/
  (exists what, e = RaisedByFunction what) \/
  e = native_zero_division.
Proof.
  unfold modified_secant_body. intros H.
  destruct (call f (it_x s)) eqn:E0; simpl in H.
  2:{ inversion H; subst. right. left. eapply call_raise; exact E0. }
  match type of H with bind ?m _ = _ => destruct m eqn:E1; simpl in H end.
  2:{ inversion H; subst. right.
      destruct (negb (eqb (it_x s) zero)).
      - destruct (call f (add (it_x s) (mul delta (it_x s)))) eqn:E3;
          simpl in E1.
        + right. eapply truediv_raise; exact E1.
        + inversion E1; subst. left. eapply call_raise; exact E3.
      - apply numerical_derivative_raise in E1.
        destruct E1 as [Hf|[_ Hz]]; auto. }
  destruct (eqb a0 zero) eqn:Ez.
  { inversion H. left. reflexivity. }
  rewrite truediv_guarded in H by exact Ez. simpl in H.
  match type of H with bind (call f ?x) _ = _ =>
    destruct (call f x) eqn:E2; simpl in H end.
  2:{ inversion H; subst. right. left. eapply call_raise; exact E2. }
  destruct (_ || _); discriminate.
Qed.
End MoreRaises.

Section RunRaises.
Context {num : Type} {A : Arith num}.

(** With at least one pass to run, an exception of the loop followed by the
    statements after it is an exception of some pass. *)
Lemma run_raise (S : Type) (rows_of : S -> list (row num))
  (rest : Z -> S -> result (solve_result num))
  (body : Z -> S -> result (outcome S (solve_result num)))
  (crit : row num -> bool) (P : row num -> Prop)
  (max_iter : Z) (s0 : S) (e : exn) :
  row_discipline rows_of rest body crit P (@no_invariant S) ->
  (1 <= max_iter)%Z ->
  (o <- for_range body (Z.to_nat max_iter) 1 s0 ;;
   after_loop (rest max_iter) o) = Raise e ->
  exists i s, body i s = Raise e.
Proof.
  intros D Hm H.
  destruct (for_range body (Z.to_nat max_iter) 1 s0) as [[s|r]|e0] eqn:E;
    simpl in H.
  - destruct (loop_continue D _ _ _ I E)
      as (_ & new & _ & _ & _ & _ & _ & Hlast).
    destruct Hlast as (earlier & x & fx & er & _ & Hrest); [lia|].
    rewrite Hrest in H. discriminate.
  - discriminate.
  - inversion H; subst. eapply for_range_raise. exact E.
Qed.

Lemma run_total (S : Type) (rows_of : S -> list (row num))
  (rest : Z -> S -> result (solve_result num))
  (body : Z -> S -> result (outcome S (solve_result num)))
  (crit : row num -> bool) (P : row num -> Prop)
  (max_iter : Z) (s0 : S) :
  row_discipline rows_of rest body crit P (@no_invariant S) ->
  (1 <= max_iter)%Z ->
  (forall i s e, body i s <> Raise e) ->
  exists res,
    (o <- for_range body (Z.to_nat max_iter) 1 s0 ;;
     after_loop (rest max_iter) o) = Ok res.
Proof.
  intros D Hm Hb.
  destruct (o <- for_range body (Z.to_nat max_iter) 1 s0 ;;
            after_loop (rest max_iter) o) as [res|e] eqn:E; [eauto|].
  destruct (run_raise _ D Hm E) as (i & s & H).
  exfalso. exact (Hb _ _ _ H).
Qed.

Lemma total_call (f : func num) (x : num) (e : exn) :
  total f -> call f x <> Raise e.
Proof.
  intros Ht H. destruct (Ht x) as (y & Hy). unfold call in H.
  rewrite Hy in H. discriminate.
Qed.

Lemma bisection_body_total (f : func num) (tol : num) (i : Z)
  (s : bisection_locals) (e : exn) :
  total f -> bisection_body f tol i s <> Raise e.
Proof.
  intros Ht. unfold bisection_body, call.
  destruct (Ht (div (add (bis_a s) (bis_b s)) two)) as (y & Hy).
  rewrite Hy. simpl.
  destruct (_ || _); [discriminate|]. destruct (ltb _ _); discriminate.
Qed.

Lemma fixed_point_iteration_body_total (g : func num) (tol : num) (i : Z)
  (s : iterate_locals) (e : exn) :
  total g -> fixed_point_iteration_body g tol i s <> Raise e.
Proof.
  intros Ht. unfold fixed_point_iteration_body, call.
  destruct (Ht (it_x s)) as (y & Hy). rewrite Hy. simpl.
  destruct (ltb _ _); discriminate.
Qed.

(** X1: when the supplied function returns a number of the carrier at every
    argument (for the program, a float: it neither raises nor returns a
    value of another type) and the cap is at least 1, [bisection] either
    rejects the bracket or returns a result: no pass raises, and the
    statements after the loop find their locals assigned. *)
Theorem bisection_returns_for_total_function
  (f : func num) (a b tol : num) (max_iter : Z) :
  total f -> (1 <= max_iter)%Z ->
  bisection f a b tol max_iter = Raise invalid_bracket \/
  exists res, bisection f a b tol max_iter = Ok res.
Proof.
  intros Ht Hm. destruct (Ht a) as (fa & Ha). destruct (Ht b) as (fb & Hb).
  rewrite (bisection_unfold f a b tol max_iter Ha Hb).
  destruct (ltb zero (mul fa fb)); [left; reflexivity|right].
  apply (run_total _ (bisection_discipline f tol) Hm).
  intros i s e. apply bisection_body_total. exact Ht.
Qed.

(** X2: when the supplied function returns a number of the carrier at every
    argument (for the program, a float: it neither raises nor returns a
    value of another type) and the cap is at least 1,
    [fixed_point_iteration] returns a result. *)
Theorem fixed_point_iteration_returns_for_total_function
  (g : func num) (x0 tol : num) (max_iter : Z) :
  total g -> (1 <= max_iter)%Z ->
  exists res, fixed_point_iteration g x0 tol max_iter = Ok res.
Proof.
  intros Ht Hm.
  apply (run_total _ (fixed_point_iteration_discipline g tol) Hm).
  intros i s e. apply fixed_point_iteration_body_total. exact Ht.
Qed.

(** X3: for a supplied function that at every argument returns a number of
    the carrier (for the program, a float) or raises, and a cap of at least
    1, the only exceptions [secant] raises are its zero-denominator error
    and those of the supplied function: the guard [f1-f0==0] covers its one
    division. *)
Theorem secant_raises_only
  (f : func num) (x0 x1 tol : num) (max_iter : Z) (e : exn) :
  (1 <= max_iter)%Z ->
  secant f x0 x1 tol max_iter = Raise e ->
  e = zero_denominator \/ exists what, e = RaisedByFunction what.
Proof.
  intros Hm H.
  destruct (run_raise _ (secant_discipline f tol) Hm H) as (i & s & Hb).
  eapply secant_body_raise. exact Hb.
Qed.

(** X5: for a supplied function that at every argument returns a number of
    the carrier (for the program, a float) or raises, and a cap of at least
    1, the only exceptions [regula_falsi] raises are the invalid-bracket
    error, Python's own division error (the division by [fb-fa] has no
    guard) and those of the supplied function. *)
Theorem regula_falsi_raises_only
  (inf : num) (f : func num) (a b tol : num) (max_iter : Z) (e : exn) :
  (1 <= max_iter)%Z ->
  regula_falsi inf f a b tol max_iter = Raise e ->
  e = invalid_bracket \/ e = native_zero_division \/
  exists what, e = RaisedByFunction what.
Proof.
  intros Hm H. unfold regula_falsi in H.
  destruct (call f a) as [fa|e0] eqn:Ea; simpl in H.
  2:{ inversion H; subst. right. right. eapply call_raise; exact Ea. }
  destruct (call f b) as [fb|e0] eqn:Eb; simpl in H.
  2:{ inversion H; subst. right. right. eapply call_raise; exact Eb. }
  destruct (ltb zero (mul fa fb)).
  { inversion H. left. reflexivity. }
  right.
  destruct (run_raise _ (regula_falsi_discipline inf f tol) Hm H)
    as (i & s & Hb).
  eapply regula_falsi_body_raise. exact Hb.
Qed.

(** X6: an accepted bracket whose endpoint values compare equal stops
    [regula_falsi] in its first pass with Python's own division error. *)
Theorem regula_falsi_equal_endpoint_values
  (inf : num) (f : func num) (a b tol fa fb : num) (max_iter : Z) :
  (1 <= max_iter)%Z ->
  f a = inr fa -> f b = inr fb ->
  ltb zero (mul fa fb) = false -> eqb (sub fb fa) zero = true ->
  regula_falsi inf f a b tol max_iter = Raise native_zero_division.
Proof.
  intros Hm Ha Hb Hs Hz.
  rewrite (regula_falsi_unfold inf f a b tol max_iter Ha Hb), Hs.
  unfold regula_falsi_loop.
  replace (Z.to_nat max_iter)
    with (Datatypes.S (Z.to_nat max_iter - 1)) by lia.
  cbn [for_range]. unfold regula_falsi_body at 1, truediv.
  cbn [regula_falsi_init reg_fa reg_fb]. rewrite Hz. reflexivity.
Qed.

(** X7: for a supplied function that at every argument returns a number of
    the carrier (for the program, a float) or raises, and a cap of at least
    1, the only exceptions [modified_secant] raises are its zero-derivative-
    approximation error, Python's own division error and those of the
    supplied function. *)
Theorem modified_secant_raises_only
  (h : num) (f : func num) (x0 delta tol : num) (max_iter : Z) (e : exn) :
  (1 <= max_iter)%Z ->
  modified_secant h f x0 delta tol max_iter = Raise e ->
  e = zero_derivative_approximation \/ e = native_zero_division \/
  exists what, e = RaisedByFunction what.
Proof.
  intros Hm H.
  destruct (run_raise _ (modified_secant_discipline h f delta tol) Hm H)
    as (i & s & Hb).
  apply modified_secant_body_raise in Hb. tauto.
Qed.

(** X8: at a nonzero start [x0] whose perturbation [delta*x0] compares equal
    to zero, [modified_secant] divides by it without a guard, and the call
    ends with Python's own division error. *)
Theorem modified_secant_zero_perturbation
  (h : num) (f : func num) (x0 delta tol fx y : num) (max_iter : Z) :
  (1 <= max_iter)%Z ->
  eqb x0 zero = false ->
  f x0 = inr fx -> f (add x0 (mul delta x0)) = inr y ->
  eqb (mul delta x0) zero = true ->
  modified_secant h f x0 delta tol max_iter = Raise native_zero_division.
Proof.
  intros Hm Hx Hf Hy Hz. unfold modified_secant, modified_secant_loop.
  replace (Z.to_nat max_iter)
    with (Datatypes.S (Z.to_nat max_iter - 1)) by lia.
  cbn [for_range]. unfold modified_secant_body at 1, truediv, call.
  cbn [iterate_init it_x]. rewrite Hf. simpl. rewrite Hx. simpl.
  rewrite Hy. simpl. rewrite Hz. reflexivity.
Qed.
End RunRaises.

(** X4: for a supplied function that at every argument returns a float or
    raises, the default step [1e-6] of the derivative and a cap of at least
    1, the only exceptions [newton_raphson] raises are its zero-derivative
    error and those of the supplied function: on floats neither the division
    by [2*h] nor the one by [dfx] can raise. *)
Theorem newton_raphson_raises_only
  (f : func float) (x0 tol : float) (max_iter : Z) (e : exn) :
  (1 <= max_iter)%Z ->
  newton_raphson lit_1e_6 f x0 tol max_iter = Raise e ->
  e = zero_derivative \/ exists what, e = RaisedByFunction what.
Proof.
  intros Hm H.
  destruct (run_raise _ (newton_raphson_discipline lit_1e_6 f tol) Hm H)
    as (i & s & Hb).
  apply newton_raphson_body_raise in Hb.
  destruct Hb as [Hb|[Hb|[Hz _]]]; auto. discriminate Hz.
Qed.

(** ** The rows of fixed-point iteration are the iterates *)

Section Iterates.
Context {num : Type} {A : Arith num}.

Lemma fixed_point_iterates_discipline (g : func num) (x0 tol : num) :
  row_discipline it_rows iterate_return (fixed_point_iteration_body g tol)
    (error_only tol) (is_iterate g x0) (at_iterate g x0).
Proof.
  split.
  - intros i s s' (Hi & Hit) H.
    destruct (fixed_point_iteration_body_continue _ _ _ _ H)
      as (c & Hf & Hc & Hrows & Hc' & He).
    split.
    { split; [lia|]. replace (i + 1 - 1)%Z with i by lia.
      replace (Z.to_nat i) with (Datatypes.S (Z.to_nat (i - 1))) by lia.
      cbn [iterate]. rewrite Hit. simpl. rewrite Hc'.
      apply call_Ok. exact Hf. }
    do 3 eexists. split; [exact Hrows|].
    split; [exact Hc|]. split.
    { exists (it_x s). simpl. auto. }
    intros m. unfold iterate_return. rewrite Hc', He. reflexivity.
  - intros i s x e n rows (Hi & Hit) H.
    destruct (fixed_point_iteration_body_return _ _ _ _ H)
      as (c & Hf & Hc & Hres).
    inversion Hres; subst. split; [reflexivity|].
    eexists. split; [reflexivity|]. split; [exact Hc|].
    exists (it_x s). simpl. auto.
Qed.

(** X9: in a result of [fixed_point_iteration] the estimate is [g] applied
    [n] times to [x0], and the row at position [k] (from 0) holds [g]
    applied [k+1] times, with its distance to [g] applied [k] times as
    error. *)
Theorem fixed_point_rows_are_iterates
  (g : func num) (x0 tol : num) (max_iter : Z)
  (x err : num) (n : Z) (rows : list (row num)) :
  fixed_point_iteration g x0 tol max_iter = Ok (x, err, n, rows) ->
  iterate g (Z.to_nat n) x0 = Ok x /\
  forall k r, nth_error rows k = Some r ->
    exists prev,
      iterate g k x0 = Ok prev /\ g prev = inr (row_x r) /\
      row_err r = abs (sub (row_x r) prev).
Proof.
  intros H.
  assert (Hm : (1 <= max_iter)%Z).
  { destruct (Z_le_gt_dec max_iter 0) as [Hm|Hm]; [|lia].
    rewrite (fixed_point_iteration_empty_range Hm) in H. discriminate. }
  assert (HI : at_iterate g x0 1 (iterate_init x0))
    by (split; [lia|reflexivity]).
  destruct (run_first_stop (fixed_point_iterates_discipline g x0 tol)
              (iterate_init x0) HI eq_refl Hm H) as (Hfs & Hnum & HP).
  cbn [snd] in Hnum, HP.
  assert (Hrow : forall k r, nth_error rows k = Some r ->
            exists prev,
              iterate g k x0 = Ok prev /\ g prev = inr (row_x r) /\
              row_err r = abs (sub (row_x r) prev)).
  { intros k r Hk.
    assert (Hin : In r rows) by (eapply nth_error_In; exact Hk).
    rewrite Forall_forall in HP. destruct (HP r Hin) as (prev & Hp & Hg & He).
    rewrite (@numbered_nth _ rows 1%Z k r Hnum Hk) in Hp.
    replace (Z.to_nat (1 + Z.of_nat k - 1)) with k in Hp by lia.
    exists prev. auto. }
  split; [|exact Hrow].
  destruct Hfs as (Hn & earlier & fx & Hr & Hlen & _).
  assert (Hk : nth_error rows (Z.to_nat (n - 1)) = Some (n, x, fx, err)).
  { rewrite Hr, nth_error_app2 by lia.
    replace (Z.to_nat (n - 1) - List.length earlier)%nat with O by lia.
    reflexivity. }
  destruct (Hrow _ _ Hk) as (prev & Hp & Hg & _).
  replace (Z.to_nat n) with (Datatypes.S (Z.to_nat (n - 1))) by lia.
  cbn [iterate]. rewrite Hp. simpl. apply call_Ok. exact Hg.
Qed.
End Iterates.

(** ** Exact bisection keeps a sign change in its bracket *)

Section Narrowing.
Context {num : Type} {A : Arith num}.

(** Which half a pass of [bisection] keeps: [a, c] when [fa*fc < 0], and
    [c, b] otherwise. *)
Lemma bisection_body_narrows (f : func num) (tol : num) (i : Z)
  (s s' : bisection_locals) :
  bisection_body f tol i s = Ok (Continue s') ->
  let c := div (add (bis_a s) (bis_b s)) two in
  exists fc,
    f c = inr fc /\
    ((ltb (mul (bis_fa s) fc) zero = true /\
      bis_a s' = bis_a s /\ bis_b s' = c /\
      bis_fa s' = bis_fa s /\ bis_fb s' = fc) \/
     (ltb (mul (bis_fa s) fc) zero = false /\
      bis_a s' = c /\ bis_b s' = bis_b s /\
      bis_fa s' = fc /\ bis_fb s' = bis_fb s)).
Proof.
  intros H c. unfold bisection_body in H. fold c in H.
  destruct (call f c) as [fc|e] eqn:E; simpl in H; [|discriminate].
  apply call_Ok in E. exists fc. split; [exact E|].
  destruct (_ || _); [discriminate|].
  destruct (ltb (mul (bis_fa s) fc) zero) eqn:El;
    inversion H; subst s'; simpl; auto 10.
Qed.
End Narrowing.

Section SignChange.
Open Scope Q_scope.

Lemma same_sign_keeps_change (fa fb fc : Q) :
  fa * fb <= 0 -> 0 <= fa * fc -> ~ fa == 0 -> ~ fc == 0 -> fc * fb <= 0.
Proof.
  intros H1 H2 Ha Hc.
  destruct (Qlt_le_dec 0 fa) as [Hp|Hn].
  - assert (0 < fc).
    { destruct (Qlt_le_dec 0 fc) as [H|H]; [exact H|].
      exfalso. apply Hc. nra. }
    nra.
  - assert (fa < 0).
    { destruct (Qlt_le_dec fa 0) as [H|H]; [exact H|].
      exfalso. apply Ha. lra. }
    assert (fc < 0).
    { destruct (Qlt_le_dec fc 0) as [H'|H']; [exact H'|].
      exfalso. apply Hc. nra. }
    nra.
Qed.

Lemma between_midpoint (a b p q : Q) :
  between a b p -> between a b q -> between a b ((p + q) / 2).
Proof.
  unfold between. intros [Hp|Hp] [Hq|Hq].
  - left. split.
    + apply Qle_shift_div_l; [reflexivity|]. lra.
    + apply Qle_shift_div_r; [reflexivity|]. lra.
  - destruct (Qlt_le_dec a b) as [H|H].
    + left. assert (a == b) by lra. split.
      * apply Qle_shift_div_l; [reflexivity|]. lra.
      * apply Qle_shift_div_r; [reflexivity|]. lra.
    + right. split.
      * apply Qle_shift_div_l; [reflexivity|]. lra.
      * apply Qle_shift_div_r; [reflexivity|]. lra.
  - destruct (Qlt_le_dec a b) as [H|H].
    + left. assert (a == b) by lra. split.
      * apply Qle_shift_div_l; [reflexivity|]. lra.
      * apply Qle_shift_div_r; [reflexivity|]. lra.
    + right. split.
      * apply Qle_shift_div_l; [reflexivity|]. lra.
      * apply Qle_shift_div_r; [reflexivity|]. lra.
  - right. split.
    + apply Qle_shift_div_l; [reflexivity|]. lra.
    + apply Qle_shift_div_r; [reflexivity|]. lra.
Qed.

Lemma exact_ltb_true (x y : Q) : ltb x y = true -> x < y.
Proof.
  simpl. intros H. apply Qnot_le_lt. intros Hle.
  apply Qle_bool_iff in Hle. rewrite Hle in H. discriminate.
Qed.

Lemma residual_above_tolerance (fc tol : Q) :
  0 < tol -> ltb (abs fc) tol = false -> ~ fc == 0.
Proof.
  intros Ht H Hz. apply exact_not_ltb in H. simpl in H.
  rewrite Hz in H. change (Qabs 0) with 0 in H. lra.
Qed.

Lemma bisection_sign_discipline (f : func Q) (a b tol : Q) :
  0 < tol ->
  row_discipline bis_rows bisection_return (bisection_body f tol)
    (residual_or_error tol) (straddles f a b) (keeps_sign_change f a b).
Proof.
  intros Ht. split.
  - intros i s s' (Hfa & Hfb & Hs & Hnz & Hba & Hbb) H.
    destruct (bisection_body_continue _ _ _ _ H)
      as (fc & Hf & Hc & Hrows & Hc' & He & _).
    destruct (bisection_body_narrows _ _ _ _ H)
      as (fc' & Hf' & Hn).
    assert (fc' = fc) by congruence. subst fc'.
    apply orb_false_iff in Hc. destruct Hc as (Hres & Herr).
    pose proof (residual_above_tolerance Ht Hres) as Hfc.
    pose proof (between_midpoint Hba Hbb) as Hbc.
    split.
    { destruct Hn as [(Hl & Ha' & Hb' & Hfa' & Hfb')
                     |(Hl & Ha' & Hb' & Hfa' & Hfb')];
        unfold keeps_sign_change; rewrite Ha', Hb', Hfa', Hfb'.
      - apply exact_ltb_true in Hl. simpl in Hl.
        repeat split; auto. lra.
      - apply exact_not_ltb in Hl. simpl in Hl.
        repeat split; auto.
        apply (same_sign_keeps_change Hs Hl Hnz Hfc). }
    do 3 eexists. split; [exact Hrows|].
    split; [apply orb_false_iff; split; assumption|]. split.
    { exists (bis_a s), (bis_b s). split; [|auto].
      exists (bis_fa s), (bis_fb s). auto. }
    intros m. unfold bisection_return. rewrite Hc', He. reflexivity.
  - intros i s x e n rows (Hfa & Hfb & Hs & Hnz & Hba & Hbb) H.
    destruct (bisection_body_return _ _ _ _ H) as (fc & Hf & Hc & Hres).
    inversion Hres; subst. split; [reflexivity|].
    eexists. split; [reflexivity|]. split; [exact Hc|].
    exists (bis_a s), (bis_b s). split; [|auto].
    exists (bis_fa s), (bis_fb s). auto.
Qed.

Lemma between_ends (a b : Q) : between a b a /\ between a b b.
Proof.
  unfold between. destruct (Qlt_le_dec a b) as [H|H].
  - split; left; lra.
  - split; right; lra.
Qed.

(** X10: in exact arithmetic, with a tolerance above zero and [f(a)] not
    zero, the estimate [bisection] returns is the midpoint of two points of
    the bracket at which [f] does not have the same strict sign, and the
    returned error is the distance from the estimate to either of them. *)
Theorem bisection_brackets_a_sign_change
  (f : func Q) (a b tol : Q) (max_iter : Z)
  (x err : Q) (n : Z) (rows : list (row Q)) (fa : Q) :
  0 < tol -> f a = inr fa -> ~ fa == 0 ->
  bisection f a b tol max_iter = Ok (x, err, n, rows) ->
  exists p q,
    sign_change f p q /\ between a b p /\ between a b q /\
    x == (p + q) / 2 /\ Qabs (x - p) == err /\ Qabs (x - q) == err.
Proof.
  intros Ht Ha Hnz H.
  assert (Hm : (1 <= max_iter)%Z).
  { destruct (Z_le_gt_dec max_iter 0) as [Hm|Hm]; [|lia].
    exfalso. exact (bisection_empty_range_no_result Hm _ _ _ _ H). }
  apply bisection_Ok_inv in H.
  destruct H as (fa' & fb & Ha' & Hb & Hs & H).
  assert (fa' = fa) by congruence. subst fa'.
  assert (HI : keeps_sign_change f a b 1 (bisection_init a b fa fb)).
  { unfold keeps_sign_change. simpl. apply exact_not_ltb in Hs. simpl in Hs.
    destruct (between_ends a b). repeat split; auto. }
  destruct (run_first_stop (bisection_sign_discipline f a b Ht)
              (bisection_init a b fa fb) HI eq_refl Hm H)
    as (Hfs & _ & HP).
  destruct Hfs as (_ & earlier & fx & Hr & _).
  cbn [snd] in HP. rewrite Hr in HP. apply Forall_app in HP.
  destruct HP as (_ & HP). inversion HP as [|r l Hlast _]; subst.
  destruct Hlast as (p & q & Hsc & Hp & Hq & Hx & He).
  cbn [row_x row_err] in Hx, He. exists p, q. repeat split; auto.
  - rewrite Hx. reflexivity.
  - rewrite Hx, He.
    setoid_replace ((p + q) / 2 - p) with ((q - p) * (1 # 2)) by field.
    rewrite Qabs_Qmult. change (Qabs (1 # 2)) with (1 # 2). field.
  - rewrite Hx, He.
    setoid_replace ((p + q) / 2 - q) with ((p - q) * (1 # 2)) by field.
    rewrite Qabs_Qmult, (Qabs_Qminus p q).
    change (Qabs (1 # 2)) with (1 # 2). field.
Qed.
End SignChange.

(** ** Reading numbers from the terminal *)

Section Prompt.
Variable py_float : string -> option float.
Variable default : option float.

Lemma get_float_cons (s : string) (rest : list string) :
  get_float py_float default (s :: rest) =
  match line_value py_float default s with
  | Some v => Some (v, rest)
  | None => get_float py_float default rest
  end.
Proof.
  cbn [get_float]. unfold line_value.
  destruct (if is_blank s then default else None); [reflexivity|].
  destruct (py_float s); reflexivity.
Qed.

(** X11: [get_float] skips the lines that give no number and returns the
    value of the first line that gives one, with the lines after it. *)
Theorem get_float_first_number (stdin : list string) (v : float)
  (rest : list string) :
  get_float py_float default stdin = Some (v, rest) <->
  exists skipped s,
    stdin = skipped ++ s :: rest /\
    Forall (fun l => line_value py_float default l = None) skipped /\
    line_value py_float default s = Some v.
Proof.
  split.
  - revert v rest. induction stdin as [|l stdin IH]; intros v rest H.
    + discriminate.
    + rewrite get_float_cons in H.
      destruct (line_value py_float default l) as [w|] eqn:E.
      * inversion H; subst. exists [], l. auto.
      * destruct (IH _ _ H) as (skipped & s & Hs & Hf & Hv).
        exists (l :: skipped), s. subst stdin. auto.
  - intros (skipped & s & Hs & Hf & Hv). subst stdin.
    induction Hf as [|l skipped Hl Hf IH].
    + simpl app. rewrite get_float_cons, Hv. reflexivity.
    + simpl app. rewrite get_float_cons, Hl. exact IH.
Qed.

(** X12: [get_float] never returns exactly when no line of the input gives
    a number: past the last line [input] raises, the bare [except] answers
    with "Invalid number." and the prompt repeats. *)
Theorem get_float_no_number (stdin : list string) :
  get_float py_float default stdin = None <->
  Forall (fun l => line_value py_float default l = None) stdin.
Proof.
  induction stdin as [|l stdin IH].
  - split; [constructor|reflexivity].
  - rewrite get_float_cons.
    destruct (line_value py_float default l) as [w|] eqn:E.
    + split; [discriminate|]. intros H. inversion H; congruence.
    + rewrite IH. split; [constructor; auto|].
      intros H. inversion H; auto.
Qed.
End Prompt.

(** X13: a method number outside 1..6 matches no branch of [main]: once the
    tolerance and the cap are read the run ends on the unassigned local
    [rows], whatever lines follow. *)
Theorem main_unknown_method
  (parse_function : string -> func float) (py_float : string -> option float)
  (expr : string) (stdin s1 s2 s3 : list string)
  (c tol m : float) (choice max_iter : Z) :
  get_float py_float (Some 1%float) stdin = Some (c, s1) ->
  py_int c = Ok choice ->
  get_float py_float (Some lit_1e_6) s1 = Some (tol, s2) ->
  get_float py_float (Some 100%float) s2 = Some (m, s3) ->
  py_int m = Ok max_iter ->
  (choice < 1 \/ 6 < choice)%Z ->
  main parse_function py_float (expr :: stdin) =
  Some (Raise (UnboundLocalError "rows")).
Proof.
  intros Hc Hci Ht Hm Hmi Hout.
  cbn [main]. unfold main_solve. rewrite Hc, Hci, Ht, Hm, Hmi.
  assert (H1 : (choice =? 1)%Z = false) by lia.
  assert (H2 : (choice =? 2)%Z = false) by lia.
  assert (H3 : (choice =? 3)%Z = false) by lia.
  assert (H4 : (choice =? 4)%Z = false) by lia.
  assert (H5 : (choice =? 5)%Z = false) by lia.
  assert (H6 : (choice =? 6)%Z = false) by lia.
  rewrite H1, H2, H3, H4, H5, H6. reflexivity.
Qed.

(** ** Errors as distances between successive iterates *)

Section LoopInvariant.
Variables S R : Type.
Variable body : Z -> S -> result (outcome S R).
Variable Inv : Z -> S -> Prop.
Variable Post : R -> Prop.

Hypothesis keeps : forall i s s',
  Inv i s -> body i s = Ok (Continue s') -> Inv (i + 1)%Z s'.
Hypothesis returns : forall i s r,
  Inv i s -> body i s = Ok (Return r) -> Post r.

Lemma for_range_invariant : forall n i s o,
  Inv i s -> for_range body n i s = Ok o ->
  match o with
  | Continue s' => Inv (i + Z.of_nat n)%Z s'
  | Return r => Post r
  end.
Proof.
  induction n as [|n IH]; intros i s o HI H.
  - simpl in H. inversion H; subst. rewrite Z.add_0_r. exact HI.
  - cbn [for_range] in H.
    destruct (body i s) as [[s1|r]|e] eqn:Hb; try discriminate.
    + specialize (IH _ _ _ (keeps HI Hb) H).
      destruct o; [|exact IH].
      replace (i + Z.of_nat (Datatypes.S n))%Z
        with (i + 1 + Z.of_nat n)%Z by lia.
      exact IH.
    + inversion H; subst. exact (returns HI Hb).
Qed.
End LoopInvariant.

Section Successive.
Context {num : Type} {A : Arith num}.

Lemma last_x_app (seed : num) (rows : list (row num)) (r : row num) :
  last_x seed (rows ++ [r]) = row_x r.
Proof. unfold last_x. rewrite fold_left_app. reflexivity. Qed.

Lemma last_x_cons (seed : num) (r : row num) (rows : list (row num)) :
  last_x seed (r :: rows) = last_x (row_x r) rows.
Proof. reflexivity. Qed.

Lemma successive_app (rows : list (row num)) (r : row num) : forall prev,
  successive prev rows ->
  row_err r = abs (sub (row_x r) (last_x prev rows)) ->
  successive prev (rows ++ [r]).
Proof.
  induction rows as [|r0 rows IH]; intros prev Hs He.
  - simpl. auto.
  - destruct Hs as (H0 & Hs). simpl app. split; [exact H0|].
    apply IH; [exact Hs|]. rewrite last_x_cons in He. exact He.
Qed.

Lemma successive_after_first_app (inf a : num) (rows : list (row num))
  (r : row num) :
  successive_after_first inf rows ->
  row_err r =
    (if (1 <? 1 + Z.of_nat (List.length rows))%Z
     then abs (sub (row_x r) (last_x a rows)) else inf) ->
  successive_after_first inf (rows ++ [r]).
Proof.
  destruct rows as [|r0 rows]; intros Hs He.
  - simpl in *. auto.
  - destruct Hs as (H0 & Hs). simpl app. split; [exact H0|].
    apply successive_app; [exact Hs|].
    replace (1 <? 1 + Z.of_nat (List.length (r0 :: rows)))%Z with true in He
      by (symmetry; apply Z.ltb_lt; simpl List.length; lia).
    rewrite last_x_cons in He. exact He.
Qed.

Section OnePoint.
Variable S : Type.
Variable rows_of : S -> list (row num).
Variable cur : S -> num.
Variable body : Z -> S -> result (outcome S (solve_result num)).

(** A pass records one row whose error is the distance of its iterate to
    [cur s], and leaves that iterate as the new [cur]. *)
Hypothesis pass_records : forall i s o,
  body i s = Ok o ->
  exists x fx,
    match o with
    | Continue s' =>
        rows_of s' = rows_of s ++ [(i, x, fx, abs (sub x (cur s)))] /\
        cur s' = x
    | Return res =>
        snd res = rows_of s ++ [(i, x, fx, abs (sub x (cur s)))]
    end.

Lemma loop_successive (seed : num) (n : nat) (i : Z) (s : S)
  (o : outcome S (solve_result num)) :
  measures_from rows_of cur seed i s ->
  for_range body n i s = Ok o ->
  match o with
  | Continue s' => successive seed (rows_of s')
  | Return res => successive seed (snd res)
  end.
Proof.
  intros HI H.
  pose proof (@for_range_invariant S (solve_result num) body
                (measures_from rows_of cur seed)
                (fun res => successive seed (snd res))) as L.
  assert (Hk : forall i s s',
             measures_from rows_of cur seed i s ->
             body i s = Ok (Continue s') ->
             measures_from rows_of cur seed (i + 1) s').
  { intros j t t' (Hs & Hc) Hb.
    apply pass_records in Hb. destruct Hb as (x & fx & Hrows & Hcur).
    split.
    - rewrite Hrows. apply successive_app; [exact Hs|].
      cbn [row_err row_x]. rewrite Hc. reflexivity.
    - rewrite Hrows, last_x_app. exact Hcur. }
  assert (Hr : forall i s r,
             measures_from rows_of cur seed i s ->
             body i s = Ok (Return r) -> successive seed (snd r)).
  { intros j t r (Hs & Hc) Hb.
    apply pass_records in Hb. destruct Hb as (x & fx & Hrows).
    rewrite Hrows. apply successive_app; [exact Hs|].
    cbn [row_err row_x]. rewrite Hc. reflexivity. }
  specialize (L Hk Hr n i s o HI H).
  destruct o as [s'|res]; [exact (proj1 L)|exact L].
Qed.
End OnePoint.

Lemma secant_pass_records (f : func num) (tol : num) (i : Z)
  (s : secant_locals) (o : outcome secant_locals (solve_result num)) :
  secant_body f tol i s = Ok o ->
  exists x fx,
    match o with
    | Continue s' =>
        sec_rows s' = sec_rows s ++ [(i, x, fx, abs (sub x (sec_x1 s)))] /\
        sec_x1 s' = x
    | Return res =>
        snd res = sec_rows s ++ [(i, x, fx, abs (sub x (sec_x1 s)))]
    end.
Proof.
  intros H. unfold secant_body in H.
  step_body H; inversion H; subst o; do 2 eexists; simpl; eauto.
Qed.

Lemma newton_raphson_pass_records (h : num) (f : func num) (tol : num)
  (i : Z) (s : iterate_locals)
  (o : outcome iterate_locals (solve_result num)) :
  newton_raphson_body h f tol i s = Ok o ->
  exists x fx,
    match o with
    | Continue s' =>
        it_rows s' = it_rows s ++ [(i, x, fx, abs (sub x (it_x s)))] /\
        it_x s' = x
    | Return res =>
        snd res = it_rows s ++ [(i, x, fx, abs (sub x (it_x s)))]
    end.
Proof.
  intros H. unfold newton_raphson_body in H.
  step_body H; inversion H; subst o; do 2 eexists; simpl; eauto.
Qed.

Lemma fixed_point_iteration_pass_records (g : func num) (tol : num)
  (i : Z) (s : iterate_locals)
  (o : outcome iterate_locals (solve_result num)) :
  fixed_point_iteration_body g tol i s = Ok o ->
  exists x fx,
    match o with
    | Continue s' =>
        it_rows s' = it_rows s ++ [(i, x, fx, abs (sub x (it_x s)))] /\
        it_x s' = x
    | Return res =>
        snd res = it_rows s ++ [(i, x, fx, abs (sub x (it_x s)))]
    end.
Proof.
  intros H. unfold fixed_point_iteration_body in H.
  step_body H; inversion H; subst o; do 2 eexists; simpl; eauto.
Qed.

Lemma modified_secant_pass_records (h : num) (f : func num)
  (delta tol : num) (i : Z) (s : iterate_locals)
  (o : outcome iterate_locals (solve_result num)) :
  modified_secant_body h f delta tol i s = Ok o ->
  exists x fx,
    match o with
    | Continue s' =>
        it_rows s' = it_rows s ++ [(i, x, fx, abs (sub x (it_x s)))] /\
        it_x s' = x
    | Return res =>
        snd res = it_rows s ++ [(i, x, fx, abs (sub x (it_x s)))]
    end.
Proof.
  intros H. unfold modified_secant_body in H.
  step_body H; inversion H; subst o; do 2 eexists; simpl; eauto.
Qed.

(** The loop followed by the last statement of the three one-point
    methods. *)
Lemma iterate_run_successive
  (body : Z -> iterate_locals ->
          result (outcome iterate_locals (solve_result num)))
  (x0 : num) (max_iter : Z) (res : solve_result num) :
  (forall i s o, body i s = Ok o ->
     exists x fx,
       match o with
       | Continue s' =>
           it_rows s' = it_rows s ++ [(i, x, fx, abs (sub x (it_x s)))] /\
           it_x s' = x
       | Return res =>
           snd res = it_rows s ++ [(i, x, fx, abs (sub x (it_x s)))]
       end) ->
  (o <- for_range body (Z.to_nat max_iter) 1 (iterate_init x0) ;;
   after_loop (iterate_return max_iter) o) = Ok res ->
  successive x0 (snd res).
Proof.
  intros Hp H. apply bind_Ok_inv in H. destruct H as (o & Hloop & Hafter).
  assert (HI : measures_from it_rows it_x x0 1 (iterate_init x0))
    by (split; [exact I|reflexivity]).
  pose proof (@loop_successive _ it_rows it_x body Hp x0 _ _ _ _ HI Hloop)
    as L.
  destruct o as [s|r]; simpl in Hafter.
  - unfold iterate_return in Hafter.
    destruct (it_err s); simpl in Hafter; [|discriminate].
    inversion Hafter; subst. exact L.
  - inversion Hafter; subst. exact L.
Qed.

(** X17: the errors [secant], [newton_raphson], [fixed_point_iteration] and
    [modified_secant] record are the distances between successive iterates,
    the first one measured from [x1] for [secant] and from [x0] for the
    others. *)
Theorem errors_are_distances_between_iterates
  (h : num) (f g : func num) (x0 x1 delta tol : num) (max_iter : Z)
  (res : solve_result num) :
  (secant f x0 x1 tol max_iter = Ok res -> successive x1 (snd res)) /\
  (newton_raphson h f x0 tol max_iter = Ok res ->
   successive x0 (snd res)) /\
  (fixed_point_iteration g x0 tol max_iter = Ok res ->
   successive x0 (snd res)) /\
  (modified_secant h f x0 delta tol max_iter = Ok res ->
   successive x0 (snd res)).
Proof.
  split; [|split; [|split]].
  - intros H. unfold secant, secant_loop in H.
    apply bind_Ok_inv in H. destruct H as (o & Hloop & Hafter).
    assert (HI : measures_from sec_rows sec_x1 x1 1 (secant_init x0 x1))
      by (split; [exact I|reflexivity]).
    pose proof (@loop_successive _ sec_rows sec_x1 (secant_body f tol)
                  (@secant_pass_records f tol) x1 _ _ _ _ HI Hloop) as L.
    destruct o as [s|r]; simpl in Hafter.
    + unfold secant_return in Hafter.
      destruct (sec_x2 s); simpl in Hafter; [|discriminate].
      destruct (sec_err s); simpl in Hafter; [|discriminate].
      inversion Hafter; subst. exact L.
    + inversion Hafter; subst. exact L.
  - apply iterate_run_successive. apply newton_raphson_pass_records.
  - apply iterate_run_successive. apply fixed_point_iteration_pass_records.
  - apply iterate_run_successive. apply modified_secant_pass_records.
Qed.

Lemma regula_falsi_pass_records (inf : num) (f : func num) (tol : num)
  (i : Z) (s : regula_locals)
  (o : outcome regula_locals (solve_result num)) :
  regula_falsi_body inf f tol i s = Ok o ->
  exists x fx,
    let e := if (1 <? i)%Z then abs (sub x (reg_c s)) else inf in
    match o with
    | Continue s' =>
        reg_rows s' = reg_rows s ++ [(i, x, fx, e)] /\ reg_c s' = x
    | Return res => snd res = reg_rows s ++ [(i, x, fx, e)]
    end.
Proof.
  intros H. unfold regula_falsi_body in H.
  step_body H; inversion H; subst o; do 2 eexists; simpl; eauto.
Qed.

(** X18: [regula_falsi] records infinity as the error of its first row, and
    from the second row on the distance between successive iterates. *)
Theorem regula_falsi_errors_after_the_first
  (inf : num) (f : func num) (a b tol : num) (max_iter : Z)
  (res : solve_result num) :
  regula_falsi inf f a b tol max_iter = Ok res ->
  successive_after_first inf (snd res).
Proof.
  intros H. apply regula_falsi_Ok_inv in H.
  destruct H as (fa & fb & _ & _ & _ & H).
  unfold regula_falsi_loop in H.
  apply bind_Ok_inv in H. destruct H as (o & Hloop & Hafter).
  pose proof (@for_range_invariant regula_locals (solve_result num)
                (regula_falsi_body inf f tol) (regula_measures inf a)
                (fun res => successive_after_first inf (snd res))) as L.
  assert (Hk : forall i s s',
             regula_measures inf a i s ->
             regula_falsi_body inf f tol i s = Ok (Continue s') ->
             regula_measures inf a (i + 1) s').
  { intros j t t' (Hl & Hs & Hc) Hb.
    apply regula_falsi_pass_records in Hb.
    destruct Hb as (x & fx & Hrows & Hcur).
    split; [|split].
    - rewrite Hrows, length_app. simpl List.length. lia.
    - rewrite Hrows. apply successive_after_first_app with (a := a);
        [exact Hs|].
      cbn [row_err row_x]. rewrite <- Hc.
      replace (1 + Z.of_nat (List.length (reg_rows t)))%Z with j by lia.
      reflexivity.
    - rewrite Hrows, last_x_app. exact Hcur. }
  assert (Hr : forall i s r,
             regula_measures inf a i s ->
             regula_falsi_body inf f tol i s = Ok (Return r) ->
             successive_after_first inf (snd r)).
  { intros j t r (Hl & Hs & Hc) Hb.
    apply regula_falsi_pass_records in Hb.
    destruct Hb as (x & fx & Hrows).
    rewrite Hrows. apply successive_after_first_app with (a := a);
      [exact Hs|].
    cbn [row_err row_x]. rewrite <- Hc.
    replace (1 + Z.of_nat (List.length (reg_rows t)))%Z with j by lia.
    reflexivity. }
  assert (HI : regula_measures inf a 1 (regula_falsi_init a b fa fb))
    by (split; [reflexivity|split; [exact I|reflexivity]]).
  specialize (L Hk Hr _ _ _ _ HI Hloop).
  destruct o as [s|r]; simpl in Hafter.
  - unfold regula_falsi_return in Hafter.
    destruct (reg_err s); simpl in Hafter; [|discriminate].
    inversion Hafter; subst. exact (proj1 (proj2 L)).
  - inversion Hafter; subst. exact L.
Qed.
End Successive.

(** ** The web front end against the command-line functions *)

Ltac web_body :=
  repeat match goal with
  | |- context [bind (call ?f ?x) _] =>
      let E := fresh "E" in destruct (call f x) eqn:E; simpl
  | |- context [bind (truediv ?x ?y) _] =>
      let E := fresh "E" in destruct (truediv x y) eqn:E; simpl
  | |- context [bind (numerical_derivative ?f ?x ?h) _] =>
      let E := fresh "E" in destruct (numerical_derivative f x h) eqn:E; simpl
  | |- context [if ?b then _ else _] =>
      let E := fresh "E" in destruct b eqn:E; simpl
  end;
  try reflexivity;
  try match goal with
  | E : call _ _ = Raise ?e |- Raise ?e = Raise (web_exn ?e) =>
      let what := fresh "what" in
      destruct (call_raise _ _ E) as (what & ->); reflexivity
  | E : truediv _ _ = Raise ?e |- Raise ?e = Raise (web_exn ?e) =>
      destruct (truediv_raise _ _ E) as (_ & ->); reflexivity
  | E : numerical_derivative _ _ _ = Raise ?e
    |- Raise ?e = Raise (web_exn ?e) =>
      let what := fresh "what" in
      destruct (numerical_derivative_raise _ _ _ E)
        as [(what & ->)|(_ & ->)]; reflexivity
  end.

Section WebFacts.
Context {num : Type} {A : Arith num}.

Lemma for_range_web_pass (S : Type)
  (body : Z -> S -> result (outcome S (solve_result num)))
  (wbody : Z -> S -> result (outcome S (web_break num))) :
  (forall i s, wbody i s = web_pass (body i s)) ->
  forall n i s, for_range wbody n i s = web_pass (for_range body n i s).
Proof.
  intros Hb. induction n as [|n IH]; intros i s; [reflexivity|].
  cbn [for_range]. rewrite Hb.
  destruct (body i s) as [[s1|[[[x e] k] rows]]|e]; simpl; auto.
Qed.

Lemma web_root_last (crit : row num -> bool) (x e : num) (n : Z)
  (earlier : list (row num)) (r : row num) :
  web_root crit (x, e, n, earlier ++ [r]) = if crit r then Some x else None.
Proof.
  unfold web_root. rewrite rev_app_distr. reflexivity.
Qed.

(** A web loop whose passes are those of the command-line loop answers
    with the rows of the command-line result, and with its estimate as root
    exactly when the last row meets the test. *)
Lemma web_run (S : Type) (rows_of : S -> list (row num))
  (rest : Z -> S -> result (solve_result num))
  (body : Z -> S -> result (outcome S (solve_result num)))
  (wbody : Z -> S -> result (outcome S (web_break num)))
  (crit : row num -> bool) (P : row num -> Prop)
  (max_iter : Z) (s0 : S) :
  row_discipline rows_of rest body crit P (@no_invariant S) ->
  (forall i s, wbody i s = web_pass (body i s)) ->
  rows_of s0 = [] -> (1 <= max_iter)%Z ->
  web_return rows_of (for_range wbody (Z.to_nat max_iter) 1 s0) =
  web_view crit
    (o <- for_range body (Z.to_nat max_iter) 1 s0 ;;
     after_loop (rest max_iter) o).
Proof.
  intros D Hb H0 Hm. rewrite (for_range_web_pass _ _ Hb).
  destruct (for_range body (Z.to_nat max_iter) 1 s0)
    as [[s|[[[x e] k] rows]]|e0] eqn:E;
    cbn [web_pass web_return bind after_loop].
  - destruct (loop_continue D _ _ _ I E)
      as (_ & new & Hnew & _ & _ & Hcr & _ & Hlast).
    destruct Hlast as (earlier & x & fx & e & Hn & Hrest); [lia|].
    rewrite Hrest. cbn [web_view snd]. rewrite Hnew, H0, Hn. simpl app.
    rewrite web_root_last.
    rewrite Hn in Hcr. apply Forall_app in Hcr. destruct Hcr as (_ & Hl).
    inversion Hl as [|r l Hc _]; subst. rewrite Hc. reflexivity.
  - destruct (loop_return D _ _ _ I E)
      as (earlier & fx & Hr & _ & _ & _ & _ & Hc & _).
    rewrite H0 in Hr. simpl app in Hr. cbn [web_view snd].
    rewrite Hr, web_root_last, Hc. reflexivity.
  - reflexivity.
Qed.

Lemma web_bisection_pass (f : func num) (tol : num) (i : Z)
  (s : bisection_locals) :
  web_bisection_body f tol i s = web_pass (bisection_body f tol i s).
Proof. unfold web_bisection_body, bisection_body. web_body. Qed.

Lemma web_regula_pass (inf : num) (f : func num) (tol : num) (i : Z)
  (s : regula_locals) :
  web_regula_body inf f tol i s = web_pass (regula_falsi_body inf f tol i s).
Proof.
  unfold web_regula_body, regula_falsi_body. web_body.
Qed.

Lemma web_secant_pass (f : func num) (tol : num) (i : Z)
  (s : secant_locals) :
  web_secant_body f tol i s = web_pass (secant_body f tol i s).
Proof. unfold web_secant_body, secant_body. web_body. Qed.

Lemma web_newton_pass (h : num) (f : func num) (tol : num) (i : Z)
  (s : iterate_locals) :
  web_newton_body h f tol i s = web_pass (newton_raphson_body h f tol i s).
Proof. unfold web_newton_body, newton_raphson_body. web_body. Qed.

Lemma web_modified_pass (h : num) (f : func num) (delta tol : num) (i : Z)
  (s : iterate_locals) :
  web_modified_body h f delta tol i s =
  web_pass (modified_secant_body h f delta tol i s).
Proof.
  unfold web_modified_body, modified_secant_body.
  destruct (negb (eqb (it_x s) zero)); web_body.
Qed.

Lemma web_fixed_pass (g : func num) (tol : num) (i : Z)
  (s : iterate_locals) :
  web_fixed_body g tol i s = web_pass (fixed_point_iteration_body g tol i s).
Proof.
  unfold web_fixed_body, fixed_point_iteration_body. web_body.
Qed.
End WebFacts.

Section WebAgreement.
Context {num : Type} {A : Arith num}.
Variable max_iter : Z.
Hypothesis positive : (1 <= max_iter)%Z.

Lemma web_bisection_view (f : func num) (a b tol : num) :
  web_bisection f a b tol max_iter =
  web_view (residual_or_error tol) (bisection f a b tol max_iter).
Proof.
  unfold web_bisection, bisection, bisection_loop.
  destruct (call f a) as [fa|e] eqn:Ea; simpl.
  2:{ destruct (call_raise _ _ Ea) as (what & ->). reflexivity. }
  destruct (call f b) as [fb|e] eqn:Eb; simpl.
  2:{ destruct (call_raise _ _ Eb) as (what & ->). reflexivity. }
  destruct (ltb zero (mul fa fb)); [reflexivity|].
  eapply web_run;
    [apply bisection_discipline | apply web_bisection_pass | reflexivity
    | exact positive].
Qed.

Lemma web_regula_view (inf : num) (f : func num) (a b tol : num) :
  web_regula inf f a b tol max_iter =
  web_view (residual_or_error tol) (regula_falsi inf f a b tol max_iter).
Proof.
  unfold web_regula, regula_falsi, regula_falsi_loop.
  destruct (call f a) as [fa|e] eqn:Ea; simpl.
  2:{ destruct (call_raise _ _ Ea) as (what & ->). reflexivity. }
  destruct (call f b) as [fb|e] eqn:Eb; simpl.
  2:{ destruct (call_raise _ _ Eb) as (what & ->). reflexivity. }
  destruct (ltb zero (mul fa fb)); [reflexivity|].
  eapply web_run;
    [apply regula_falsi_discipline | apply web_regula_pass | reflexivity
    | exact positive].
Qed.

Lemma web_secant_view (f : func num) (x0 x1 tol : num) :
  web_secant f x0 x1 tol max_iter =
  web_view (residual_or_error tol) (secant f x0 x1 tol max_iter).
Proof.
  eapply web_run;
    [apply secant_discipline | apply web_secant_pass | reflexivity
    | exact positive].
Qed.

Lemma web_newton_view (h : num) (f : func num) (x0 tol : num) :
  web_newton h f x0 tol max_iter =
  web_view (residual_or_error tol) (newton_raphson h f x0 tol max_iter).
Proof.
  eapply web_run;
    [apply newton_raphson_discipline | apply web_newton_pass | reflexivity
    | exact positive].
Qed.

Lemma web_fixed_view (g : func num) (x0 tol : num) :
  web_fixed g x0 tol max_iter =
  web_view (error_only tol) (fixed_point_iteration g x0 tol max_iter).
Proof.
  eapply web_run;
    [apply fixed_point_iteration_discipline | apply web_fixed_pass | reflexivity
    | exact positive].
Qed.

Lemma web_modified_view (h : num) (f : func num) (x0 delta tol : num) :
  web_modified h f x0 delta tol max_iter =
  web_view (residual_or_error tol)
    (modified_secant h f x0 delta tol max_iter).
Proof.
  eapply web_run;
    [apply modified_secant_discipline | apply web_modified_pass | reflexivity
    | exact positive].
Qed.
End WebAgreement.

Section RunMethodFacts.
Variable parse_function : string -> func float.
Variable py_float : string -> option float.
Variable py_int_of_string : string -> option Z.

(** X14: with a cap of at least 1, [run_method] answers as the command-line
    function of the same method does: the same rows; as root its estimate
    when the last row meets the test, and no root otherwise; and as error
    its exception, under the message of the web loop. *)
Theorem run_method_agrees_with_command_line
  (fexpr gexpr : string) (params : form)
  (tol a b x0 x1 delta : float) (max_iter : Z) :
  int_param_or py_int_of_string params "max_iter" 100 = inr max_iter ->
  float_param_or py_float params "tol" lit_1e_6 = inr tol ->
  (1 <= max_iter)%Z ->
  (float_param py_float params "a" = inr a ->
   float_param py_float params "b" = inr b ->
   run_method parse_function py_float py_int_of_string
     "bisection" fexpr params =
   inr (web_view (residual_or_error tol)
          (bisection (parse_function fexpr) a b tol max_iter)) /\
   run_method parse_function py_float py_int_of_string
     "regula" fexpr params =
   inr (web_view (residual_or_error tol)
          (regula_falsi float_inf (parse_function fexpr) a b tol max_iter)))
  /\
  (float_param py_float params "x0" = inr x0 ->
   (float_param py_float params "x1" = inr x1 ->
    run_method parse_function py_float py_int_of_string
      "secant" fexpr params =
    inr (web_view (residual_or_error tol)
           (secant (parse_function fexpr) x0 x1 tol max_iter))) /\
   run_method parse_function py_float py_int_of_string
     "newton" fexpr params =
   inr (web_view (residual_or_error tol)
          (newton_raphson lit_1e_6 (parse_function fexpr) x0 tol max_iter)) /\
   (lookup params "g" = Some gexpr ->
    run_method parse_function py_float py_int_of_string
      "fixed" fexpr params =
    inr (web_view (error_only tol)
           (fixed_point_iteration (parse_function gexpr) x0 tol max_iter))) /\
   (float_param_or py_float params "delta" lit_1e_3 = inr delta ->
    run_method parse_function py_float py_int_of_string
      "modified" fexpr params =
    inr (web_view (residual_or_error tol)
           (modified_secant lit_1e_6 (parse_function fexpr)
              x0 delta tol max_iter)))).
Proof.
  intros Hm Ht Hpos. unfold run_method. rewrite Hm, Ht.
  cbn [String.eqb Ascii.eqb Bool.eqb].
  split.
  - intros Ha Hb. rewrite Ha, Hb. cbn [caught].
    rewrite (web_bisection_view Hpos), (web_regula_view Hpos). auto.
  - intros Hx0. rewrite Hx0. cbn [caught]. split; [|split; [|split]].
    + intros Hx1. rewrite Hx1. cbn [caught]. rewrite (web_secant_view Hpos).
      reflexivity.
    + rewrite (web_newton_view Hpos). reflexivity.
    + intros Hg. rewrite Hg. rewrite (web_fixed_view Hpos). reflexivity.
    + intros Hd. rewrite Hd. cbn [caught].
      rewrite (web_modified_view Hpos). reflexivity.
Qed.
End RunMethodFacts.

Section WebShape.
Context {num : Type} {A : Arith num}.

Lemma web_return_shape (S : Type) (rows_of : S -> list (row num))
  (rest : Z -> S -> result (solve_result num))
  (body : Z -> S -> result (outcome S (solve_result num)))
  (wbody : Z -> S -> result (outcome S (web_break num)))
  (crit : row num -> bool) (P : row num -> Prop)
  (n : nat) (s0 : S) (rows : list (row num)) (root : option num) :
  row_discipline rows_of rest body crit P (@no_invariant S) ->
  (forall i s, wbody i s = web_pass (body i s)) ->
  rows_of s0 = [] ->
  web_return rows_of (for_range wbody n 1 s0) = Rows rows root ->
  web_shape crit rows root.
Proof.
  intros D Hb H0 H. rewrite (for_range_web_pass _ _ Hb) in H.
  destruct (for_range body n 1 s0) as [[s|[[[x e] k] rows']]|e0] eqn:E;
    cbn [web_pass web_return] in H; inversion H; subst; clear H.
  - destruct (loop_continue D _ _ _ I E)
      as (_ & new & Hnew & _ & Hnum & Hcr & _).
    rewrite H0 in Hnew. simpl app in Hnew. rewrite Hnew.
    split; assumption.
  - destruct (loop_return D _ _ _ I E)
      as (earlier & fx & Hr & _ & Hk & Hnum & Hcr & Hc & _).
    rewrite H0 in Hr. simpl app in Hr. subst k rows. split.
    + apply numbered_app. split; [exact Hnum|]. split; [reflexivity|exact I].
    + exists earlier, fx, e. auto.
Qed.

Lemma web_bisection_shape (f : func num) (a b tol : num) (max_iter : Z)
  (rows : list (row num)) (root : option num) :
  web_bisection f a b tol max_iter = Rows rows root ->
  web_shape (residual_or_error tol) rows root.
Proof.
  unfold web_bisection.
  destruct (call f a) as [fa|e]; [|discriminate].
  destruct (call f b) as [fb|e]; [|discriminate].
  cbn [bind]. destruct (ltb zero (mul fa fb)); [discriminate|].
  apply web_return_shape with (rest := bisection_return)
    (body := bisection_body f tol) (P := records_value f);
    [apply bisection_discipline | apply web_bisection_pass | reflexivity].
Qed.

Lemma web_regula_shape (inf : num) (f : func num) (a b tol : num)
  (max_iter : Z) (rows : list (row num)) (root : option num) :
  web_regula inf f a b tol max_iter = Rows rows root ->
  web_shape (residual_or_error tol) rows root.
Proof.
  unfold web_regula.
  destruct (call f a) as [fa|e]; [|discriminate].
  destruct (call f b) as [fb|e]; [|discriminate].
  cbn [bind]. destruct (ltb zero (mul fa fb)); [discriminate|].
  apply web_return_shape with (rest := regula_falsi_return)
    (body := regula_falsi_body inf f tol) (P := records_value f);
    [apply regula_falsi_discipline | apply web_regula_pass | reflexivity].
Qed.

Lemma web_secant_shape (f : func num) (x0 x1 tol : num) (max_iter : Z)
  (rows : list (row num)) (root : option num) :
  web_secant f x0 x1 tol max_iter = Rows rows root ->
  web_shape (residual_or_error tol) rows root.
Proof.
  apply web_return_shape with (rest := secant_return)
    (body := secant_body f tol) (P := records_value f);
    [apply secant_discipline | apply web_secant_pass | reflexivity].
Qed.

Lemma web_newton_shape (h : num) (f : func num) (x0 tol : num)
  (max_iter : Z) (rows : list (row num)) (root : option num) :
  web_newton h f x0 tol max_iter = Rows rows root ->
  web_shape (residual_or_error tol) rows root.
Proof.
  apply web_return_shape with (rest := iterate_return)
    (body := newton_raphson_body h f tol) (P := records_value f);
    [apply newton_raphson_discipline | apply web_newton_pass | reflexivity].
Qed.

Lemma web_fixed_shape (g : func num) (x0 tol : num) (max_iter : Z)
  (rows : list (row num)) (root : option num) :
  web_fixed g x0 tol max_iter = Rows rows root ->
  web_shape (error_only tol) rows root.
Proof.
  apply web_return_shape with (rest := iterate_return)
    (body := fixed_point_iteration_body g tol) (P := @records_no_value num);
    [apply fixed_point_iteration_discipline | apply web_fixed_pass
    | reflexivity].
Qed.

Lemma web_modified_shape (h : num) (f : func num) (x0 delta tol : num)
  (max_iter : Z) (rows : list (row num)) (root : option num) :
  web_modified h f x0 delta tol max_iter = Rows rows root ->
  web_shape (residual_or_error tol) rows root.
Proof.
  apply web_return_shape with (rest := iterate_return)
    (body := modified_secant_body h f delta tol) (P := records_value f);
    [apply modified_secant_discipline | apply web_modified_pass
    | reflexivity].
Qed.
End WebShape.

Section RunMethodShape.
Variable parse_function : string -> func float.
Variable py_float : string -> option float.
Variable py_int_of_string : string -> option Z.

Lemma caught_Rows (B : Type) (v : web_failure + B)
  (k : B -> web_response float) (rows : list (row float))
  (root : option float) :
  caught v k = Rows rows root -> exists b, v = inr b /\ k b = Rows rows root.
Proof.
  destruct v as [why|b]; [discriminate|]. intros H. exists b. auto.
Qed.

(** X16: in a dictionary [{"rows": rows, "root": root}] that [run_method]
    returns the rows are numbered from 1; a root is the iterate of the last
    row, the only row that meets the test of the method; and without a root
    no row meets it. *)
Theorem run_method_root_is_last_row
  (method fexpr : string) (params : form)
  (rows : list (row float)) (root : option float) :
  run_method parse_function py_float py_int_of_string method fexpr params =
  inr (Rows rows root) ->
  exists tol,
    float_param_or py_float params "tol" lit_1e_6 = inr tol /\
    web_shape (web_test method tol) rows root.
Proof.
  unfold run_method, web_test.
  destruct (int_param_or py_int_of_string params "max_iter" 100)
    as [why|max_iter]; [discriminate|].
  destruct (float_param_or py_float params "tol" lit_1e_6)
    as [why|tol]; [discriminate|].
  intros H. exists tol. split; [reflexivity|].
  inversion H as [H']; clear H.
  destruct (method =? "fixed")%string eqn:Efixed.
  { apply String.eqb_eq in Efixed. subst method.
    cbn [String.eqb Ascii.eqb Bool.eqb] in H'.
    destruct (lookup params "g") as [gexpr|]; [|discriminate].
    apply caught_Rows in H'. destruct H' as (x0 & _ & H').
    eapply web_fixed_shape. exact H'. }
  destruct (method =? "bisection")%string.
  { apply caught_Rows in H'. destruct H' as (a & _ & H').
    apply caught_Rows in H'. destruct H' as (b & _ & H').
    eapply web_bisection_shape. exact H'. }
  destruct (method =? "regula")%string.
  { apply caught_Rows in H'. destruct H' as (a & _ & H').
    apply caught_Rows in H'. destruct H' as (b & _ & H').
    eapply web_regula_shape. exact H'. }
  destruct (method =? "secant")%string.
  { apply caught_Rows in H'. destruct H' as (x0 & _ & H').
    apply caught_Rows in H'. destruct H' as (x1 & _ & H').
    eapply web_secant_shape. exact H'. }
  destruct (method =? "newton")%string.
  { apply caught_Rows in H'. destruct H' as (x0 & _ & H').
    eapply web_newton_shape. exact H'. }
  destruct (method =? "modified")%string.
  { apply caught_Rows in H'. destruct H' as (x0 & _ & H').
    apply caught_Rows in H'. destruct H' as (delta & _ & H').
    eapply web_modified_shape. exact H'. }
  inversion H'; subst. split; [exact I|constructor].
Qed.

(** X15: [run_method] answers with no rows and no root when the method is
    none of the six, and when the cap is not positive and the method needs
    no bracket: no loop runs and the function is not evaluated. *)
Theorem run_method_empty_answer
  (method fexpr gexpr : string) (params : form)
  (tol x0 x1 delta : float) (max_iter : Z) :
  int_param_or py_int_of_string params "max_iter" 100 = inr max_iter ->
  float_param_or py_float params "tol" lit_1e_6 = inr tol ->
  (~ In method ["bisection"; "regula"; "secant"; "newton"; "fixed";
                "modified"]%string ->
   run_method parse_function py_float py_int_of_string method fexpr params =
   inr (Rows [] None)) /\
  ((max_iter <= 0)%Z ->
   float_param py_float params "x0" = inr x0 ->
   (float_param py_float params "x1" = inr x1 ->
    run_method parse_function py_float py_int_of_string
      "secant" fexpr params = inr (Rows [] None)) /\
   run_method parse_function py_float py_int_of_string
     "newton" fexpr params = inr (Rows [] None) /\
   (lookup params "g" = Some gexpr ->
    run_method parse_function py_float py_int_of_string
      "fixed" fexpr params = inr (Rows [] None)) /\
   (float_param_or py_float params "delta" lit_1e_3 = inr delta ->
    run_method parse_function py_float py_int_of_string
      "modified" fexpr params = inr (Rows [] None))).
Proof.
  intros Hm Ht. split.
  - intros Hnot. unfold run_method. rewrite Hm, Ht.
    assert (Hne : forall name, In name
              ["bisection"; "regula"; "secant"; "newton"; "fixed";
               "modified"]%string -> (method =? name)%string = false).
    { intros name Hin. apply String.eqb_neq. intros ->. exact (Hnot Hin). }
    rewrite !Hne by (simpl; tauto). reflexivity.
  - intros Hle Hx0. unfold run_method. rewrite Hm, Ht, Hx0.
    cbn [String.eqb Ascii.eqb Bool.eqb caught].
    unfold web_secant, web_newton, web_fixed, web_modified.
    replace (Z.to_nat max_iter) with O by lia. cbn [for_range web_return].
    split; [|split; [|split]].
    + intros Hx1. rewrite Hx1. reflexivity.
    + reflexivity.
    + intros Hg. rewrite Hg. reflexivity.
    + intros Hd. rewrite Hd. reflexivity.
Qed.
End RunMethodShape.

(** ** Regula falsi in exact arithmetic: iterates stay in the bracket *)

Section RegulaPass.
Context {num : Type} {A : Arith num}.

(** A pass of [regula_falsi]: where the secant line crosses zero, and which
    part of the bracket is kept. *)
Lemma regula_falsi_body_narrows (inf : num) (f : func num) (tol : num)
  (i : Z) (s : regula_locals)
  (o : outcome regula_locals (solve_result num)) :
  regula_falsi_body inf f tol i s = Ok o ->
  let c := div (sub (mul (reg_a s) (reg_fb s)) (mul (reg_b s) (reg_fa s)))
               (sub (reg_fb s) (reg_fa s)) in
  eqb (sub (reg_fb s) (reg_fa s)) zero = false /\
  exists fc err,
    f c = inr fc /\
    match o with
    | Continue s' =>
        ltb (abs fc) tol || ltb err tol = false /\
        reg_rows s' = reg_rows s ++ [(i, c, Some fc, err)] /\
        reg_c s' = c /\ reg_err s' = Some err /\
        ((ltb (mul (reg_fa s) fc) zero = true /\
          reg_a s' = reg_a s /\ reg_b s' = c /\
          reg_fa s' = reg_fa s /\ reg_fb s' = fc) \/
         (ltb (mul (reg_fa s) fc) zero = false /\
          reg_a s' = c /\ reg_b s' = reg_b s /\
          reg_fa s' = fc /\ reg_fb s' = reg_fb s))
    | Return res =>
        ltb (abs fc) tol || ltb err tol = true /\
        res = (c, err, i, reg_rows s ++ [(i, c, Some fc, err)])
    end.
Proof.
  intros H c. unfold regula_falsi_body, truediv in H. fold c in H.
  destruct (eqb (sub (reg_fb s) (reg_fa s)) zero) eqn:Ez;
    [discriminate|].
  split; [reflexivity|]. cbn [bind] in H.
  destruct (call f c) as [fc|e] eqn:E; cbn [bind] in H; [|discriminate].
  apply call_Ok in E. exists fc. eexists. split; [exact E|].
  destruct (_ || _) eqn:Ec.
  - inversion H; subst o. split; [exact Ec|reflexivity].
  - destruct (ltb (mul (reg_fa s) fc) zero) eqn:El;
      inversion H; subst o; cbn; auto 10.
Qed.
End RegulaPass.

Section RegulaInside.
Open Scope Q_scope.

(** The zero of the line through [(p, fp)] and [(q, fq)] lies between [p]
    and [q] when [fp] and [fq] do not have the same strict sign. *)
Lemma secant_zero_between (p q fp fq : Q) :
  fp * fq <= 0 -> ~ fp == 0 -> ~ fq - fp == 0 ->
  between p q ((p * fq - q * fp) / (fq - fp)).
Proof.
  intros Hs Hp Hd.
  set (t := - fp / (fq - fp)).
  assert (Hc : (p * fq - q * fp) / (fq - fp) == p + t * (q - p))
    by (unfold t; field; exact Hd).
  assert (Ht : 0 <= t /\ t <= 1).
  { unfold t. destruct (Qlt_le_dec 0 fp) as [Hpos|Hneg].
    - assert (Hq : fq <= 0).
      { destruct (Qlt_le_dec 0 fq) as [H|H]; [|exact H]. exfalso. nra. }
      assert (Hd' : fq - fp < 0) by lra.
      setoid_replace (- fp / (fq - fp)) with (fp / (fp - fq))
        by (field; split; lra).
      split.
      + apply Qle_shift_div_l; lra.
      + apply Qle_shift_div_r; lra.
    - assert (Hlt : fp < 0).
      { destruct (Qlt_le_dec fp 0) as [H|H]; [exact H|].
        exfalso. apply Hp. lra. }
      assert (Hq : 0 <= fq).
      { destruct (Qlt_le_dec fq 0) as [H|H]; [|exact H]. exfalso. nra. }
      split.
      + apply Qle_shift_div_l; lra.
      + apply Qle_shift_div_r; lra. }
  destruct Ht as (H0 & H1). unfold between. rewrite Hc.
  destruct (Qlt_le_dec p q) as [Hpq|Hpq].
  - left. split; nra.
  - right. split; nra.
Qed.

Lemma between_trans (a b p q c : Q) :
  between a b p -> between a b q -> between p q c -> between a b c.
Proof.
  unfold between. intros [Hp|Hp] [Hq|Hq] [Hc|Hc];
    first [left; split; lra | right; split; lra].
Qed.

Lemma regula_falsi_inside_discipline (inf : Q) (f : func Q) (a b tol : Q) :
  0 < tol ->
  row_discipline reg_rows regula_falsi_return (regula_falsi_body inf f tol)
    (residual_or_error tol) (inside a b) (regula_keeps_sign_change f a b).
Proof.
  intros Ht. split.
  - intros i s s' (Hfa & Hfb & Hs & Hnz & Hba & Hbb) H.
    destruct (regula_falsi_body_narrows _ _ _ _ _ H)
      as (Hd & fc & err & Hf & Hc & Hrows & Hc' & He & Hn).
    assert (Hin : between a b
              ((reg_a s * reg_fb s - reg_b s * reg_fa s) /
               (reg_fb s - reg_fa s))).
    { apply between_trans with (p := reg_a s) (q := reg_b s); auto.
      apply secant_zero_between; auto.
      intros Hz. simpl in Hd. apply Qeq_bool_neq in Hd. exact (Hd Hz). }
    pose proof Hc as Hc2.
    apply orb_false_iff in Hc2. destruct Hc2 as (Hres & Herr).
    pose proof (residual_above_tolerance Ht Hres) as Hfc.
    split.
    { destruct Hn as [(Hl & Ha' & Hb' & Hfa' & Hfb')
                     |(Hl & Ha' & Hb' & Hfa' & Hfb')];
        unfold regula_keeps_sign_change; rewrite Ha', Hb', Hfa', Hfb'.
      - apply exact_ltb_true in Hl. simpl in Hl.
        repeat split; auto. lra.
      - apply exact_not_ltb in Hl. simpl in Hl.
        repeat split; auto.
        apply (same_sign_keeps_change Hs Hl Hnz Hfc). }
    do 3 eexists. split; [exact Hrows|].
    split; [exact Hc|]. split; [exact Hin|].
    intros m. unfold regula_falsi_return. rewrite Hc', He. reflexivity.
  - intros i s x e n rows (Hfa & Hfb & Hs & Hnz & Hba & Hbb) H.
    destruct (regula_falsi_body_narrows _ _ _ _ _ H)
      as (Hd & fc & err & Hf & Hc & Hres).
    inversion Hres; subst. split; [reflexivity|].
    eexists. split; [reflexivity|]. split; [exact Hc|].
    apply between_trans with (p := reg_a s) (q := reg_b s); auto.
    apply secant_zero_between; auto.
    intros Hz. simpl in Hd. apply Qeq_bool_neq in Hd. exact (Hd Hz).
Qed.

(** X19: in exact arithmetic, with a tolerance above zero and [f(a)] not
    zero, every iterate [regula_falsi] records, and the estimate it
    returns, lies in the bracket it was given. *)
Theorem regula_falsi_stays_in_bracket
  (inf : Q) (f : func Q) (a b tol : Q) (max_iter : Z)
  (x err : Q) (n : Z) (rows : list (row Q)) (fa : Q) :
  0 < tol -> f a = inr fa -> ~ fa == 0 ->
  regula_falsi inf f a b tol max_iter = Ok (x, err, n, rows) ->
  between a b x /\ Forall (fun r => between a b (row_x r)) rows.
Proof.
  intros Ht Ha Hnz H.
  assert (Hm : (1 <= max_iter)%Z).
  { destruct (Z_le_gt_dec max_iter 0) as [Hm|Hm]; [|lia].
    exfalso. exact (regula_falsi_empty_range_no_result Hm _ _ _ _ _ H). }
  apply regula_falsi_Ok_inv in H.
  destruct H as (fa' & fb & Ha' & Hb & Hs & H).
  assert (fa' = fa) by congruence. subst fa'.
  assert (HI : regula_keeps_sign_change f a b 1
                 (regula_falsi_init a b fa fb)).
  { unfold regula_keeps_sign_change. simpl. apply exact_not_ltb in Hs.
    simpl in Hs. destruct (between_ends a b). repeat split; auto. }
  destruct (run_first_stop (regula_falsi_inside_discipline inf f a b Ht)
              (regula_falsi_init a b fa fb) HI eq_refl Hm H)
    as (Hfs & _ & HP).
  cbn [snd] in HP. split; [|exact HP].
  destruct Hfs as (_ & earlier & fx & Hr & _).
  rewrite Hr in HP. apply Forall_app in HP.
  destruct HP as (_ & HP). inversion HP as [|r l Hlast _]; subst.
  exact Hlast.
Qed.
End RegulaInside.

(** ** The table of a fixed-point run *)

Lemma print_iteration_table_no_value (earlier : list (row float))
  (r : row float) :
  row_fx r = None ->
  print_iteration_table (earlier ++ [r]) =
  Raise (TypeError
           "unsupported format string passed to NoneType.__format__").
Proof.
  intros H. unfold print_iteration_table.
  rewrite forallb_app. cbn [forallb]. rewrite H.
  rewrite !andb_false_r. reflexivity.
Qed.

Lemma report_no_value (x e : float) (n : Z) (earlier : list (row float))
  (r : row float) :
  row_fx r = None ->
  report (Ok (x, e, n, earlier ++ [r])) =
  Raise (TypeError
           "unsupported format string passed to NoneType.__format__").
Proof.
  intros H. unfold report. cbn [bind snd].
  rewrite (@print_iteration_table_no_value earlier r H). reflexivity.
Qed.

Lemma report_fixed_point_iteration (g : func float) (x0 tol : float)
  (max_iter : Z) :
  report (fixed_point_iteration g x0 tol max_iter) =
  match fixed_point_iteration g x0 tol max_iter with
  | Ok _ =>
      Raise (TypeError
               "unsupported format string passed to NoneType.__format__")
  | Raise e => Raise e
  end.
Proof.
  destruct (fixed_point_iteration g x0 tol max_iter)
    as [[[[x e] n] rows]|e] eqn:H; [|reflexivity].
  assert (Hm : (1 <= max_iter)%Z).
  { destruct (Z_le_gt_dec max_iter 0) as [Hm|Hm]; [|lia].
    rewrite (fixed_point_iteration_empty_range Hm) in H. discriminate. }
  destruct (fixed_point_iteration_trace _ _ _ Hm H) as (Hfs & _ & HP).
  destruct Hfs as (_ & earlier & fx & Hr & _).
  cbn [snd] in HP. rewrite Hr in HP. apply Forall_app in HP.
  destruct HP as (_ & HP). inversion HP as [|r l Hlast _]; subst.
  exact (@report_no_value x e n earlier (n, x, fx, e) Hlast).
Qed.

(** X20: [main] never prints the result of method 5.  Once the prompts are
    answered, either [fixed_point_iteration] raises, and [main] ends with
    its exception, or it returns, and [print_iteration_table] raises a
    [TypeError] on the [None] that its rows hold for [f(x)]. *)
Theorem main_fixed_point_ends_in_an_exception
  (parse_function : string -> func float) (py_float : string -> option float)
  (expr gexpr : string) (stdin s1 s2 s3 s4 : list string)
  (c tol m x0 : float) (max_iter : Z) :
  get_float py_float (Some 1%float) stdin = Some (c, s1) ->
  py_int c = Ok 5%Z ->
  get_float py_float (Some lit_1e_6) s1 = Some (tol, s2) ->
  get_float py_float (Some 100%float) s2 = Some (m, gexpr :: s3) ->
  py_int m = Ok max_iter ->
  get_float py_float None s3 = Some (x0, s4) ->
  main parse_function py_float (expr :: stdin) =
  Some
    match fixed_point_iteration (parse_function gexpr) x0 tol max_iter with
    | Ok _ =>
        Raise (TypeError
                 "unsupported format string passed to NoneType.__format__")
    | Raise e => Raise e
    end.
Proof.
  intros Hc Hci Ht Hm Hmi Hx.
  cbn [main]. unfold main_solve. rewrite Hc, Hci, Ht, Hm, Hmi.
  cbn [Z.eqb Pos.eqb]. rewrite Hx.
  rewrite report_fixed_point_iteration. reflexivity.
Qed.

(** ** The further properties on sample runs *)

(** X1 on a run: [x*x-2] never raises, and bisection over [0, 2] with a cap
    of 5 returns a result. *)
Lemma bisection_returns_for_total_function_witness :
  total f_square /\ (1 <= 5)%Z /\
  (bisection f_square 0%float 2%float lit_1e_6 5 = Raise invalid_bracket \/
   exists res, bisection f_square 0%float 2%float lit_1e_6 5 = Ok res).
Proof.
  assert (Ht : total f_square) by (intros x; eexists; reflexivity).
  assert (Hm : (1 <= 5)%Z) by (intros H; discriminate H).
  split; [exact Ht|]. split; [exact Hm|].
  exact (@bisection_returns_for_total_function float float_arith
           f_square 0%float 2%float lit_1e_6 5%Z Ht Hm).
Defined.

(** X2 on a run: fixed-point iteration of [2*x] from 1 with a cap of 5
    returns a result. *)
Lemma fixed_point_iteration_returns_for_total_function_witness :
  total g_double /\ (1 <= 5)%Z /\
  exists res, fixed_point_iteration g_double 1%float lit_1e_6 5 = Ok res.
Proof.
  assert (Ht : total g_double) by (intros x; eexists; reflexivity).
  assert (Hm : (1 <= 5)%Z) by (intros H; discriminate H).
  split; [exact Ht|]. split; [exact Hm|].
  exact (@fixed_point_iteration_returns_for_total_function float float_arith
           g_double 1%float lit_1e_6 5%Z Ht Hm).
Defined.

(** X3 on a run: secant on [x*x-2] from the seeds 1 and 1 raises its
    zero-denominator error. *)
Lemma secant_raises_only_witness :
  (1 <= 5)%Z /\
  secant f_square 1%float 1%float lit_1e_6 5 = Raise zero_denominator /\
  (zero_denominator = zero_denominator \/
   exists what, zero_denominator = RaisedByFunction what).
Proof.
  assert (Hm : (1 <= 5)%Z) by (intros H; discriminate H).
  assert (Hr : secant f_square 1%float 1%float lit_1e_6 5 =
               Raise zero_denominator) by (vm_compute; reflexivity).
  split; [exact Hm|]. split; [exact Hr|].
  exact (@secant_raises_only float float_arith
           f_square 1%float 1%float lit_1e_6 5%Z zero_denominator Hm Hr).
Defined.

(** X4 on a run: Newton-Raphson on the constant 5 raises its zero-derivative
    error. *)
Lemma newton_raphson_raises_only_witness :
  (1 <= 5)%Z /\
  newton_raphson lit_1e_6 f_constant 1%float lit_1e_6 5 =
    Raise zero_derivative /\
  (zero_derivative = zero_derivative \/
   exists what, zero_derivative = RaisedByFunction what).
Proof.
  assert (Hm : (1 <= 5)%Z) by (intros H; discriminate H).
  assert (Hr : newton_raphson lit_1e_6 f_constant 1%float lit_1e_6 5 =
               Raise zero_derivative) by (vm_compute; reflexivity).
  split; [exact Hm|]. split; [exact Hr|].
  exact (@newton_raphson_raises_only
           f_constant 1%float lit_1e_6 5%Z zero_derivative Hm Hr).
Defined.

(** X5 on a run: regula falsi on [x*x-1] over [-1, 1], where both endpoint
    values are zero, raises Python's own division error. *)
Lemma regula_falsi_raises_only_witness :
  (1 <= 5)%Z /\
  regula_falsi float_inf f_square_minus_one (-1)%float 1%float lit_1e_6 5 =
    Raise native_zero_division /\
  (native_zero_division = invalid_bracket \/
   native_zero_division = native_zero_division \/
   exists what, native_zero_division = RaisedByFunction what).
Proof.
  assert (Hm : (1 <= 5)%Z) by (intros H; discriminate H).
  assert (Hr : regula_falsi float_inf f_square_minus_one
                 (-1)%float 1%float lit_1e_6 5 =
               Raise native_zero_division) by (vm_compute; reflexivity).
  split; [exact Hm|]. split; [exact Hr|].
  exact (@regula_falsi_raises_only float float_arith float_inf
           f_square_minus_one (-1)%float 1%float lit_1e_6 5%Z
           native_zero_division Hm Hr).
Defined.

(** X6 on a run: [x*x-1] over [-1, 1]; both endpoint values are zero, the
    bracket is accepted and the first pass divides by zero. *)
Lemma regula_falsi_equal_endpoint_values_witness :
  (1 <= 100)%Z /\
  f_square_minus_one (-1)%float = inr 0%float /\
  f_square_minus_one 1%float = inr 0%float /\
  PrimFloat.ltb 0 (0 * 0) = false /\ PrimFloat.eqb (0 - 0) 0 = true /\
  regula_falsi float_inf f_square_minus_one (-1)%float 1%float lit_1e_6 100 =
    Raise native_zero_division.
Proof.
  assert (Hm : (1 <= 100)%Z) by (intros H; discriminate H).
  split; [exact Hm|]. split; [reflexivity|]. split; [reflexivity|].
  split; [reflexivity|]. split; [reflexivity|].
  exact (@regula_falsi_equal_endpoint_values float float_arith float_inf
           f_square_minus_one (-1)%float 1%float lit_1e_6 0%float 0%float
           100%Z Hm eq_refl eq_refl eq_refl eq_refl).
Defined.

(** X7 on a run: modified secant on the constant 5 raises its
    zero-derivative-approximation error. *)
Lemma modified_secant_raises_only_witness :
  (1 <= 5)%Z /\
  modified_secant lit_1e_6 f_constant 1%float lit_1e_3 lit_1e_6 5 =
    Raise zero_derivative_approximation /\
  (zero_derivative_approximation = zero_derivative_approximation \/
   zero_derivative_approximation = native_zero_division \/
   exists what, zero_derivative_approximation = RaisedByFunction what).
Proof.
  assert (Hm : (1 <= 5)%Z) by (intros H; discriminate H).
  assert (Hr : modified_secant lit_1e_6 f_constant 1%float lit_1e_3
                 lit_1e_6 5 = Raise zero_derivative_approximation)
    by (vm_compute; reflexivity).
  split; [exact Hm|]. split; [exact Hr|].
  exact (@modified_secant_raises_only float float_arith lit_1e_6
           f_constant 1%float lit_1e_3 lit_1e_6 5%Z
           zero_derivative_approximation Hm Hr).
Defined.

(** X8 on a run: modified secant on [x*x-2] from 1 with [delta = 0]. *)
Lemma modified_secant_zero_perturbation_witness :
  (1 <= 5)%Z /\ PrimFloat.eqb 1 0 = false /\
  f_square 1%float = inr (-1)%float /\
  f_square (1 + 0 * 1)%float = inr (-1)%float /\
  PrimFloat.eqb (0 * 1) 0 = true /\
  modified_secant lit_1e_6 f_square 1%float 0%float lit_1e_6 5 =
    Raise native_zero_division.
Proof.
  assert (Hm : (1 <= 5)%Z) by (intros H; discriminate H).
  split; [exact Hm|]. split; [reflexivity|]. split; [reflexivity|].
  split; [reflexivity|]. split; [reflexivity|].
  exact (@modified_secant_zero_perturbation float float_arith lit_1e_6
           f_square 1%float 0%float lit_1e_6 (-1)%float (-1)%float 5%Z
           Hm eq_refl eq_refl eq_refl eq_refl).
Defined.

(** X9 on a run: fixed-point iteration of the constant 5 from 1 returns at
    its second pass; its two rows hold [g(1)] and [g(g(1))]. *)
Lemma fixed_point_rows_are_iterates_witness :
  fixed_point_iteration f_constant 1%float lit_1e_6 100 =
    Ok (5, 0, 2%Z, [(1%Z, 5, None, 4); (2%Z, 5, None, 0)])%float /\
  iterate f_constant 2 1%float = Ok 5%float /\
  forall k r,
    nth_error [(1%Z, 5, None, 4); (2%Z, 5, None, 0)]%float k = Some r ->
    exists prev,
      iterate f_constant k 1%float = Ok prev /\
      f_constant prev = inr (row_x r) /\
      row_err r = abs (sub (row_x r) prev).
Proof.
  assert (Hr : fixed_point_iteration f_constant 1%float lit_1e_6 100 =
               Ok (5, 0, 2%Z, [(1%Z, 5, None, 4); (2%Z, 5, None, 0)])%float)
    by (vm_compute; reflexivity).
  split; [exact Hr|].
  exact (@fixed_point_rows_are_iterates float float_arith
           f_constant 1%float lit_1e_6 100%Z 5%float 0%float 2%Z
           [(1%Z, 5, None, 4); (2%Z, 5, None, 0)]%float Hr).
Defined.

(** X10 on a run: exact bisection of [10*x-3] over [0, 1] with tolerance
    1/4. *)
Lemma bisection_brackets_a_sign_change_witness :
  (0 < 1 # 4)%Q /\ q_linear 0%Q = inr (10 * 0 - 3)%Q /\
  ~ (10 * 0 - 3 == 0)%Q /\
  exists x err n rows,
    bisection q_linear 0%Q 1%Q (1 # 4)%Q 100 = Ok (x, err, n, rows) /\
    exists p q,
      sign_change q_linear p q /\ between 0 1 p /\ between 0 1 q /\
      (x == (p + q) / 2)%Q /\ (Qabs (x - p) == err)%Q /\
      (Qabs (x - q) == err)%Q.
Proof.
  assert (Ht : (0 < 1 # 4)%Q) by reflexivity.
  assert (Hn : ~ (10 * 0 - 3 == 0)%Q) by (intros H; discriminate H).
  split; [exact Ht|]. split; [reflexivity|]. split; [exact Hn|].
  let r := eval vm_compute in (bisection q_linear 0%Q 1%Q (1 # 4)%Q 100) in
  match r with
  | Ok (?x, ?e, ?n, ?rows) =>
      exists x, e, n, rows;
      assert (Hr : bisection q_linear 0%Q 1%Q (1 # 4)%Q 100 =
                   Ok (x, e, n, rows)) by (vm_compute; reflexivity);
      split; [exact Hr|];
      exact (@bisection_brackets_a_sign_change q_linear 0%Q 1%Q (1 # 4)%Q
               100%Z x e n rows (10 * 0 - 3)%Q Ht eq_refl Hn Hr)
  end.
Defined.

(** X13 on a run: the expression, then method number 0, and blank lines for
    the tolerance and the cap. *)
Lemma main_unknown_method_witness :
  get_float sample_float (Some 1%float) ["0"; ""; ""]%string =
    Some (0%float, [""; ""]%string) /\
  py_int 0%float = Ok 0%Z /\
  (0 < 1 \/ 6 < 0)%Z /\
  main sample_parse sample_float ["x*x-2"; "0"; ""; ""]%string =
    Some (Raise (UnboundLocalError "rows")).
Proof.
  assert (Hc : (0 < 1 \/ 6 < 0)%Z) by (left; reflexivity).
  split; [reflexivity|]. split; [reflexivity|]. split; [exact Hc|].
  exact (@main_unknown_method sample_parse sample_float "x*x-2"%string
           ["0"; ""; ""]%string [""; ""]%string [""]%string []
           0%float lit_1e_6 100%float 0%Z 100%Z
           eq_refl eq_refl eq_refl eq_refl eq_refl Hc).
Defined.

(** X14 on a run: the sample form, submitted for bisection. *)
Lemma run_method_agrees_with_command_line_witness :
  int_param_or sample_int sample_form "max_iter" 100 = inr 5%Z /\
  float_param_or sample_float sample_form "tol" lit_1e_6 = inr lit_1e_6 /\
  (1 <= 5)%Z /\
  float_param sample_float sample_form "a" = inr 0%float /\
  float_param sample_float sample_form "b" = inr 2%float /\
  run_method sample_parse sample_float sample_int
    "bisection" "x*x-2" sample_form =
  inr (web_view (residual_or_error lit_1e_6)
         (bisection (sample_parse "x*x-2") 0%float 2%float lit_1e_6 5)).
Proof.
  assert (Hm : (1 <= 5)%Z) by (intros H; discriminate H).
  split; [reflexivity|]. split; [reflexivity|]. split; [exact Hm|].
  split; [reflexivity|]. split; [reflexivity|].
  exact (proj1 (proj1
    (@run_method_agrees_with_command_line sample_parse sample_float
       sample_int "x*x-2"%string "x-1"%string sample_form lit_1e_6
       0%float 2%float 1%float 2%float lit_1e_3 5%Z
       eq_refl eq_refl Hm) eq_refl eq_refl)).
Defined.

(** X15 on a run: a method the page does not offer, and Newton-Raphson with
    a cap of 0. *)
Lemma run_method_empty_answer_witness :
  int_param_or sample_int [("x0", "1"); ("max_iter", "0")]%string
    "max_iter" 100 = inr 0%Z /\
  float_param_or sample_float [("x0", "1"); ("max_iter", "0")]%string
    "tol" lit_1e_6 = inr lit_1e_6 /\
  run_method sample_parse sample_float sample_int "brent" "x*x-2"
    [("x0", "1"); ("max_iter", "0")]%string = inr (Rows [] None) /\
  run_method sample_parse sample_float sample_int "newton" "x*x-2"
    [("x0", "1"); ("max_iter", "0")]%string = inr (Rows [] None).
Proof.
  pose proof (@run_method_empty_answer sample_parse sample_float sample_int
                "brent"%string "x*x-2"%string "x-1"%string
                [("x0", "1"); ("max_iter", "0")]%string
                lit_1e_6 1%float 2%float lit_1e_3 0%Z eq_refl eq_refl)
    as (Hu & Hz).
  split; [reflexivity|]. split; [reflexivity|]. split.
  - apply Hu. simpl. intros H.
    repeat (destruct H as [H|H]; [discriminate H|]). exact H.
  - assert (Hle : (0 <= 0)%Z) by (intros H; discriminate H).
    exact (proj1 (proj2 (Hz Hle eq_refl))).
Defined.

(** X16 on a run: bisection of [x-1] over [0, 2] meets the test in its
    first pass, at the midpoint 1. *)
Lemma run_method_root_is_last_row_witness :
  run_method sample_parse sample_float sample_int "bisection" "x-1"
    sample_form =
  inr (Rows [(1%Z, 1, Some 0, 1)]%float (Some 1%float)) /\
  exists tol,
    float_param_or sample_float sample_form "tol" lit_1e_6 = inr tol /\
    web_shape (web_test "bisection" tol) [(1%Z, 1, Some 0, 1)]%float
      (Some 1%float).
Proof.
  assert (Hr : run_method sample_parse sample_float sample_int
                 "bisection" "x-1" sample_form =
               inr (Rows [(1%Z, 1, Some 0, 1)]%float (Some 1%float)))
    by (vm_compute; reflexivity).
  split; [exact Hr|].
  exact (@run_method_root_is_last_row sample_parse sample_float sample_int
           "bisection"%string "x-1"%string sample_form
           [(1%Z, 1, Some 0, 1)]%float (Some 1%float) Hr).
Defined.

(** X18 on a run: regula falsi on [x-1] over [0, 2] returns at its first
    pass, with an infinite error in its only row. *)
Lemma regula_falsi_errors_after_the_first_witness :
  regula_falsi float_inf f_minus_one 0%float 2%float lit_1e_6 100 =
    Ok (1, infinity, 1%Z, [(1%Z, 1, Some 0, infinity)])%float /\
  successive_after_first float_inf [(1%Z, 1, Some 0, infinity)]%float.
Proof.
  assert (Hr : regula_falsi float_inf f_minus_one 0%float 2%float
                 lit_1e_6 100 =
               Ok (1, infinity, 1%Z, [(1%Z, 1, Some 0, infinity)])%float)
    by (vm_compute; reflexivity).
  split; [exact Hr|].
  exact (@regula_falsi_errors_after_the_first float float_arith float_inf
           f_minus_one 0%float 2%float lit_1e_6 100%Z
           (1, infinity, 1%Z, [(1%Z, 1, Some 0, infinity)])%float Hr).
Defined.

(** X11 on a run: with the default 100, a line that is no number, then a
    line that holds a no-break space. *)
Lemma get_float_first_number_witness :
  get_float sample_float (Some 100%float) ["two"; nbsp_line; "1"]%string =
    Some (100%float, ["1"]%string) /\
  exists skipped s,
    ["two"; nbsp_line; "1"]%string = skipped ++ s :: ["1"]%string /\
    Forall (fun l => line_value sample_float (Some 100%float) l = None)
      skipped /\
    line_value sample_float (Some 100%float) s = Some 100%float.
Proof.
  assert (Hr : get_float sample_float (Some 100%float)
                 ["two"; nbsp_line; "1"]%string =
               Some (100%float, ["1"]%string)) by reflexivity.
  split; [exact Hr|].
  exact (proj1 (@get_float_first_number sample_float (Some 100%float)
                  ["two"; nbsp_line; "1"]%string 100%float ["1"]%string)
           Hr).
Defined.

(** X12 on a run: a blank line where there is no default, and a line that is
    no number. *)
Lemma get_float_no_number_witness :
  Forall (fun l => line_value sample_float None l = None)
    [" "; "two"]%string /\
  get_float sample_float None [" "; "two"]%string = None.
Proof.
  assert (Hf : Forall (fun l => line_value sample_float None l = None)
                 [" "; "two"]%string)
    by (repeat constructor).
  split; [exact Hf|].
  exact (proj2 (@get_float_no_number sample_float None
                  [" "; "two"]%string) Hf).
Defined.

(** X17 on a run: Newton-Raphson on [x-1] from 2 reaches 1 in its first
    pass; the error of its row is the distance from 2. *)
Lemma errors_are_distances_between_iterates_witness :
  exists res,
    newton_raphson lit_1e_6 f_minus_one 2%float lit_1e_3 100 = Ok res /\
    successive 2%float (snd res).
Proof.
  let r := eval vm_compute in
    (newton_raphson lit_1e_6 f_minus_one 2%float lit_1e_3 100) in
  match r with
  | Ok ?res =>
      exists res;
      assert (Hr : newton_raphson lit_1e_6 f_minus_one 2%float lit_1e_3 100 =
                   Ok res) by (vm_compute; reflexivity);
      split; [exact Hr|];
      exact (proj1 (proj2
        (@errors_are_distances_between_iterates float float_arith
           lit_1e_6 f_minus_one g_double 2%float 2%float lit_1e_3 lit_1e_3
           100%Z res)) Hr)
  end.
Defined.

(** X19 on a run: exact regula falsi of [10*x-3] over [0, 1] with
    tolerance 1/4. *)
Lemma regula_falsi_stays_in_bracket_witness :
  (0 < 1 # 4)%Q /\ q_linear 0%Q = inr (10 * 0 - 3)%Q /\
  ~ (10 * 0 - 3 == 0)%Q /\
  exists x err n rows,
    regula_falsi 0%Q q_linear 0%Q 1%Q (1 # 4)%Q 100 = Ok (x, err, n, rows) /\
    between 0 1 x /\ Forall (fun r => between 0 1 (row_x r)) rows.
Proof.
  assert (Ht : (0 < 1 # 4)%Q) by reflexivity.
  assert (Hn : ~ (10 * 0 - 3 == 0)%Q) by (intros H; discriminate H).
  split; [exact Ht|]. split; [reflexivity|]. split; [exact Hn|].
  let r := eval vm_compute in
    (regula_falsi 0%Q q_linear 0%Q 1%Q (1 # 4)%Q 100) in
  match r with
  | Ok (?x, ?e, ?n, ?rows) =>
      exists x, e, n, rows;
      assert (Hr : regula_falsi 0%Q q_linear 0%Q 1%Q (1 # 4)%Q 100 =
                   Ok (x, e, n, rows)) by (vm_compute; reflexivity);
      split; [exact Hr|];
      exact (@regula_falsi_stays_in_bracket 0%Q q_linear 0%Q 1%Q (1 # 4)%Q
               100%Z x e n rows (10 * 0 - 3)%Q Ht eq_refl Hn Hr)
  end.
Defined.

(** X20 on a run: the expression, method number 5, blank lines for the
    tolerance and the cap, [g(x) = x-1] and the start 1.  The iteration
    uses up its 100 passes and returns; the table then raises. *)
Lemma main_fixed_point_ends_in_an_exception_witness :
  get_float sample_float (Some 1%float) ["5"; ""; ""; "x-1"; "1"]%string =
    Some (5%float, [""; ""; "x-1"; "1"]%string) /\
  py_int 5%float = Ok 5%Z /\
  (exists res,
     fixed_point_iteration f_minus_one 1%float lit_1e_6 100 = Ok res) /\
  main sample_parse sample_float
    ["x*x-2"; "5"; ""; ""; "x-1"; "1"]%string =
  Some (Raise (TypeError
                 "unsupported format string passed to NoneType.__format__")).
Proof.
  split; [reflexivity|]. split; [reflexivity|]. split.
  { eexists. vm_compute. reflexivity. }
  pose proof (@main_fixed_point_ends_in_an_exception sample_parse
                sample_float "x*x-2"%string "x-1"%string
                ["5"; ""; ""; "x-1"; "1"]%string
                [""; ""; "x-1"; "1"]%string [""; "x-1"; "1"]%string
                ["1"]%string [] 5%float lit_1e_6 100%float 1%float 100%Z
                eq_refl eq_refl eq_refl eq_refl eq_refl eq_refl) as H.
  rewrite H. vm_compute. reflexivity.
Defined.
